(** * Chunked text-to-speech generation: a shallow embedding

    The development follows the Python sources of the service:

    - [app/utils/chunking.py]            (module [Chunking]),
    - [app/utils/audio_utils.py]         (module [AudioUtils]),
    - [app/middleware/error_handler.py]  (module [Errors]),
    - [app/services/voice_manager.py]    (module [VoiceManager]),
    - [app/services/elevenlabs_service.py] (module [Service]).

    Python [str] values are Rocq strings whose characters are read as the
    code points below 256; Python [int] values are [Z]; [bytes] are lists of
    bytes.  A raised exception is a value of [exn]; code that can raise
    returns a [result].  The coroutines of the service run on a [world] that
    records the calls of the provider, the sleeps and the metrics in the
    order they happen; the provider itself is a parameter.

    The definitions come first.  The properties follow: facts on strings and
    on the loops of the chunker, then the claims C1 to C10, each named in
    the comment of its theorem. *)

From Stdlib Require Import ZArith Ascii String.
From stdpp Require Import base option list strings gmap pretty.

Local Open Scope string_scope.
Local Open Scope list_scope.
Local Open Scope Z_scope.

(** ** Exceptions and results *)

Module Errors.

(** [ErrorCode] of [app/models/response_models.py]. *)
Inductive ErrorCode :=
| INVALID_INPUT
| AUTH_ERROR
| FORBIDDEN
| UPSTREAM_ERROR
| UPSTREAM_RATE_LIMIT
| TIMEOUT
| INTERNAL_ERROR
| VOICE_NOT_FOUND
| TEXT_TOO_LONG.

(** The three subclasses of [TTSException] declared in
    [error_handler.py]. *)
Inductive tts_class :=
| ClsElevenLabsException
| ClsValidationException
| ClsVoiceNotFoundException.

(** An instance of (a subclass of) [TTSException]: the attributes set by
    [TTSException.__init__]. *)
Record TTSException := mkTTSException {
  cls : tts_class;
  message : string;
  error_code : ErrorCode;
  retryable : bool
}.

(** What the modelled code can raise.  [TimeoutException] and
    [RequestError] are the httpx classes the service catches (the second
    stands for the request errors that are not timeouts); [OtherError] is
    any exception of a class the sources never name. *)
Inductive exn :=
| ValueError (msg : string)
| TypeError (msg : string)
| TimeoutException (msg : string)
| RequestError (msg : string)
| OtherError (msg : string)
| TTS (e : TTSException).

(** [str(e)]. *)
Definition exn_str (e : exn) : string :=
  match e with
  | ValueError m | TypeError m | TimeoutException m
  | RequestError m | OtherError m => m
  | TTS t => message t
  end.

(** [ElevenLabsException.__init__]: the status code selects the error
    code; [None] and every unlisted status give [UPSTREAM_ERROR]. *)
Definition ElevenLabsException
    (msg : string) (status_code : option Z) (retry : bool) : exn :=
  let code :=
    match status_code with
    | Some 401 => AUTH_ERROR
    | Some 403 => FORBIDDEN
    | Some 429 => UPSTREAM_RATE_LIMIT
    | Some 500 | Some 502 | Some 503 | Some 504 => UPSTREAM_ERROR
    | _ => UPSTREAM_ERROR
    end in
  TTS (mkTTSException ClsElevenLabsException msg code retry).

Definition ValidationException (msg : string) : exn :=
  TTS (mkTTSException ClsValidationException msg INVALID_INPUT false).

Definition VoiceNotFoundException (msg : string) : exn :=
  TTS (mkTTSException ClsVoiceNotFoundException msg VOICE_NOT_FOUND false).

(** The error code carried by an exception, when it is a [TTSException]. *)
Definition exn_code (e : exn) : option ErrorCode :=
  match e with TTS t => Some (error_code t) | _ => None end.

Definition exn_retryable (e : exn) : option bool :=
  match e with TTS t => Some (retryable t) | _ => None end.

(** A computation that returns or raises. *)
Inductive result (A : Type) :=
| Ok (a : A)
| Raise (e : exn).
Arguments Ok {A} a.
Arguments Raise {A} e.

#[global] Instance result_ret : MRet result := fun _ a => Ok a.
#[global] Instance result_bind : MBind result := fun _ _ f r =>
  match r with
  | Ok a => f a
  | Raise e => Raise e
  end.

End Errors.
Import Errors.

(** ** Python strings *)

Module Py.

(** [len(s)]. *)
Definition len (s : string) : Z := Z.of_nat (String.length s).

Definition code (c : ascii) : N := N_of_ascii c.

(** [c.isspace()], which is also the class [\s] of [re] on [str] and the
    separator set of [str.split()] and [str.strip()]: for code points
    below 256 these are 9-13, 28-32, 133 and 160. *)
Definition isspace (c : ascii) : bool :=
  let n := code c in
  ((9 <=? n) && (n <=? 13) || (28 <=? n) && (n <=? 32)
   || (n =? 133) || (n =? 160))%N.

(** The class [[A-Za-z]]. *)
Definition is_alpha (c : ascii) : bool :=
  let n := code c in
  ((65 <=? n) && (n <=? 90) || (97 <=? n) && (n <=? 122))%N.

(** The lower-case form of a code point below 256: A-Z and the capital
    letters 192-222 of Latin-1 (215, the multiplication sign, is not one)
    move up by 32. *)
Definition lower_char (c : ascii) : ascii :=
  let n := code c in
  if ((65 <=? n) && (n <=? 90)
      || (192 <=? n) && (n <=? 222) && negb (n =? 215))%N
  then ascii_of_N (n + 32) else c.

(** [s.lower()]. *)
Fixpoint lower (s : string) : string :=
  match s with
  | EmptyString => EmptyString
  | String c s' => String (lower_char c) (lower s')
  end.

(** [bool(s)]: a string is true when it is not empty. *)
Definition truthy (s : string) : bool :=
  match s with EmptyString => false | String _ _ => true end.

Fixpoint lstrip (s : string) : string :=
  match s with
  | EmptyString => EmptyString
  | String c s' => if isspace c then lstrip s' else s
  end.

Fixpoint rstrip (s : string) : string :=
  match s with
  | EmptyString => EmptyString
  | String c s' =>
      let r := rstrip s' in
      if isspace c && negb (truthy r) then EmptyString else String c r
  end.

(** [s.strip()]. *)
Definition strip (s : string) : string := rstrip (lstrip s).

(** [s.split()]: the maximal runs of non-whitespace characters.  [word]
    is the run being read. *)
Fixpoint split_from (word : string) (s : string) : list string :=
  match s with
  | EmptyString => if truthy word then [word] else []
  | String c s' =>
      if isspace c
      then (if truthy word then [word] else []) ++ split_from EmptyString s'
      else split_from (word +:+ String c EmptyString) s'
  end.

Definition split (s : string) : list string := split_from EmptyString s.

(** An index of a slice, as Python normalises it: a negative index counts
    from the end, and the result is clamped to [0, n]. *)
Definition slice_index (n i : Z) : Z :=
  if i <? 0 then Z.max 0 (i + n) else Z.min i n.

(** [s[i:j]]. *)
Definition slice (s : string) (i j : Z) : string :=
  let n := len s in
  let a := slice_index n i in
  let b := slice_index n j in
  substring (Z.to_nat a) (Z.to_nat (b - a)) s.

(** [s[i:]]. *)
Definition slice_from (s : string) (i : Z) : string := slice s i (len s).

(** [range(start, stop, step)] as a list; a zero step raises
    [ValueError]. *)
Definition range (start stop step : Z) : result (list Z) :=
  if step =? 0 then Raise (ValueError "range() arg 3 must not be zero")
  else
    let count :=
      if 0 <? step then (stop - start + step - 1) / step
      else (start - stop - step - 1) / (- step) in
    Ok (map (fun k => start + Z.of_nat k * step) (seq 0 (Z.to_nat count))).

(** [x in xs] for a collection of strings. *)
Definition mem (x : string) (xs : list string) : bool :=
  existsb (String.eqb x) xs.

End Py.

(** ** app/utils/chunking.py *)

Module Chunking.

(** [force_split_text]: the comprehension
    [[text[i:i + max_length] for i in range(0, len(text), max_length)]]. *)
Definition force_split_text (text : string) (max_length : Z)
    : result (list string) :=
  idxs ← Py.range 0 (Py.len text) max_length;
  mret (map (fun i => Py.slice text i (i + max_length)) idxs).

(** One iteration of the loop of [chunk_by_words] on the pair
    [(chunks, current)]. *)
Definition word_step (max_length : Z) (st : list string * string)
    (word : string) : result (list string * string) :=
  let '(chunks, current) := st in
  if Py.len current + Py.len word + 1 >? max_length then
    if Py.truthy current then
      mret (chunks ++ [Py.strip current], word)
    else if Py.len word >? max_length then
      parts ← force_split_text word max_length;
      mret (chunks ++ parts, current)
    else mret (chunks, current)
  else mret (chunks, Py.strip (current +:+ " " +:+ word)).

(** A [for] loop whose body can raise. *)
Fixpoint for_each {S A : Type} (body : S -> A -> result S)
    (st : S) (xs : list A) : result S :=
  match xs with
  | [] => mret st
  | x :: xs' => st' ← body st x; for_each body st' xs'
  end.

(** The final [if current: chunks.append(current.strip())]. *)
Definition flush (st : list string * string) : list string :=
  let '(chunks, current) := st in
  if Py.truthy current then chunks ++ [Py.strip current] else chunks.

Definition chunk_by_words (text : string) (max_length : Z)
    : result (list string) :=
  st ← for_each (word_step max_length) ([], "") (Py.split text);
  mret (flush st).

Definition abbreviations : list string :=
  ["dr."; "mr."; "mrs."; "ms."; "prof."; "inc."; "ltd.";
   "etc."; "vs."; "e.g."; "i.e."].

Definition is_mark (c : ascii) : bool :=
  (Py.code c =? 46)%N || (Py.code c =? 33)%N || (Py.code c =? 63)%N.

Definition is_dot (c : ascii) : bool := (Py.code c =? 46)%N.

Fixpoint leading_spaces (s : string) : nat :=
  match s with
  | String c s' => if Py.isspace c then S (leading_spaces s') else O
  | EmptyString => O
  end.

(** [re.finditer] of the pattern [([.!?])\s+] in [text], each match given as
    [(match.start(1), match.end())].  A match starts at every index that
    holds one of [.!?] and is followed by whitespace; what a match
    consumes after its mark is whitespace only, so no such index lies
    inside an earlier match and the scan can visit every index. *)
Fixpoint finditer_marks (i : nat) (s : string) : list (nat * nat) :=
  match s with
  | EmptyString => []
  | String c s' =>
      (if is_mark c && (0 <? leading_spaces s')%nat
       then [(i, (i + 1 + leading_spaces s')%nat)] else [])
      ++ finditer_marks (S i) s'
  end.

(** Full match of the dotted-word pattern: a run of letters [A-Za-z],
    then any number of groups made of one dot and a run of letters.
    [after_letter] tells whether the previous character was a letter. *)
Fixpoint word_rest (after_letter : bool) (s : string) : bool :=
  match s with
  | EmptyString => after_letter
  | String c s' =>
      if Py.is_alpha c then word_rest true s'
      else if is_dot c then after_letter && word_rest false s'
      else false
  end.

Definition is_dotted_word (s : string) : bool := word_rest false s.

(** Where [$] matches: at the end, or before a newline that ends the
    string.  The pattern matches letters and dots only, so when the string
    ends in a newline the match has to stop before it. *)
Fixpoint before_final_newline (s : string) : string :=
  match s with
  | EmptyString => EmptyString
  | String c EmptyString => if (Py.code c =? 10)%N then EmptyString else s
  | String c s' => String c (before_final_newline s')
  end.

(** The leftmost start from which the rest is a full match. *)
Fixpoint leftmost_word (s : string) : string :=
  if is_dotted_word s then s
  else match s with
       | EmptyString => EmptyString
       | String _ s' => leftmost_word s'
       end.

(** [re.search] of the dotted-word pattern anchored by [$] in [before],
    then [word_match.group(0)], or the empty string without a match. *)
Definition prev_word (before : string) : string :=
  leftmost_word (before_final_newline before).

(** One iteration of the loop of [split_sentences] on the pair
    [(sentences, start)]. *)
Definition sentence_step (text : string) (st : list string * Z)
    (m : nat * nat) : list string * Z :=
  let '(sentences, start) := st in
  let punct_pos := Z.of_nat (fst m) in
  let before := Py.slice text start punct_pos in
  let word := prev_word before in
  let token :=
    match String.get (fst m) text with
    | Some c => if is_dot c then Py.lower (word +:+ ".") else Py.lower word
    | None => Py.lower word
    end in
  if Py.mem token abbreviations then (sentences, start)
  else (sentences ++ [Py.strip (Py.slice text start (punct_pos + 1))],
        Z.of_nat (snd m)).

Definition split_sentences (text : string) : list string :=
  let '(sentences, start) :=
    fold_left (sentence_step text) (finditer_marks 0 text) ([], 0) in
  let tail := Py.strip (Py.slice_from text start) in
  if Py.truthy tail then sentences ++ [tail] else sentences.

(** One iteration of the loop of [chunk_text]. *)
Definition text_step (max_length : Z) (st : list string * string)
    (sentence : string) : result (list string * string) :=
  let '(chunks, current) := st in
  if negb (Py.truthy (Py.strip sentence)) then mret st
  else if Py.len current + Py.len sentence + 1 >? max_length then
    if Py.truthy current then
      mret (chunks ++ [Py.strip current], sentence)
    else
      parts ← chunk_by_words sentence max_length;
      mret (chunks ++ parts, "")
  else mret (chunks, Py.strip (current +:+ " " +:+ sentence)).

Definition chunk_text (text : string) (max_length : Z)
    : result (list string) :=
  if negb (Py.truthy text) then mret []
  else
    let text := Py.strip text in
    if Py.len text <=? max_length then mret [text]
    else
      st ← for_each (text_step max_length) ([], "") (split_sentences text);
      mret (flush st).

(** [validate_text_for_tts].  Its last test compares a quotient of floats
    with 0.3; what it answers on a text is the parameter
    [special_ratio_ok]. *)
Definition validate_text_for_tts (special_ratio_ok : string -> bool)
    (text : string) (max_length : Z) : bool :=
  if negb (Py.truthy text) || negb (Py.truthy (Py.strip text)) then false
  else if Py.len text >? max_length then false
  else special_ratio_ok text.

End Chunking.


(** ** app/utils/audio_utils.py *)

Module AudioUtils.

Definition bytes := list Byte.byte.

Definition SUPPORTED_FORMATS : list string := ["mp3"; "wav"; "ogg"].

(** What the module takes from its environment: whether pydub could be
    imported, what decoding every chunk as MP3, concatenating the segments
    and exporting them in a format returns or raises, and how Python
    prints the set [SUPPORTED_FORMATS] (the order is not fixed). *)
Record backend := mkBackend {
  HAS_PYDUB : bool;
  pydub_merge : list bytes -> string -> result bytes;
  formats_repr : string
}.

(** [b"".join(audio_chunks)]. *)
Definition join (audio_chunks : list bytes) : bytes := concat audio_chunks.

Definition unsupported_format (be : backend) (format : string) : exn :=
  ValueError ("Unsupported audio format: " +:+ format
              +:+ ". Must be one of " +:+ formats_repr be).

Definition combine_audio_chunks (be : backend)
    (audio_chunks : list bytes) (format : string) : result bytes :=
  match audio_chunks with
  | [] => Raise (ValueError "No audio chunks provided")
  | [chunk] => Ok chunk
  | _ =>
      if negb (Py.mem (Py.lower format) SUPPORTED_FORMATS)
      then Raise (unsupported_format be format)
      else if negb (HAS_PYDUB be) then Ok (join audio_chunks)
      else match pydub_merge be audio_chunks (Py.lower format) with
           | Ok combined_bytes => Ok combined_bytes
           | Raise _ => Ok (join audio_chunks)
           end
  end.

(** [len(b)] for a byte string. *)
Definition size (b : bytes) : Z := Z.of_nat (length b).

#[global] Instance byte_eq_dec : EqDecision Byte.byte := Byte.byte_eq_dec.

(** [b"ID3"] and the three two-byte headers of [validate_audio_data]. *)
Definition ID3 : bytes := [Byte.x49; Byte.x44; Byte.x33].
Definition frame_headers : list bytes :=
  [[Byte.xff; Byte.xfb]; [Byte.xff; Byte.xf3]; [Byte.xff; Byte.xf2]].

(** The defaults of [validate_audio_data]: 1000 and 50 * 1024 * 1024. *)
Definition default_min_size : Z := 1000.
Definition default_max_size : Z := 50 * 1024 * 1024.

Definition validate_audio_data (audio_data : bytes) (min_size max_size : Z)
    : bool :=
  match audio_data with
  | [] => false
  | _ =>
      if negb ((min_size <=? size audio_data) && (size audio_data <=? max_size))
      then false
      else if bool_decide (take 3 audio_data = ID3)
              || bool_decide (take 2 audio_data ∈ frame_headers)
      then true
      else false
  end.

(** [convert_audio_format].  [pydub_convert data source target] is what
    loading the data in the source format and exporting it in the target
    format returns or raises. *)
Definition convert_audio_format (be : backend)
    (pydub_convert : bytes -> string -> string -> result bytes)
    (audio_data : bytes) (target_format source_format : string)
    : result bytes :=
  if negb (Py.mem (Py.lower target_format) SUPPORTED_FORMATS)
  then Raise (ValueError ("Unsupported target format: " +:+ target_format
                          +:+ ". Must be " +:+ formats_repr be))
  else if negb (HAS_PYDUB be) then
    if String.eqb (Py.lower target_format) (Py.lower source_format)
    then Ok audio_data
    else Raise (ValueError
           "Audio format conversion requires pydub/ffmpeg; not available in this environment")
  else
    match pydub_convert audio_data (Py.lower source_format)
            (Py.lower target_format) with
    | Ok converted => Ok converted
    | Raise e =>
        Raise (ValueError ("Failed to convert audio from " +:+ source_format
                           +:+ " to " +:+ target_format +:+ ": "
                           +:+ exn_str e))
    end.

(** [adjust_audio_quality].  [pydub_adjust data bitrate sample_rate] is what
    decoding the MP3 data, setting the frame rate and exporting with the
    bitrate returns or raises. *)
Definition adjust_audio_quality (be : backend)
    (pydub_adjust : bytes -> string -> Z -> result bytes)
    (audio_data : bytes) (bitrate : string) (sample_rate : Z) : result bytes :=
  if negb (HAS_PYDUB be) then Ok audio_data
  else
    match pydub_adjust audio_data bitrate sample_rate with
    | Ok adjusted => Ok adjusted
    | Raise e =>
        Raise (ValueError ("Failed to adjust audio quality: " +:+ exn_str e))
    end.

End AudioUtils.

(** ** app/services/voice_manager.py *)

Module VoiceManager.

(** A value of a voice-settings dictionary: a float, kept as the literal
    Python prints for it, or a boolean. *)
Inductive setting :=
| SFloat (literal : string)
| SBool (b : bool).

(** An entry of the registry [_voices]: the keys the service reads.  An
    entry without the key [settings] has the empty dictionary here, which
    is what [voice_config.get("settings", {})] makes of it. *)
Record voice_config := mkVoice {
  voice_id : string;
  model : string;
  settings : gmap string setting
}.

Section Registry.
Variable _voices : gmap string voice_config.

Definition get_voice_config (voice_name : string) : result voice_config :=
  match _voices !! voice_name with
  | None => Raise (VoiceNotFoundException voice_name)
  | Some config => Ok config
  end.

Definition is_voice_available (voice_name : string) : bool :=
  bool_decide (is_Some (_voices !! voice_name)).

Definition default_settings : gmap string setting :=
  {[ "stability" := SFloat "0.7";
     "similarity_boost" := SFloat "0.6";
     "style" := SFloat "0.2";
     "use_speaker_boost" := SBool true ]}.

(** [default_settings.update(voice_settings)]: the voice's own entries
    win. *)
Definition get_voice_settings (voice_name : string)
    : result (gmap string setting) :=
  config ← get_voice_config voice_name;
  mret (settings config ∪ default_settings).

Definition get_voice_model (voice_name : string) : result string :=
  config ← get_voice_config voice_name; mret (model config).

Definition get_voice_id (voice_name : string) : result string :=
  config ← get_voice_config voice_name; mret (voice_id config).
(** The keyword arguments of [add_voice], as [VoiceSchema] reads them: an
    absent argument is [None]. *)
Record voice_kwargs := mkKwargs {
  kw_voice_id : option string;
  kw_model : option string;
  kw_description : option string;
  kw_category : option string;
  kw_settings : option (gmap string setting)
}.

(** [add_voice]: [VoiceSchema] needs [voice_id], [model] and [description]
    and defaults the settings to the four standard ones; the method returns
    the registry with the entry of [name] replaced.  A missing argument
    raises the pydantic [ValidationError], whose text is the parameter
    [validation_error]. *)
Definition add_voice (validation_error : string) (name : string)
    (kw : voice_kwargs) : result (gmap string voice_config) :=
  match kw_voice_id kw, kw_model kw, kw_description kw with
  | Some voice, Some model_name, Some _ =>
      Ok (<[name := mkVoice voice model_name
                      (default default_settings (kw_settings kw))]> _voices)
  | _, _, _ => Raise (OtherError validation_error)
  end.

(** [remove_voice]: the registry without the entry of [name]. *)
Definition remove_voice (name : string) : result (gmap string voice_config) :=
  match _voices !! name with
  | None => Raise (VoiceNotFoundException name)
  | Some _ => Ok (delete name _voices)
  end.
End Registry.

End VoiceManager.

(** ** app/services/elevenlabs_service.py *)

Module Service.
Import Chunking AudioUtils VoiceManager.

(** What [response.json()] returns, as far as [_extract_error] looks at
    it: a dictionary is given by its entries [detail] and [error] (absent
    or strings), anything else is [JsonOther]. *)
Inductive json_body :=
| JsonDict (detail error : option string)
| JsonOther.

(** An [httpx.Response]: [retry_after] is
    [response.headers.get("retry-after")]; [json] is [None] when
    [response.json()] raises. *)
Record Response := mkResponse {
  status_code : Z;
  content : bytes;
  retry_after : option string;
  json : option json_body;
  text : string
}.

(** The request of [client.post]: the voice id of the URL, the three entries
    of the JSON body and the value of the [Accept] header. *)
Record request := mkRequest {
  req_voice_id : string;
  req_text : string;
  req_model_id : string;
  req_voice_settings : gmap string setting;
  req_accept : string
}.

(** What a call of [client.post] does: it returns a response or raises. *)
Inductive outcome :=
| Responds (r : Response)
| Fails (e : exn).

(** The delay [_sleep_backoff] sleeps for.  Its value is a float with a
    random jitter; the model keeps which formula gives it. *)
Inductive delay :=
| RetryAfter (header : string)
| Exponential (attempt : Z).

(** The effects of the service, in the order they happen.  Logging and
    the clock are left out. *)
Inductive event :=
| Post (req : request)
| RecordRequest (voice : string) (status : Z)
| SleepBackoff (d : delay)
| SleepChunkDelay
| RecordGeneration (voice model_name : string) (chars audio_size : Z)
    (format : string).

(** [calls] counts the calls of [client.post] made so far. *)
Record world := mkWorld {
  calls : nat;
  trace : list event
}.

(** A coroutine of the service: it runs on a world, returns or raises, and
    leaves a world.  Effects made before an exception stay. *)
Definition M (A : Type) : Type := world -> result A * world.

#[global] Instance M_ret : MRet M := fun _ a w => (Ok a, w).
#[global] Instance M_bind : MBind M := fun _ _ f c w =>
  match c w with
  | (Ok a, w') => f a w'
  | (Raise e, w') => (Raise e, w')
  end.

Definition raise {A : Type} (e : exn) : M A := fun w => (Raise e, w).

Definition lift {A : Type} (r : result A) : M A := fun w => (r, w).

Definition emit (e : event) : M unit :=
  fun w => (Ok tt, mkWorld (calls w) (trace w ++ [e])).

(** [try: body except Exception as e: handler]. *)
Definition try_except {A : Type} (body : M A) (handler : exn -> M A) : M A :=
  fun w =>
    match body w with
    | (Ok a, w') => (Ok a, w')
    | (Raise e, w') => handler e w'
    end.

(** [a or b] where [a] is a string or [None]. *)
Definition or_else (a : option string) (b : string) : string :=
  match a with
  | Some s => if Py.truthy s then s else b
  | None => b
  end.

Definition _extract_error (response : Response) : string :=
  match json response with
  | Some (JsonDict detail error) =>
      or_else detail (or_else error (text response))
  | Some JsonOther => text response
  | None => text response
  end.

(** [settings] of [app/core/config.py], the two fields the service
    reads. *)
Record Settings := mkSettings {
  max_text_length : Z;
  default_chunk_size : Z
}.

(** The attributes of [ElevenLabsTTSService] that decide the control
    flow. *)
Record ElevenLabsTTSService := mkService {
  default_format : string;
  max_retries : Z
}.

(** How one pass through the body of a [for] loop ends. *)
Inductive flow (A : Type) :=
| Continue
| Return (a : A).
Arguments Continue {A}.
Arguments Return {A} a.

Section Deployment.
Variable settings : Settings.
Variable self : ElevenLabsTTSService.
Variable _voices : gmap string voice_config.
Variable codec : backend.
(** The provider: the outcome of the [k]-th call of [client.post]. *)
Variable upstream : nat -> request -> outcome.

Definition post (req : request) : M Response :=
  fun w =>
    let w' := mkWorld (S (calls w)) (trace w ++ [Post req]) in
    match upstream (calls w) req with
    | Responds r => (Ok r, w')
    | Fails e => (Raise e, w')
    end.

(** The delay [_sleep_backoff] computes: the header when it is a non-empty
    string, the exponential formula otherwise. *)
Definition backoff_delay (attempt : Z) (retry_after : option string) : delay :=
  match retry_after with
  | Some header =>
      if Py.truthy header then RetryAfter header else Exponential attempt
  | None => Exponential attempt
  end.

Definition _sleep_backoff (attempt : Z) (retry_after : option string)
    : M unit :=
  emit (SleepBackoff (backoff_delay attempt retry_after)).

(** [status in {429, 500, 502, 503, 504}]. *)
Definition retry_status (status : Z) : bool :=
  (status =? 429) || (status =? 500) || (status =? 502)
  || (status =? 503) || (status =? 504).

(** The body of the loop of [_generate_chunk] for one value of
    [attempt]: the [try] block and its two [except] clauses. *)
Definition attempt_body (req : request) (chunk_index attempt : Z)
    : M (flow bytes) :=
  try_except
    (response ← post req;
     emit (RecordRequest (req_voice_id req) (status_code response));;
     if status_code response =? 200 then mret (Return (content response))
     else if retry_status (status_code response)
             && (attempt <? max_retries self)
     then _sleep_backoff attempt (retry_after response);; mret Continue
     else raise (ElevenLabsException (_extract_error response)
                   (Some (status_code response)) false))
    (fun e =>
       match e with
       | TimeoutException _ =>
           if attempt <? max_retries self
           then _sleep_backoff attempt None;; mret Continue
           else raise (ElevenLabsException
                         ("Request timeout in chunk " +:+ pretty chunk_index)
                         None true)
       | RequestError msg =>
           if attempt <? max_retries self
           then _sleep_backoff attempt None;; mret Continue
           else raise (ElevenLabsException
                         ("Network error in chunk " +:+ pretty chunk_index
                          +:+ ": " +:+ msg)
                         None true)
       | _ => raise e
       end).

(** [for attempt in range(1, self.max_retries + 1)], from [attempt] on
    with [remaining] values left.  When the range is used up the method
    ends without a [return]: the caller gets [None]. *)
Fixpoint attempts (remaining : nat) (req : request)
    (chunk_index attempt : Z) : M (option bytes) :=
  match remaining with
  | O => mret None
  | S remaining' =>
      f ← attempt_body req chunk_index attempt;
      match f with
      | Return audio => mret (Some audio)
      | Continue => attempts remaining' req chunk_index (attempt + 1)
      end
  end.

Definition _generate_chunk (chunk voice model_id : string)
    (voice_settings : gmap string setting) (fmt : string)
    (chunk_index : Z) : M (option bytes) :=
  attempts (Z.to_nat (max_retries self))
    (mkRequest voice chunk model_id voice_settings ("audio/" +:+ fmt))
    chunk_index 1.

(** The loop over [enumerate(chunks, start=1)]: [i] is the index of the
    first chunk of [chunks], [total] is [len(chunks)] of the whole list
    and [audio_chunks] what has been appended so far. *)
Fixpoint process_chunks (voice model_id : string)
    (voice_settings : gmap string setting) (fmt : string)
    (total i : Z) (chunks : list string)
    (audio_chunks : list (option bytes)) : M (list (option bytes)) :=
  match chunks with
  | [] => mret audio_chunks
  | chunk :: chunks' =>
      chunk_audio ← _generate_chunk chunk voice model_id voice_settings
                      fmt i;
      (if i <? total then emit SleepChunkDelay else mret tt);;
      process_chunks voice model_id voice_settings fmt total (i + 1)
        chunks' (audio_chunks ++ [chunk_audio])
  end.

(** The index of the first [None] of a list of results. *)
Fixpoint first_none (i : Z) (l : list (option bytes)) : option Z :=
  match l with
  | [] => None
  | None :: _ => Some i
  | Some _ :: l' => first_none (i + 1) l'
  end.

(** [combine_audio_chunks(audio_chunks, output_format)] followed by
    [len(combined_audio)], on the list the loop built.  An entry is
    [None] only when [_generate_chunk] fell out of its loop; then a
    single entry is returned as it is and [len] raises, and with several
    entries the join of the byte strings raises (directly without pydub,
    and in the fallback of the [except] clause with it, once decoding
    the [None] entry has failed). *)
Definition combine_results (audio_chunks : list (option bytes))
    (output_format : string) : result bytes :=
  match first_none 0 audio_chunks with
  | None => combine_audio_chunks codec (omap id audio_chunks) output_format
  | Some i =>
      match audio_chunks with
      | [_] => Raise (TypeError "object of type 'NoneType' has no len()")
      | _ =>
          if negb (Py.mem (Py.lower output_format) SUPPORTED_FORMATS)
          then Raise (unsupported_format codec output_format)
          else Raise (TypeError
                 ("sequence item " +:+ pretty i
                  +:+ ": expected a bytes-like object, NoneType found"))
      end
  end.

(** The body of the [try] statement of [text_to_speech]. *)
Definition text_to_speech_try (text voice_name : string) (chunk_size : Z)
    (override_voice_settings : option (gmap string setting))
    (output_format : string) : M bytes :=
  if negb (is_voice_available _voices voice_name)
  then raise (ValidationException
                ("Voice '" +:+ voice_name +:+ "' is not available"))
  else
    voice ← lift (get_voice_id _voices voice_name);
    model_id ← lift (get_voice_model _voices voice_name);
    base ← lift (get_voice_settings _voices voice_name);
    let voice_settings := default ∅ override_voice_settings ∪ base in
    if Py.len text >? max_text_length settings
    then raise (ValidationException
                  ("Text too long: " +:+ pretty (Py.len text)
                   +:+ " characters (max: "
                   +:+ pretty (max_text_length settings) +:+ ")"))
    else
      chunks ← lift (chunk_text text chunk_size);
      audio_chunks ← process_chunks voice model_id voice_settings
                       output_format (Z.of_nat (length chunks)) 1 chunks [];
      match audio_chunks with
      | [] => raise (ElevenLabsException "No audio chunks were generated"
                       None false)
      | _ =>
          combined_audio ← lift (combine_results audio_chunks output_format);
          emit (RecordGeneration voice_name model_id (Py.len text)
                  (Z.of_nat (length combined_audio)) output_format);;
          mret combined_audio
      end.

(** [except (ValidationException, ElevenLabsException): raise]. *)
Definition recognized (e : exn) : bool :=
  match e with
  | TTS t =>
      match cls t with
      | ClsValidationException | ClsElevenLabsException => true
      | ClsVoiceNotFoundException => false
      end
  | _ => false
  end.

(** The two [except] clauses of [text_to_speech]. *)
Definition on_exception {A : Type} (e : exn) : M A :=
  if recognized e then raise e
  else raise (ElevenLabsException ("Unexpected error: " +:+ exn_str e)
                None false).

(** [chunk_size or settings.default_chunk_size]. *)
Definition chunk_size_or_default (chunk_size : option Z) : Z :=
  match chunk_size with
  | Some n => if n =? 0 then default_chunk_size settings else n
  | None => default_chunk_size settings
  end.

(** [text_to_speech].  [news_id] and [request_id] only reach the logger. *)
Definition text_to_speech (text voice_name news_id request_id : string)
    (chunk_size : option Z)
    (override_voice_settings : option (gmap string setting))
    (output_format : option string) : M bytes :=
  try_except
    (text_to_speech_try text voice_name (chunk_size_or_default chunk_size)
       override_voice_settings
       (or_else output_format (default_format self)))
    on_exception.

End Deployment.

End Service.

(** ** app/middleware/error_handler.py: the responses *)

Module ErrorHandler.

(** [ERROR_STATUS_MAP.get(error_code)]: the dictionary has no entry for
    [TEXT_TOO_LONG]. *)
Definition ERROR_STATUS_MAP (error_code : ErrorCode) : option Z :=
  match error_code with
  | INVALID_INPUT => Some 400
  | VOICE_NOT_FOUND => Some 404
  | AUTH_ERROR => Some 401
  | FORBIDDEN => Some 403
  | UPSTREAM_RATE_LIMIT => Some 429
  | UPSTREAM_ERROR => Some 503
  | TIMEOUT => Some 503
  | INTERNAL_ERROR => Some 500
  | TEXT_TOO_LONG => None
  end.

(** The [JSONResponse] of [build_error_response]: the HTTP status and the
    fields of the [TTSErrorResponse] in its body. *)
Record JSONResponse := mkJSONResponse {
  http_status : Z;
  body_request_id : string;
  body_error_code : ErrorCode;
  body_message : string;
  body_retryable : bool;
  body_timestamp : string
}.

(** [build_error_response]; [now] is [datetime.now(UTC).isoformat()].
    [status_code or ERROR_STATUS_MAP.get(error_code, 500)]: a status of
    [None] or 0 gives way to the map. *)
Definition build_error_response (now request_id : string)
    (error_code : ErrorCode) (message : string) (retryable : bool)
    (status_code : option Z) : JSONResponse :=
  let mapped := default 500 (ERROR_STATUS_MAP error_code) in
  let status :=
    match status_code with
    | Some s => if s =? 0 then mapped else s
    | None => mapped
    end in
  mkJSONResponse status request_id error_code message retryable now.

(** What reaches [exception_handler]: an exception of the service, or the
    [HTTPException] of FastAPI with its status and detail. *)
Inductive raised :=
| Exn (e : exn)
| HTTPException (status_code : Z) (detail : string).

Definition exception_handler (now request_id : string) (exc : raised)
    : JSONResponse :=
  match exc with
  | Exn (TTS t) =>
      build_error_response now request_id (error_code t) (message t)
        (retryable t) None
  | HTTPException status detail =>
      build_error_response now request_id
        (if status <? 500 then INVALID_INPUT else INTERNAL_ERROR)
        detail false (Some status)
  | Exn _ =>
      build_error_response now request_id INTERNAL_ERROR
        "An unexpected error occurred" false None
  end.

End ErrorHandler.

(** ** app/models/request_models.py and app/api/routes_tts.py: the text *)

Module Request.

(** [validate_text_content], the validator of [title] and [body]. *)
Definition validate_text_content (v : string) : result string :=
  if negb (Py.truthy (Py.strip v))
  then Raise (ValueError "Content cannot be empty or whitespace only")
  else Ok (Py.strip v).

(** The class [[a-zA-Z0-9_-]]. *)
Definition is_id_char (c : ascii) : bool :=
  let n := Py.code c in
  (Py.is_alpha c || (48 <=? n) && (n <=? 57) || (n =? 95) || (n =? 45))%N.

(** Full match of one or more characters of the class. *)
Fixpoint all_id_chars (s : string) : bool :=
  match s with
  | EmptyString => true
  | String c s' => is_id_char c && all_id_chars s'
  end.

Definition is_id (s : string) : bool := Py.truthy s && all_id_chars s.

(** [validate_news_id]: [re.match] of the class repeated, between [^] and
    [$]; [$] also matches before a newline that ends the string. *)
Definition validate_news_id (v : string) : result string :=
  if negb (is_id (Chunking.before_final_newline v))
  then Raise (ValueError
                "news_id must be alphanumeric with optional '_' or '-'")
  else Ok (Py.strip v).

(** The text [generate_tts] passes to [text_to_speech]:
    [f"{request.title}. {request.body}"]. *)
Definition full_text (title body : string) : string :=
  title +:+ ". " +:+ body.

End Request.


(** ** Vocabulary of the properties *)

Module Props.

(** The characters of a string that are not whitespace, in order: two texts
    equal up to the whitespace that joins their parts have the same ink. *)
Fixpoint ink (s : string) : string :=
  match s with
  | EmptyString => EmptyString
  | String c s' => if Py.isspace c then ink s' else String c (ink s')
  end.

(** A string without whitespace. *)
Fixpoint spaceless (s : string) : bool :=
  match s with
  | EmptyString => true
  | String c s' => negb (Py.isspace c) && spaceless s'
  end.

(** The chunks of a list put one after the other. *)
Definition glue (chunks : list string) : string :=
  fold_right String.append EmptyString chunks.

(** The number of calls of [client.post] in a trace. *)
Fixpoint posts (t : list Service.event) : nat :=
  match t with
  | [] => O
  | Service.Post _ :: t' => S (posts t')
  | _ :: t' => posts t'
  end.

(** The number of backoff sleeps in a trace. *)
Fixpoint backoffs (t : list Service.event) : nat :=
  match t with
  | [] => O
  | Service.SleepBackoff _ :: t' => S (backoffs t')
  | _ :: t' => backoffs t'
  end.

(** The buffer of [chunk_by_words]: it holds ink, and it fits or is one
    word of the text. *)
Definition word_buffer (words : list string) (max_length : Z)
    (current : string) : Prop :=
  ink current <> ""
  /\ (Py.len current <= max_length
      \/ (current ∈ words /\ spaceless current = true)).

(** A chunk of [chunk_by_words]: it is not empty, and it fits or is one
    word of the text. *)
Definition word_chunk (words : list string) (max_length : Z)
    (chunk : string) : Prop :=
  chunk <> "" /\ (Py.len chunk <= max_length \/ chunk ∈ words).

(** A chunk of [chunk_text]: it fits, or it is one word of a sentence of the
    text, or it is a whole sentence of the text. *)
Definition sentence_chunk (sentences : list string) (max_length : Z)
    (chunk : string) : Prop :=
  Py.len chunk <= max_length
  \/ exists sentence,
       sentence ∈ sentences
       /\ (chunk ∈ Py.split sentence \/ chunk = Py.strip sentence).

(** The matches of a text from an index on: each starts at or after the
    index, ends within the text after whitespace only, and the next ones
    start at or after its end. *)
Fixpoint marks_from (text : string) (lo : nat) (ms : list (nat * nat))
    : Prop :=
  match ms with
  | [] => True
  | (p, e) :: ms' =>
      (lo <= p)%nat /\ (p < e)%nat /\ (e <= String.length text)%nat
      /\ ink (substring (S p) (e - S p) text) = ""
      /\ marks_from text e ms'
  end.

(** The requests of the calls of [client.post] in a trace, in order. *)
Fixpoint requests (t : list Service.event) : list Service.request :=
  match t with
  | [] => []
  | Service.Post req :: t' => req :: requests t'
  | _ :: t' => requests t'
  end.

(** The number of sleeps between chunks in a trace. *)
Fixpoint chunk_delays (t : list Service.event) : nat :=
  match t with
  | [] => O
  | Service.SleepChunkDelay :: t' => S (chunk_delays t')
  | _ :: t' => chunk_delays t'
  end.

(** The bodies of the answers of a provider to consecutive calls, the
    first of which is its [k]-th call. *)
Fixpoint contents (upstream : nat -> Service.request -> Service.outcome)
    (k : nat) (reqs : list Service.request) : list AudioUtils.bytes :=
  match reqs with
  | [] => []
  | req :: reqs' =>
      match upstream k req with
      | Service.Responds r => Service.content r
      | Service.Fails _ => []
      end :: contents upstream (S k) reqs'
  end.

(** An outcome of a call that [_generate_chunk] answers with a new
    attempt as long as attempts are left: a status of the retry set, a
    timeout or a network error. *)
Definition retried (o : Service.outcome) : Prop :=
  match o with
  | Service.Responds r => Service.retry_status (Service.status_code r) = true
  | Service.Fails (TimeoutException _) => True
  | Service.Fails (RequestError _) => True
  | Service.Fails _ => False
  end.

(** What [_generate_chunk] raises when the attempts are used up on an
    outcome it would have retried. *)
Definition exhausted_error (chunk_index : Z) (o : Service.outcome) : exn :=
  match o with
  | Service.Responds r =>
      ElevenLabsException (Service._extract_error r)
        (Some (Service.status_code r)) false
  | Service.Fails (RequestError msg) =>
      ElevenLabsException
        ("Network error in chunk " +:+ pretty chunk_index +:+ ": " +:+ msg)
        None true
  | Service.Fails _ =>
      ElevenLabsException ("Request timeout in chunk " +:+ pretty chunk_index)
        None true
  end.

(** An exception made by the constructor of [ValidationException] or of
    [ElevenLabsException]. *)
Definition constructed (e : exn) : Prop :=
  (exists msg, e = ValidationException msg)
  \/ (exists msg status retry, e = ElevenLabsException msg status retry).

End Props.

(** ** A concrete deployment, for the examples *)

Module Examples.
Import AudioUtils VoiceManager Service.

(** The registry [load_voice_config] falls back to. *)
Definition voices : gmap string voice_config :=
  {[ "adam" := mkVoice "pNInz6obpgDQGcFmaJgB" "eleven_flash_v2_5" ∅;
     "sarah" := mkVoice "EXAVITQu4vr4xnSDxMaL" "eleven_turbo_v2_5" ∅;
     "arnold" := mkVoice "VR6AewLTigWG4xSOukaG" "eleven_multilingual_v2" ∅ ]}.

(** The defaults of [Settings] and of the constructor of the service. *)
Definition settings : Settings := mkSettings 10000 2500.
Definition service : ElevenLabsTTSService := mkService "mp3" 3.

(** A deployment without pydub. *)
Definition codec : backend :=
  mkBackend false (fun _ _ => Raise (OtherError "pydub is not available"))
    "{'mp3', 'wav', 'ogg'}".

Definition response (status : Z) (body : bytes) : Response :=
  mkResponse status body None None "".

(** Providers: one that always answers 500, one that always answers 200
    with an empty body, one whose calls raise an exception that is not an
    httpx one. *)
Definition always_500 : nat -> request -> outcome :=
  fun _ _ => Responds (response 500 []).
Definition always_empty : nat -> request -> outcome :=
  fun _ _ => Responds (response 200 []).
Definition always_crashing : nat -> request -> outcome :=
  fun _ _ => Fails (OtherError "boom").

Definition start : world := mkWorld 0 [].

(** More providers: one that is rate limited, then times out, then
    answers 200 with a body of one byte; one that always answers 401; one
    whose calls always time out; and one whose [k]-th call is answered
    with 200 and a body of [k + 1] bytes. *)
Definition flaky : nat -> request -> outcome :=
  fun k _ =>
    match k with
    | O => Responds (mkResponse 429 [] (Some "2") None "slow down")
    | S O => Fails (TimeoutException "timed out")
    | _ => Responds (response 200 [Byte.x01])
    end.
Definition always_401 : nat -> request -> outcome :=
  fun _ _ =>
    Responds (mkResponse 401 [] None (Some (JsonDict (Some "bad key") None))
                "").
Definition always_timeout : nat -> request -> outcome :=
  fun _ _ => Fails (TimeoutException "timed out").
Definition numbered : nat -> request -> outcome :=
  fun k _ => Responds (response 200 (replicate (S k) Byte.x00)).

(** A provider whose first call is answered with 200 and a body of one
    byte, and every later call with 401. *)
Definition ok_then_401 : nat -> request -> outcome :=
  fun k req =>
    match k with
    | O => Responds (response 200 [Byte.x01])
    | S _ => always_401 k req
    end.

(** A service that makes no attempt. *)
Definition idle_service : ElevenLabsTTSService := mkService "mp3" 0.

End Examples.

(** * Properties *)

(** ** Strings, slices and loops *)

Lemma append_cons (c : ascii) (a b : string) :
  String c a +:+ b = String c (a +:+ b).
Proof. reflexivity. Qed.

Lemma append_nil (b : string) : "" +:+ b = b.
Proof. reflexivity. Qed.

(** Computation steps on strings: [String.append] is opaque to [simpl]. *)
Ltac string_simpl := simpl; rewrite ?append_cons, ?append_nil; simpl.

Section StringFacts.
Import Props.


Lemma length_append (a b : string) :
  String.length (a +:+ b) = (String.length a + String.length b)%nat.
Proof. induction a as [|c a IH]; string_simpl; [done | by rewrite IH]. Qed.

Lemma append_empty_r (a : string) : a +:+ "" = a.
Proof. induction a as [|c a IH]; string_simpl; [done | by rewrite IH]. Qed.

Lemma append_assoc (a b c : string) : (a +:+ b) +:+ c = a +:+ (b +:+ c).
Proof. induction a as [|x a IH]; string_simpl; [done | by rewrite IH]. Qed.

Lemma ink_app (a b : string) : ink (a +:+ b) = ink a +:+ ink b.
Proof.
  induction a as [|c a IH]; string_simpl; [done |].
  destruct (Py.isspace c); string_simpl; by rewrite IH.
Qed.

Lemma ink_lstrip (s : string) : ink (Py.lstrip s) = ink s.
Proof.
  induction s as [|c s IH]; string_simpl; [done |].
  destruct (Py.isspace c) eqn:Hc; [done |]. string_simpl. by rewrite Hc.
Qed.

Lemma rstrip_empty (s : string) : Py.rstrip s = "" <-> ink s = "".
Proof.
  induction s as [|c s IH]; string_simpl; [done |].
  destruct (Py.isspace c); string_simpl.
  - destruct (Py.rstrip s) eqn:Hr; string_simpl.
    + split; [intros _; by apply IH | done].
    + split; [done |]. intros Hink. by apply IH in Hink.
  - done.
Qed.

Lemma ink_rstrip (s : string) : ink (Py.rstrip s) = ink s.
Proof.
  induction s as [|c s IH]; string_simpl; [done |].
  destruct (Py.isspace c) eqn:Hc; string_simpl.
  - destruct (Py.rstrip s) eqn:Hr; string_simpl.
    + symmetry. by apply rstrip_empty.
    + by rewrite Hc.
  - by rewrite Hc, IH.
Qed.

Lemma ink_strip (s : string) : ink (Py.strip s) = ink s.
Proof. unfold Py.strip. by rewrite ink_rstrip, ink_lstrip. Qed.

Lemma strip_empty (s : string) : Py.strip s = "" <-> ink s = "".
Proof. unfold Py.strip. by rewrite rstrip_empty, ink_lstrip. Qed.

Lemma truthy_true (s : string) : Py.truthy s = true <-> s <> "".
Proof. by destruct s. Qed.

Lemma truthy_false (s : string) : Py.truthy s = false <-> s = "".
Proof. by destruct s. Qed.

Lemma length_lstrip (s : string) :
  (String.length (Py.lstrip s) <= String.length s)%nat.
Proof.
  induction s as [|c s IH]; string_simpl; [done |].
  destruct (Py.isspace c); string_simpl; lia.
Qed.

Lemma length_rstrip (s : string) :
  (String.length (Py.rstrip s) <= String.length s)%nat.
Proof.
  induction s as [|c s IH]; string_simpl; [done |].
  destruct (Py.isspace c && negb (Py.truthy (Py.rstrip s))); string_simpl; lia.
Qed.

Lemma len_strip (s : string) : Py.len (Py.strip s) <= Py.len s.
Proof.
  unfold Py.len, Py.strip.
  pose proof (length_rstrip (Py.lstrip s)). pose proof (length_lstrip s). lia.
Qed.

Lemma len_app (a b : string) : Py.len (a +:+ b) = Py.len a + Py.len b.
Proof. unfold Py.len. rewrite length_append. lia. Qed.

Lemma len_nonneg (s : string) : 0 <= Py.len s.
Proof. unfold Py.len. lia. Qed.

Lemma spaceless_ink (s : string) : spaceless s = true -> ink s = s.
Proof.
  induction s as [|c s IH]; string_simpl; [done |].
  destruct (Py.isspace c); string_simpl; [done |]. intros H. by rewrite IH.
Qed.

Lemma spaceless_lstrip (s : string) : spaceless s = true -> Py.lstrip s = s.
Proof. destruct s as [|c s]; string_simpl; [done |]. by destruct (Py.isspace c). Qed.

Lemma spaceless_rstrip (s : string) : spaceless s = true -> Py.rstrip s = s.
Proof.
  induction s as [|c s IH]; string_simpl; [done |].
  destruct (Py.isspace c); string_simpl; [done |]. intros H. by rewrite IH.
Qed.

Lemma spaceless_strip (s : string) : spaceless s = true -> Py.strip s = s.
Proof.
  intros H. unfold Py.strip. rewrite spaceless_lstrip by done.
  by apply spaceless_rstrip.
Qed.

Lemma spaceless_app (a b : string) :
  spaceless (a +:+ b) = spaceless a && spaceless b.
Proof.
  induction a as [|c a IH]; string_simpl; [done |]. rewrite IH. by rewrite andb_assoc.
Qed.

(** The words of [split]: none is empty and none holds whitespace. *)
Lemma split_from_words (s word : string) :
  spaceless word = true ->
  Forall (fun w => w <> "" /\ spaceless w = true) (Py.split_from word s).
Proof.
  revert word. induction s as [|c s IH]; intros word Hword; string_simpl.
  - destruct word; string_simpl; [constructor |]. by repeat constructor.
  - destruct (Py.isspace c) eqn:Hc.
    + apply Forall_app. split; [| by apply IH].
      destruct word; string_simpl; [constructor |]. by repeat constructor.
    + apply IH. rewrite spaceless_app, Hword. string_simpl. by rewrite Hc.
Qed.

Lemma split_words (s : string) :
  Forall (fun w => w <> "" /\ spaceless w = true) (Py.split s).
Proof. by apply split_from_words. Qed.

Lemma glue_app (l1 l2 : list string) : glue (l1 ++ l2) = glue l1 +:+ glue l2.
Proof.
  induction l1 as [|x l1 IH]; string_simpl; [done |].
  unfold glue in IH |- *. string_simpl. by rewrite IH, append_assoc.
Qed.

(** Putting the words of a text one after the other gives its ink. *)
Lemma glue_split_from (s word : string) :
  glue (Py.split_from word s) = word +:+ ink s.
Proof.
  revert word. induction s as [|c s IH]; intros word; string_simpl.
  - destruct word; string_simpl; [done |]. by rewrite !append_empty_r.
  - destruct (Py.isspace c) eqn:Hc.
    + rewrite glue_app, IH. string_simpl.
      destruct word; string_simpl; [done |]. by rewrite !append_empty_r.
    + rewrite IH, append_assoc. done.
Qed.

Lemma glue_split (s : string) : glue (Py.split s) = ink s.
Proof. unfold Py.split. by rewrite glue_split_from. Qed.

(** Slices. *)
Lemma substring_beyond (s : string) (n m : nat) :
  (String.length s <= n)%nat -> substring n m s = "".
Proof.
  revert n m. induction s as [|c s IH]; intros n m Hn; simpl in *.
  - by destruct n, m.
  - destruct n as [|n]; [lia |]. apply IH. lia.
Qed.

Lemma substring_min (s : string) (n m : nat) :
  substring n (Nat.min m (String.length s - n)) s = substring n m s.
Proof.
  revert n m. induction s as [|c s IH]; intros n m; simpl.
  - rewrite Nat.min_0_r. by destruct n, m.
  - destruct n as [|n]; simpl.
    + destruct m as [|m]; simpl; [done |].
      f_equal. specialize (IH 0%nat m). by rewrite Nat.sub_0_r in IH.
    + apply IH.
Qed.

Lemma length_substring (s : string) (n m : nat) :
  (String.length (substring n m s) <= m)%nat.
Proof.
  revert n m. induction s as [|c s IH]; intros n m; simpl.
  - destruct n, m; simpl; lia.
  - destruct n as [|n]; [| apply IH].
    destruct m as [|m]; simpl; [lia |]. specialize (IH 0%nat m). lia.
Qed.

Lemma substring_nonempty (s : string) (n m : nat) :
  (n < String.length s)%nat -> (0 < m)%nat -> substring n m s <> "".
Proof.
  revert n m. induction s as [|c s IH]; intros n m Hn Hm; simpl in *; [lia |].
  destruct n as [|n]; [| apply IH; lia].
  destruct m as [|m]; [lia | done].
Qed.

Lemma substring_all (s : string) (m : nat) :
  (String.length s <= m)%nat -> substring 0 m s = s.
Proof.
  revert m. induction s as [|c s IH]; intros m Hm; simpl in *.
  - by destruct m.
  - destruct m as [|m]; [lia |]. f_equal. apply IH. lia.
Qed.

Lemma substring_adjacent (s : string) (n a b : nat) :
  substring n a s +:+ substring (n + a) b s = substring n (a + b) s.
Proof.
  revert n a. induction s as [|c s IH]; intros n a; simpl.
  - destruct n, a, b; simpl; reflexivity.
  - destruct n as [|n]; simpl; [| apply IH].
    destruct a as [|a]; simpl.
    + destruct b; reflexivity.
    + rewrite append_cons. f_equal. apply (IH 0%nat a).
Qed.

(** A slice with bounds that are not negative is a substring. *)
Lemma slice_substring (s : string) (i m : Z) :
  0 <= i -> 0 <= m ->
  Py.slice s i (i + m) = substring (Z.to_nat i) (Z.to_nat m) s.
Proof.
  intros Hi Hm. unfold Py.slice, Py.slice_index, Py.len.
  rewrite (proj2 (Z.ltb_ge i 0)) by lia.
  rewrite (proj2 (Z.ltb_ge (i + m) 0)) by lia.
  destruct (Z_le_gt_dec (Z.of_nat (String.length s)) i) as [Hbig | Hsmall].
  - rewrite !substring_beyond; [done | lia | lia].
  - rewrite Z.min_l by lia.
    rewrite <- (substring_min s (Z.to_nat i) (Z.to_nat m)).
    f_equal. lia.
Qed.

End StringFacts.

Section ChunkingFacts.
Import Chunking Props.

(** A [for] loop whose body keeps an invariant [I], indexed by the items
    already visited, returns and ends in a state of the invariant. *)
Lemma for_each_invariant {S A : Type} (body : S -> A -> result S)
    (I : list A -> S -> Prop) (P : A -> Prop) :
  (forall visited st x, I visited st -> P x ->
     exists st', body st x = Ok st' /\ I (visited ++ [x]) st') ->
  forall xs visited st, I visited st -> Forall P xs ->
    exists st', for_each body st xs = Ok st' /\ I (visited ++ xs) st'.
Proof.
  intros Hstep. induction xs as [|x xs IH]; intros visited st Hst Hxs; simpl.
  - exists st. by rewrite app_nil_r.
  - inversion Hxs as [|? ? Hx Hxs']; subst.
    destruct (Hstep visited st x Hst Hx) as (st1 & Hbody & Hst1).
    rewrite Hbody. simpl.
    destruct (IH (visited ++ [x]) st1 Hst1 Hxs') as (st' & Hrun & Hst').
    exists st'. split; [done |]. by rewrite <- app_assoc in Hst'.
Qed.

Lemma append_nonempty_r (a b : string) : b <> "" -> a +:+ b <> "".
Proof. destruct a; [done |]. by rewrite append_cons. Qed.

Lemma substring_zero (s : string) (n : nat) : substring n 0 s = "".
Proof. revert n. induction s as [|c s IH]; intros [|n]; simpl; auto. Qed.

(** The slices of [force_split_text] for a positive [max_length]. *)
Lemma force_split_text_slices (text : string) (max_length : Z) :
  0 < max_length ->
  force_split_text text max_length
  = Ok (map (fun k => substring (k * Z.to_nat max_length)
                        (Z.to_nat max_length) text)
          (seq 0 (Z.to_nat ((Py.len text + max_length - 1) / max_length)))).
Proof.
  intros Hpos. unfold force_split_text, Py.range.
  rewrite (proj2 (Z.eqb_neq max_length 0)) by lia.
  rewrite (proj2 (Z.ltb_lt 0 max_length)) by lia.
  simpl. f_equal. rewrite Z.sub_0_r, map_map.
  apply map_ext. intros k.
  rewrite slice_substring by lia. f_equal. lia.
Qed.

Lemma glue_substrings (s : string) (m c j : nat) :
  glue (map (fun k => substring (k * m) m s) (seq j c))
  = substring (j * m) (c * m) s.
Proof.
  revert j. induction c as [|c IH]; intros j; simpl.
  - by rewrite substring_zero.
  - unfold glue in IH |- *. simpl. rewrite IH.
    replace (S j * m)%nat with (j * m + m)%nat by lia.
    apply substring_adjacent.
Qed.

(** [force_split_text] with a positive [max_length] returns; its slices
    are not empty, have at most [max_length] characters, and put together
    give the text. *)
Lemma force_split_text_spec (text : string) (max_length : Z) :
  0 < max_length ->
  exists parts,
    force_split_text text max_length = Ok parts
    /\ Forall (fun p => p <> "" /\ Py.len p <= max_length) parts
    /\ glue parts = text.
Proof.
  intros Hpos. eexists. split; [by apply force_split_text_slices |].
  set (m := Z.to_nat max_length).
  set (c := Z.to_nat ((Py.len text + max_length - 1) / max_length)).
  assert (Hc : forall k, (k < c)%nat -> (k * m < String.length text)%nat).
  { intros k Hk. unfold c, m, Py.len in *.
    pose proof (Z.mul_div_le
                  (Z.of_nat (String.length text) + max_length - 1)
                  max_length Hpos).
    nia. }
  assert (Hall : (String.length text <= c * m)%nat).
  { unfold c, m, Py.len.
    pose proof (Z.mul_succ_div_gt
                  (Z.of_nat (String.length text) + max_length - 1)
                  max_length Hpos).
    pose proof (Z.div_pos (Z.of_nat (String.length text) + max_length - 1)
                  max_length).
    nia. }
  split.
  - apply Forall_map, Forall_forall. intros k Hk.
    apply elem_of_seq in Hk. simpl. split.
    + apply substring_nonempty; [apply Hc; lia | lia].
    + unfold Py.len. pose proof (length_substring text (k * m) m). lia.
  - rewrite glue_substrings. simpl. by apply substring_all.
Qed.

Lemma word_buffer_flush (words : list string) (max_length : Z)
    (current : string) :
  word_buffer words max_length current ->
  word_chunk words max_length (Py.strip current).
Proof.
  intros [Hink Hfit]. split.
  - by rewrite strip_empty.
  - destruct Hfit as [Hfit | [Hword Hspaceless]].
    + left. pose proof (len_strip current). lia.
    + right. by rewrite spaceless_strip.
Qed.

Lemma word_step_invariant (words : list string) (max_length : Z)
    (chunks : list string) (current word : string) :
  0 < max_length ->
  Forall (word_chunk words max_length) chunks ->
  current = "" \/ word_buffer words max_length current ->
  word ∈ words -> word <> "" -> spaceless word = true ->
  exists chunks' current',
    word_step max_length (chunks, current) word = Ok (chunks', current')
    /\ Forall (word_chunk words max_length) chunks'
    /\ (current' = "" \/ word_buffer words max_length current').
Proof.
  intros Hpos Hchunks Hcurrent Hin Hne Hspaceless. unfold word_step.
  assert (Hword_ink : ink word <> "") by by rewrite spaceless_ink.
  destruct (Py.len current + Py.len word + 1 >? max_length) eqn:Hlong.
  - destruct (Py.truthy current) eqn:Htruthy.
    + exists (chunks ++ [Py.strip current]), word. split; [done |].
      destruct Hcurrent as [-> | Hbuffer]; [done |]. split.
      * apply Forall_app. split; [done |].
        constructor; [by apply word_buffer_flush | constructor].
      * right. split; [done |]. by right.
    + apply truthy_false in Htruthy. subst current.
      destruct (Py.len word >? max_length) eqn:Hhuge.
      * destruct (force_split_text_spec word max_length Hpos)
          as (parts & -> & Hparts & _).
        exists (chunks ++ parts), "". split; [done |]. split; [| by left].
        apply Forall_app. split; [done |].
        eapply Forall_impl; [exact Hparts |].
        intros p [Hp Hlen]. split; [done | by left].
      * exists chunks, "". split; [done |]. split; [done | by left].
  - exists chunks, (Py.strip (current +:+ " " +:+ word)).
    split; [done |]. split; [done |]. right. split.
    + rewrite ink_strip, !ink_app. by apply append_nonempty_r, append_nonempty_r.
    + left. pose proof (len_strip (current +:+ " " +:+ word)).
      rewrite !len_app in H. change (Py.len " ") with 1 in H.
      rewrite Z.gtb_ltb in Hlong. apply Z.ltb_ge in Hlong. lia.
Qed.

(** The bound of C1, on the word level: for a positive [max_length],
    [chunk_by_words] returns, and each chunk is not empty and either fits
    in [max_length] or is one word of the text. *)
Theorem chunk_by_words_chunks (text : string) (max_length : Z) :
  0 < max_length ->
  exists chunks,
    chunk_by_words text max_length = Ok chunks
    /\ Forall (fun c => c <> ""
                        /\ (Py.len c <= max_length \/ c ∈ Py.split text))
         chunks.
Proof.
  intros Hpos. unfold chunk_by_words.
  set (words := Py.split text).
  destruct (for_each_invariant (word_step max_length)
              (fun _ st => Forall (word_chunk words max_length) st.1
                           /\ (st.2 = ""
                               \/ word_buffer words max_length st.2))
              (fun w => w ∈ words /\ w <> "" /\ spaceless w = true))
    with (xs := words) (visited := @nil string) (st := (@nil string, ""))
    as ([chunks current] & Hrun & Hchunks & Hcurrent).
  - intros _ [chunks current] word [Hchunks Hcurrent] (Hin & Hne & Hsp).
    destruct (word_step_invariant words max_length chunks current word)
      as (chunks' & current' & Hstep & H1 & H2); try done.
    by exists (chunks', current').
  - split; [constructor | by left].
  - apply Forall_forall. intros w Hw. split; [done |].
    pose proof (split_words text) as Hwords.
    rewrite Forall_forall in Hwords. by apply Hwords.
  - rewrite Hrun. simpl. eexists. split; [done |].
    simpl in Hchunks, Hcurrent.
    destruct (Py.truthy current) eqn:Htruthy; [| exact Hchunks].
    apply Forall_app. split; [exact Hchunks |].
    destruct Hcurrent as [-> | Hbuffer]; [done |].
    constructor; [by apply word_buffer_flush | constructor].
Qed.

Lemma text_step_invariant (max_length : Z) (chunks : list string)
    (current sentence : string) :
  0 < max_length ->
  Forall (fun c => c <> "") chunks ->
  current = "" \/ ink current <> "" ->
  exists chunks' current',
    text_step max_length (chunks, current) sentence = Ok (chunks', current')
    /\ Forall (fun c => c <> "") chunks'
    /\ (current' = "" \/ ink current' <> "").
Proof.
  intros Hpos Hchunks Hcurrent. unfold text_step.
  destruct (Py.truthy (Py.strip sentence)) eqn:Hsentence; simpl.
  2: { by exists chunks, current. }
  apply truthy_true in Hsentence. rewrite strip_empty in Hsentence.
  destruct (Py.len current + Py.len sentence + 1 >? max_length).
  - destruct (Py.truthy current) eqn:Htruthy.
    + exists (chunks ++ [Py.strip current]), sentence. split; [done |].
      destruct Hcurrent as [-> | Hink]; [done |]. split; [| by right].
      apply Forall_app. split; [done |].
      constructor; [by rewrite strip_empty | constructor].
    + destruct (chunk_by_words_chunks sentence max_length Hpos)
        as (parts & -> & Hparts).
      exists (chunks ++ parts), "". split; [done |]. split; [| by left].
      apply Forall_app. split; [done |].
      eapply Forall_impl; [exact Hparts |]. by intros p [Hp _].
  - exists chunks, (Py.strip (current +:+ " " +:+ sentence)).
    split; [done |]. split; [done |]. right.
    rewrite ink_strip, !ink_app. by apply append_nonempty_r, append_nonempty_r.
Qed.

(** The invariant of C9, away from whitespace-only texts: for a positive
    [max_length], [chunk_text] returns, and when the text holds a character
    that is not whitespace no chunk is empty. *)
Theorem chunk_text_chunks_nonempty (text : string) (max_length : Z) :
  0 < max_length ->
  exists chunks,
    chunk_text text max_length = Ok chunks
    /\ (Py.strip text <> "" -> Forall (fun c => c <> "") chunks).
Proof.
  intros Hpos. unfold chunk_text.
  destruct (Py.truthy text); simpl; [| by exists []].
  destruct (Py.len (Py.strip text) <=? max_length).
  { eexists. split; [done |]. intros Hink. by repeat constructor. }
  destruct (for_each_invariant (text_step max_length)
              (fun _ st => Forall (fun c => c <> "") st.1
                           /\ (st.2 = "" \/ ink st.2 <> ""))
              (fun _ => True))
    with (xs := split_sentences (Py.strip text)) (visited := @nil string)
         (st := (@nil string, ""))
    as ([chunks current] & Hrun & Hchunks & Hcurrent).
  - intros _ [chunks current] sentence [Hchunks Hcurrent] _.
    destruct (text_step_invariant max_length chunks current sentence)
      as (chunks' & current' & Hstep & H1 & H2); try done.
    by exists (chunks', current').
  - split; [constructor | by left].
  - by apply Forall_forall.
  - rewrite Hrun. simpl. eexists. split; [done |]. intros _.
    simpl in Hchunks, Hcurrent.
    destruct (Py.truthy current) eqn:Htruthy; [| exact Hchunks].
    apply Forall_app. split; [exact Hchunks |].
    destruct Hcurrent as [-> | Hink]; [done |].
    constructor; [by rewrite strip_empty | constructor].
Qed.

Lemma ink_ink (s : string) : ink (ink s) = ink s.
Proof.
  induction s as [|c s IH]; simpl; [done |].
  destruct (Py.isspace c) eqn:Hc; simpl; [done |]. by rewrite Hc, IH.
Qed.

Lemma glue_singleton (x : string) : glue [x] = x.
Proof. unfold glue. simpl. apply append_empty_r. Qed.

Lemma word_step_ink (max_length : Z) (visited chunks : list string)
    (current word : string) :
  0 < max_length ->
  Py.len word <> max_length ->
  ink (glue chunks +:+ current) = ink (glue visited) ->
  exists chunks' current',
    word_step max_length (chunks, current) word = Ok (chunks', current')
    /\ ink (glue chunks' +:+ current') = ink (glue (visited ++ [word])).
Proof.
  intros Hpos Hlen Hink. unfold word_step.
  rewrite (glue_app visited), glue_singleton, ink_app, <- Hink.
  destruct (Py.len current + Py.len word + 1 >? max_length) eqn:Hlong.
  - destruct (Py.truthy current) eqn:Htruthy.
    + exists (chunks ++ [Py.strip current]), word. split; [done |].
      by rewrite glue_app, glue_singleton, !ink_app, ink_strip.
    + apply truthy_false in Htruthy. subst current.
      destruct (Py.len word >? max_length) eqn:Hhuge.
      * destruct (force_split_text_spec word max_length Hpos)
          as (parts & -> & _ & Hglue).
        exists (chunks ++ parts), "". split; [done |].
        by rewrite glue_app, Hglue, !append_empty_r, ink_app.
      * rewrite Z.gtb_ltb in Hlong, Hhuge.
        apply Z.ltb_lt in Hlong. apply Z.ltb_ge in Hhuge.
        change (Py.len "") with 0 in Hlong. lia.
  - exists chunks, (Py.strip (current +:+ " " +:+ word)). split; [done |].
    rewrite !ink_app, ink_strip, !ink_app.
    change (ink " ") with "". by rewrite append_nil, append_assoc.
Qed.

(** The order preservation of C2, on the word level: for a positive
    [max_length] and a text none of whose words has exactly [max_length]
    characters, the chunks of [chunk_by_words] put together are the text,
    up to whitespace. *)
Theorem chunk_by_words_ink (text : string) (max_length : Z) :
  0 < max_length ->
  Forall (fun w => Py.len w <> max_length) (Py.split text) ->
  exists chunks,
    chunk_by_words text max_length = Ok chunks
    /\ ink (glue chunks) = ink text.
Proof.
  intros Hpos Hwords. unfold chunk_by_words.
  destruct (for_each_invariant (word_step max_length)
              (fun visited st =>
                 ink (glue st.1 +:+ st.2) = ink (glue visited))
              (fun w => Py.len w <> max_length))
    with (xs := Py.split text) (visited := @nil string)
         (st := (@nil string, ""))
    as ([chunks current] & Hrun & Hink).
  - intros visited [chunks current] word Hink Hlen.
    destruct (word_step_ink max_length visited chunks current word)
      as (chunks' & current' & Hstep & Hink'); try done.
    by exists (chunks', current').
  - done.
  - done.
  - rewrite Hrun. simpl. eexists. split; [done |].
    simpl in Hink. rewrite glue_split, ink_ink in Hink. rewrite <- Hink.
    destruct (Py.truthy current) eqn:Htruthy.
    + by rewrite glue_app, glue_singleton, !ink_app, ink_strip.
    + apply truthy_false in Htruthy. subst current. by rewrite append_empty_r.
Qed.

End ChunkingFacts.

Section SentenceFacts.
Import Chunking Props.

Lemma substring_skip (pre t : string) (k : nat) :
  substring (String.length pre) k (pre +:+ t) = substring 0 k t.
Proof. induction pre as [|c pre IH]; [done |]. rewrite append_cons. apply IH. Qed.

Lemma ink_leading_spaces (t : string) :
  ink (substring 0 (leading_spaces t) t) = "".
Proof.
  induction t as [|c t IH]; simpl; [done |].
  destruct (Py.isspace c) eqn:Hc; simpl; [| done]. by rewrite Hc.
Qed.

Lemma leading_spaces_length (t : string) :
  (leading_spaces t <= String.length t)%nat.
Proof.
  induction t as [|c t IH]; simpl; [done |]. destruct (Py.isspace c); lia.
Qed.

Lemma is_mark_not_space (c : ascii) : is_mark c = true -> Py.isspace c = false.
Proof.
  unfold is_mark, Py.isspace. intros H.
  repeat (apply orb_prop in H; destruct H as [H | H]);
    apply N.eqb_eq in H; by rewrite H.
Qed.

Lemma marks_from_weaken (text : string) (lo lo' : nat)
    (ms : list (nat * nat)) :
  (lo' <= lo)%nat -> marks_from text lo ms -> marks_from text lo' ms.
Proof.
  destruct ms as [|[p e] ms]; simpl; [done |].
  intros Hle (H1 & H2). split; [lia | done].
Qed.

Lemma finditer_marks_from (pre t : string) :
  marks_from (pre +:+ t) (String.length pre + leading_spaces t)
    (finditer_marks (String.length pre) t).
Proof.
  revert pre. induction t as [|c t IH]; intros pre; simpl; [done |].
  specialize (IH (pre +:+ String c "")).
  rewrite append_assoc, append_cons, append_nil, length_append in IH. simpl in IH.
  replace (String.length pre + 1)%nat with (S (String.length pre)) in IH
    by lia.
  destruct (is_mark c && (0 <? leading_spaces t)%nat) eqn:Hmatch; simpl.
  - apply andb_prop in Hmatch as [Hmark Hspaces].
    rewrite (is_mark_not_space c Hmark).
    pose proof (leading_spaces_length t) as Hlen.
    split; [lia |]. split; [lia |]. split.
    { rewrite length_append. simpl. lia. }
    split.
    + replace (String.length pre + 1 + leading_spaces t - S (String.length pre))%nat
        with (leading_spaces t) by lia.
      pose proof (substring_skip (pre +:+ String c "") t (leading_spaces t))
        as Hskip.
      rewrite append_assoc, append_cons, append_nil, length_append in Hskip.
      simpl in Hskip.
      replace (String.length pre + 1)%nat with (S (String.length pre))
        in Hskip by lia.
      rewrite Hskip. apply ink_leading_spaces.
    + replace (String.length pre + 1 + leading_spaces t)%nat
        with (S (String.length pre) + leading_spaces t)%nat by lia.
      exact IH.
  - destruct (Py.isspace c).
    + replace (String.length pre + S (leading_spaces t))%nat
        with (S (String.length pre) + leading_spaces t)%nat by lia.
      exact IH.
    + eapply marks_from_weaken; [| exact IH]. lia.
Qed.

Lemma ink_substring_adjacent (s : string) (n a b : nat) :
  ink (substring n a s) +:+ ink (substring (n + a) b s)
  = ink (substring n (a + b) s).
Proof. by rewrite <- ink_app, substring_adjacent. Qed.

Lemma ink_substring_prefix (s : string) (a b : nat) :
  ink (substring 0 a s) +:+ ink (substring a b s)
  = ink (substring 0 (a + b) s).
Proof. apply (ink_substring_adjacent s 0 a b). Qed.

(** One pass of the loop of [split_sentences] keeps what has been cut so
    far equal, up to whitespace, to the text before [start]. *)
Lemma sentence_step_ink (text : string) (sentences : list string)
    (start p e : nat) (ms : list (nat * nat)) :
  marks_from text start ((p, e) :: ms) ->
  ink (glue sentences) = ink (substring 0 start text) ->
  exists sentences' start',
    sentence_step text (sentences, Z.of_nat start) (p, e)
    = (sentences', Z.of_nat start')
    /\ marks_from text start' ms
    /\ (start' <= String.length text)%nat
    /\ ink (glue sentences') = ink (substring 0 start' text).
Proof.
  simpl. intros (Hlo & Hpe & He & Hspaces & Hms) Hink.
  unfold sentence_step. simpl.
  match goal with
  | |- context [if ?b then _ else _] => destruct b
  end.
  - exists sentences, start. split; [done |]. split; [| split; [lia | done]].
    eapply marks_from_weaken; [| exact Hms]. lia.
  - exists (sentences ++ [Py.strip (Py.slice text (Z.of_nat start)
                                     (Z.of_nat p + 1))]), e.
    split; [done |]. split; [done |]. split; [done |].
    rewrite glue_app, glue_singleton, ink_app, ink_strip, Hink.
    replace (Z.of_nat p + 1) with (Z.of_nat start + Z.of_nat (S p - start))
      by lia.
    rewrite slice_substring by lia. rewrite !Nat2Z.id.
    rewrite ink_substring_prefix.
    replace (start + (S p - start))%nat with (S p) by lia.
    rewrite <- (append_empty_r (ink (substring 0 (S p) text))), <- Hspaces.
    rewrite ink_substring_prefix.
    replace (S p + (e - S p))%nat with e by lia. done.
Qed.

Lemma sentence_loop_ink (text : string) (ms : list (nat * nat)) :
  forall (sentences : list string) (start : nat),
  marks_from text start ms ->
  (start <= String.length text)%nat ->
  ink (glue sentences) = ink (substring 0 start text) ->
  exists sentences' start',
    fold_left (sentence_step text) ms (sentences, Z.of_nat start)
    = (sentences', Z.of_nat start')
    /\ (start' <= String.length text)%nat
    /\ ink (glue sentences') = ink (substring 0 start' text).
Proof.
  induction ms as [|[p e] ms IH]; intros sentences start Hms Hstart Hink.
  - by exists sentences, start.
  - destruct (sentence_step_ink text sentences start p e ms Hms Hink)
      as (sentences1 & start1 & Hstep & Hms1 & Hstart1 & Hink1).
    cbn [fold_left]. rewrite Hstep. by apply IH.
Qed.

(** The sentences of a text, put together, are the text up to
    whitespace. *)
Theorem split_sentences_ink (text : string) :
  ink (glue (split_sentences text)) = ink text.
Proof.
  unfold split_sentences.
  destruct (sentence_loop_ink text (finditer_marks 0 text) [] 0)
    as (sentences & start & Hrun & Hstart & Hink).
  - generalize (finditer_marks_from "" text). rewrite append_nil. simpl.
    apply marks_from_weaken. lia.
  - lia.
  - by rewrite substring_zero.
  - change (Z.of_nat 0) with 0 in Hrun. rewrite Hrun.
    assert (Htail : ink (Py.strip (Py.slice_from text (Z.of_nat start)))
                    = ink (substring start (String.length text - start) text)).
    { rewrite ink_strip. unfold Py.slice_from, Py.len.
      replace (Z.of_nat (String.length text))
        with (Z.of_nat start + Z.of_nat (String.length text - start)) by lia.
      rewrite slice_substring by lia. by rewrite !Nat2Z.id. }
    assert (Hwhole : ink (substring 0 start text)
                     +:+ ink (substring start (String.length text - start) text)
                     = ink text).
    { rewrite ink_substring_prefix.
      rewrite substring_all; [done | lia]. }
    destruct (Py.truthy (Py.strip (Py.slice_from text (Z.of_nat start))))
      eqn:Htruthy.
    + by rewrite glue_app, glue_singleton, ink_app, Hink, Htail.
    + apply truthy_false in Htruthy. rewrite Htruthy in Htail.
      simpl in Htail. rewrite <- Htail, append_empty_r in Hwhole.
      by rewrite Hink.
Qed.

Lemma text_step_ink (max_length : Z) (visited chunks : list string)
    (current sentence : string) :
  0 < max_length ->
  Forall (fun w => Py.len w <> max_length) (Py.split sentence) ->
  ink (glue chunks +:+ current) = ink (glue visited) ->
  exists chunks' current',
    text_step max_length (chunks, current) sentence = Ok (chunks', current')
    /\ ink (glue chunks' +:+ current') = ink (glue (visited ++ [sentence])).
Proof.
  intros Hpos Hwords Hink. unfold text_step.
  rewrite (glue_app visited), glue_singleton, ink_app, <- Hink.
  destruct (Py.truthy (Py.strip sentence)) eqn:Hsentence; simpl.
  2: { exists chunks, current. split; [done |].
       apply truthy_false, strip_empty in Hsentence.
       by rewrite Hsentence, append_empty_r. }
  destruct (Py.len current + Py.len sentence + 1 >? max_length).
  - destruct (Py.truthy current) eqn:Htruthy.
    + exists (chunks ++ [Py.strip current]), sentence. split; [done |].
      by rewrite glue_app, glue_singleton, !ink_app, ink_strip.
    + apply truthy_false in Htruthy. subst current.
      destruct (chunk_by_words_ink sentence max_length Hpos Hwords)
        as (parts & -> & Hparts).
      exists (chunks ++ parts), "". split; [done |].
      by rewrite glue_app, !append_empty_r, ink_app, Hparts.
  - exists chunks, (Py.strip (current +:+ " " +:+ sentence)).
    split; [done |].
    rewrite !ink_app, ink_strip, !ink_app.
    change (ink " ") with "". by rewrite append_nil, append_assoc.
Qed.

(** The order preservation of C2, away from the words of exactly
    [max_length] characters: for a positive [max_length], when no word of a
    sentence of the text has exactly [max_length] characters, the chunks of
    [chunk_text] put together in their order are the text, up to
    whitespace. *)
Theorem chunk_text_ink (text : string) (max_length : Z) :
  0 < max_length ->
  Forall (fun sentence =>
            Forall (fun w => Py.len w <> max_length) (Py.split sentence))
    (split_sentences (Py.strip text)) ->
  exists chunks,
    chunk_text text max_length = Ok chunks
    /\ ink (glue chunks) = ink text.
Proof.
  intros Hpos Hwords. unfold chunk_text.
  destruct (Py.truthy text) eqn:Htext; simpl.
  2: { exists []. apply truthy_false in Htext. by subst text. }
  destruct (Py.len (Py.strip text) <=? max_length).
  { eexists. split; [done |]. by rewrite glue_singleton, ink_strip. }
  destruct (for_each_invariant (text_step max_length)
              (fun visited st =>
                 ink (glue st.1 +:+ st.2) = ink (glue visited))
              (fun sentence =>
                 Forall (fun w => Py.len w <> max_length) (Py.split sentence)))
    with (xs := split_sentences (Py.strip text)) (visited := @nil string)
         (st := (@nil string, ""))
    as ([chunks current] & Hrun & Hink).
  - intros visited [chunks current] sentence Hink Hsentence.
    destruct (text_step_ink max_length visited chunks current sentence)
      as (chunks' & current' & Hstep & Hink'); try done.
    by exists (chunks', current').
  - done.
  - done.
  - rewrite Hrun. simpl. eexists. split; [done |].
    simpl in Hink. rewrite split_sentences_ink, ink_strip in Hink.
    rewrite <- Hink.
    destruct (Py.truthy current) eqn:Htruthy.
    + by rewrite glue_app, glue_singleton, !ink_app, ink_strip.
    + apply truthy_false in Htruthy. subst current. by rewrite append_empty_r.
Qed.

End SentenceFacts.

Section SentenceBound.
Import Chunking Props.

Lemma text_step_bound (sentences : list string) (max_length : Z)
    (chunks : list string) (current sentence : string) :
  0 < max_length ->
  sentence ∈ sentences ->
  Forall (sentence_chunk sentences max_length) chunks ->
  current = "" \/ Py.len current <= max_length \/ current ∈ sentences ->
  exists chunks' current',
    text_step max_length (chunks, current) sentence = Ok (chunks', current')
    /\ Forall (sentence_chunk sentences max_length) chunks'
    /\ (current' = "" \/ Py.len current' <= max_length
        \/ current' ∈ sentences).
Proof.
  intros Hpos Hin Hchunks Hcurrent. unfold text_step.
  destruct (Py.truthy (Py.strip sentence)); simpl.
  2: { by exists chunks, current. }
  destruct (Py.len current + Py.len sentence + 1 >? max_length) eqn:Hlong.
  - destruct (Py.truthy current) eqn:Htruthy.
    + exists (chunks ++ [Py.strip current]), sentence. split; [done |].
      split; [| by right; right].
      apply Forall_app. split; [done |]. constructor; [| constructor].
      destruct Hcurrent as [-> | [Hfit | Hsentence]]; [done | |].
      * left. pose proof (len_strip current). lia.
      * right. exists current. split; [done | by right].
    + destruct (chunk_by_words_chunks sentence max_length Hpos)
        as (parts & -> & Hparts).
      exists (chunks ++ parts), "". split; [done |]. split; [| by left].
      apply Forall_app. split; [done |].
      eapply Forall_impl; [exact Hparts |].
      intros p [_ [Hfit | Hword]]; [by left |].
      right. exists sentence. split; [done | by left].
  - exists chunks, (Py.strip (current +:+ " " +:+ sentence)).
    split; [done |]. split; [done |]. right; left.
    pose proof (len_strip (current +:+ " " +:+ sentence)) as Hlen.
    rewrite !len_app in Hlen. change (Py.len " ") with 1 in Hlen.
    rewrite Z.gtb_ltb in Hlong. apply Z.ltb_ge in Hlong. lia.
Qed.

(** What the chunks of [chunk_text] are, for a positive [max_length]: each
    fits in [max_length], or is one word of a sentence of the text, or is a
    whole sentence of the text.  The last case is the one of the failing
    input of C1: a sentence that arrived on a buffer that was not empty. *)
Theorem chunk_text_chunks_bound (text : string) (max_length : Z) :
  0 < max_length ->
  exists chunks,
    chunk_text text max_length = Ok chunks
    /\ Forall (sentence_chunk (split_sentences (Py.strip text)) max_length)
         chunks.
Proof.
  intros Hpos. unfold chunk_text.
  destruct (Py.truthy text); simpl; [| by exists []].
  destruct (Py.len (Py.strip text) <=? max_length) eqn:Hshort.
  { eexists. split; [done |]. constructor; [| constructor].
    left. by apply Z.leb_le. }
  set (sentences := split_sentences (Py.strip text)).
  destruct (for_each_invariant (text_step max_length)
              (fun _ st => Forall (sentence_chunk sentences max_length) st.1
                           /\ (st.2 = "" \/ Py.len st.2 <= max_length
                               \/ st.2 ∈ sentences))
              (fun sentence => sentence ∈ sentences))
    with (xs := sentences) (visited := @nil string) (st := (@nil string, ""))
    as ([chunks current] & Hrun & Hchunks & Hcurrent).
  - intros _ [chunks current] sentence [Hchunks Hcurrent] Hin.
    destruct (text_step_bound sentences max_length chunks current sentence)
      as (chunks' & current' & Hstep & H1 & H2); try done.
    by exists (chunks', current').
  - split; [constructor | by left].
  - by apply Forall_forall.
  - rewrite Hrun. simpl. eexists. split; [done |].
    simpl in Hchunks, Hcurrent.
    destruct (Py.truthy current) eqn:Htruthy; [| exact Hchunks].
    apply Forall_app. split; [exact Hchunks |]. constructor; [| constructor].
    destruct Hcurrent as [-> | [Hfit | Hsentence]]; [done | |].
    + left. pose proof (len_strip current). lia.
    + right. exists current. split; [done | by right].
Qed.

End SentenceBound.

(** ** The claims on the chunker *)

Section ChunkingProperties.
Import Chunking Props.

(** C1, at a failing input: with [max_length = 10] the text
    "Hi. aaa bbb ccc ddd." comes back as two chunks, and the second one is
    the whole four-word sentence of 16 characters.  The buffer was not empty
    when the long sentence arrived, so the sentence became the new buffer
    and was flushed unsplit. *)
Theorem chunk_text_emits_long_sentence :
  chunk_text "Hi. aaa bbb ccc ddd." 10 = Ok ["Hi."; "aaa bbb ccc ddd."]
  /\ Py.len "aaa bbb ccc ddd." = 16
  /\ Py.split "aaa bbb ccc ddd." = ["aaa"; "bbb"; "ccc"; "ddd."].
Proof. repeat split; reflexivity. Qed.

(** C2, at a failing input: with [max_length = 5] the text "abcde fg" comes
    back as the single chunk "fg"; the word "abcde", whose length is exactly
    [max_length], is in no chunk. *)
Theorem chunk_text_loses_word :
  chunk_text "abcde fg" 5 = Ok ["fg"]
  /\ ink (glue ["fg"]) <> ink (Py.strip "abcde fg").
Proof. split; [reflexivity | discriminate]. Qed.

(** C5, as the claim states it, fails for the empty string: the result is
    the empty sequence, not the sequence holding the empty string. *)
Lemma chunk_text_empty_string :
  Py.len (Py.strip "") <= 5 /\ chunk_text "" 5 <> Ok [Py.strip ""].
Proof. split; [by vm_compute | discriminate]. Qed.

(** C5, amended: when the trimmed text fits in [max_length], the empty
    string gives the empty sequence and a text with a character that is not
    whitespace gives the sequence holding the trimmed text alone. *)
Theorem chunk_text_short (text : string) (max_length : Z) :
  Py.len (Py.strip text) <= max_length ->
  (text = "" -> chunk_text text max_length = Ok [])
  /\ (Py.strip text <> "" -> chunk_text text max_length = Ok [Py.strip text]).
Proof.
  intros Hfit; split.
  - intros ->. reflexivity.
  - intros Hink. unfold chunk_text.
    destruct text as [|c text']; [by destruct Hink |].
    cbn [Py.truthy negb].
    by rewrite (proj2 (Z.leb_le _ _) Hfit).
Qed.

Lemma chunk_text_short_witness :
  chunk_text "  Short text " 100 = Ok ["Short text"].
Proof.
  apply (chunk_text_short "  Short text " 100); [by vm_compute | discriminate].
Defined.

(** C6, as the claim states it, fails: the text has 29 characters, so with
    [max_length = 1000] it is returned whole. *)
Lemma chunk_text_dr_smith_not_split :
  chunk_text "Dr. Smith went home. He left." 1000
  <> Ok ["Dr. Smith went home."; "He left."].
Proof. discriminate. Qed.

(** C6, amended: with [max_length = 1000] the text is one chunk; the
    sentence splitter gives the two sentences, with no break after "Dr", and
    so does [chunk_text] once the text does not fit ([max_length = 20]). *)
Theorem chunk_text_dr_smith :
  chunk_text "Dr. Smith went home. He left." 1000
  = Ok ["Dr. Smith went home. He left."]
  /\ split_sentences "Dr. Smith went home. He left."
     = ["Dr. Smith went home."; "He left."]
  /\ chunk_text "Dr. Smith went home. He left." 20
     = Ok ["Dr. Smith went home."; "He left."].
Proof. repeat split; reflexivity. Qed.

(** C9, at a failing input: a text of three spaces is not empty, so the
    first test lets it through; trimmed, it is the empty string, which is
    returned as the only chunk. *)
Theorem chunk_text_whitespace_only :
  chunk_text "   " 5 = Ok [""].
Proof. reflexivity. Qed.

End ChunkingProperties.

(** ** The claim on the combiner *)

Section AudioProperties.
Import AudioUtils.

(** C10: a list of one buffer is combined into that buffer, whatever the
    format string and the codec backend are. *)
Theorem combine_audio_chunks_single (be : backend) (b : bytes) (f : string) :
  combine_audio_chunks be [b] f = Ok b.
Proof. reflexivity. Qed.

(** The format is looked at from two buffers on: a format outside the
    supported set is then refused, whatever the backend is. *)
Lemma combine_audio_chunks_unsupported (be : backend) (b1 b2 : bytes)
    (rest : list bytes) (f : string) :
  Py.mem (Py.lower f) SUPPORTED_FORMATS = false ->
  combine_audio_chunks be (b1 :: b2 :: rest) f
  = Raise (unsupported_format be f).
Proof. intros Hformat. unfold combine_audio_chunks. by rewrite Hformat. Qed.

(** Without pydub, or when pydub raises, several buffers in a supported
    format are joined byte for byte, in their order. *)
Lemma combine_audio_chunks_fallback (be : backend) (b1 b2 : bytes)
    (rest : list bytes) (f : string) :
  Py.mem (Py.lower f) SUPPORTED_FORMATS = true ->
  HAS_PYDUB be = false
  \/ (exists e, pydub_merge be (b1 :: b2 :: rest) (Py.lower f) = Raise e) ->
  combine_audio_chunks be (b1 :: b2 :: rest) f
  = Ok (b1 ++ b2 ++ concat rest).
Proof.
  intros Hformat Hfallback. unfold combine_audio_chunks. rewrite Hformat.
  cbn [negb]. destruct Hfallback as [-> | [e He]]; [done |].
  destruct (HAS_PYDUB be); [| done]. cbn [negb]. by rewrite He.
Qed.

End AudioProperties.

(** ** The claims on the service *)

Section ServiceProperties.
Import Chunking AudioUtils VoiceManager Service Props.

Variable settings : Settings.
Variable self : ElevenLabsTTSService.
Variable voices : gmap string voice_config.
Variable codec : backend.
Variable upstream : nat -> request -> outcome.

Lemma is_voice_available_lookup (voice_name : string) :
  is_voice_available voices voice_name = true <-> is_Some (voices !! voice_name).
Proof. unfold is_voice_available. by rewrite bool_decide_eq_true. Qed.

Lemma is_voice_available_None (voice_name : string) :
  voices !! voice_name = None -> is_voice_available voices voice_name = false.
Proof.
  intros H. unfold is_voice_available. apply bool_decide_eq_false.
  rewrite H. by intros [? ?].
Qed.

Lemma is_voice_available_Some (voice_name : string) (config : voice_config) :
  voices !! voice_name = Some config ->
  is_voice_available voices voice_name = true.
Proof. intros H. apply is_voice_available_lookup. by rewrite H. Qed.

(** The loop of [text_to_speech] appends one result per chunk: the list of
    results is empty exactly when the chunker returned no chunk. *)
Lemma process_chunks_length (voice model_id : string)
    (voice_settings : gmap string setting) (fmt : string) (total : Z)
    (chunks : list string) :
  forall (i : Z) (audio_chunks out : list (option bytes)) (w w' : world),
  process_chunks self upstream voice model_id voice_settings fmt total i
    chunks audio_chunks w = (Ok out, w') ->
  length out = (length audio_chunks + length chunks)%nat.
Proof.
  induction chunks as [|chunk chunks IH]; intros i audio_chunks out w w'.
  - simpl. intros [= <- <-]. lia.
  - cbn [process_chunks]. unfold mbind, M_bind.
    destruct (_generate_chunk _ _ _ _ _ _ _ _ w) as [[chunk_audio|e] w1];
      [| discriminate].
    destruct ((if i <? total then emit SleepChunkDelay else mret ()) w1)
      as [[[]|e] w2] eqn:Hsleep; [| discriminate].
    intros Hrun. apply IH in Hrun. rewrite length_app in Hrun. simpl in *. lia.
Qed.

(** C3, amended: when the voice name is not in the registry,
    [text_to_speech] raises the [ValidationException] "Voice '...' is not
    available", whose error kind is [INVALID_INPUT], and leaves the world as
    it was: no call of the provider, no sleep, no metric. *)
Theorem text_to_speech_unknown_voice
    (text voice_name news_id request_id : string) (chunk_size : option Z)
    (override : option (gmap string setting)) (output_format : option string)
    (w : world) :
  voices !! voice_name = None ->
  text_to_speech settings self voices codec upstream text voice_name news_id
    request_id chunk_size override output_format w
  = (Raise (ValidationException
              ("Voice '" +:+ voice_name +:+ "' is not available")), w)
  /\ exn_code (ValidationException
                 ("Voice '" +:+ voice_name +:+ "' is not available"))
     = Some INVALID_INPUT.
Proof.
  intros Hnone. split; [| reflexivity].
  unfold text_to_speech, try_except, text_to_speech_try.
  by rewrite (is_voice_available_None _ Hnone).
Qed.

(** Counting in traces. *)
Lemma posts_app (t1 t2 : list event) :
  posts (t1 ++ t2) = (posts t1 + posts t2)%nat.
Proof.
  induction t1 as [|e t1 IH]; [done |].
  destruct e; cbn; by rewrite ?IH.
Qed.

Lemma backoffs_app (t1 t2 : list event) :
  backoffs (t1 ++ t2) = (backoffs t1 + backoffs t2)%nat.
Proof.
  induction t1 as [|e t1 IH]; [done |].
  destruct e; cbn; by rewrite ?IH.
Qed.

Lemma retry_status_not_200 (status : Z) :
  retry_status status = true -> status <> 200.
Proof. intros H ->. discriminate H. Qed.

(** What one pass of the loop of [_generate_chunk] does on a response. *)
Lemma attempt_body_success (req : request) (chunk_index attempt : Z)
    (w : world) (r : Response) :
  upstream (calls w) req = Responds r ->
  status_code r = 200 ->
  attempt_body self upstream req chunk_index attempt w
  = (Ok (Return (content r)),
     mkWorld (S (calls w))
       (trace w ++ [Post req; RecordRequest (req_voice_id req) 200])).
Proof.
  intros Hup Hst.
  unfold attempt_body, try_except, post, mbind, M_bind, emit.
  rewrite Hup, Hst. cbn. by rewrite <- app_assoc.
Qed.

Lemma attempt_body_retry (req : request) (chunk_index attempt : Z)
    (w : world) (r : Response) :
  upstream (calls w) req = Responds r ->
  status_code r <> 200 ->
  retry_status (status_code r) = true ->
  attempt < max_retries self ->
  attempt_body self upstream req chunk_index attempt w
  = (Ok Continue,
     mkWorld (S (calls w))
       (trace w ++ [Post req; RecordRequest (req_voice_id req) (status_code r);
                    SleepBackoff (backoff_delay attempt (retry_after r))])).
Proof.
  intros Hup Hst Hretry Hlt.
  unfold attempt_body, try_except, post, mbind, M_bind, emit, _sleep_backoff,
    emit.
  rewrite Hup. cbn.
  rewrite (proj2 (Z.eqb_neq _ _) Hst), Hretry, (proj2 (Z.ltb_lt _ _) Hlt).
  cbn. by rewrite <- !app_assoc.
Qed.

Lemma attempt_body_give_up (req : request) (chunk_index attempt : Z)
    (w : world) (r : Response) :
  upstream (calls w) req = Responds r ->
  status_code r <> 200 ->
  retry_status (status_code r) = false \/ max_retries self <= attempt ->
  attempt_body self upstream req chunk_index attempt w
  = (Raise (ElevenLabsException (_extract_error r) (Some (status_code r))
              false),
     mkWorld (S (calls w))
       (trace w ++ [Post req; RecordRequest (req_voice_id req) (status_code r)])).
Proof.
  intros Hup Hst Hstop.
  unfold attempt_body, try_except, post, mbind, M_bind, emit.
  rewrite Hup. cbn.
  rewrite (proj2 (Z.eqb_neq _ _) Hst).
  assert (retry_status (status_code r) && (attempt <? max_retries self) = false)
    as ->.
  { destruct Hstop as [-> | Hge]; [done |].
    rewrite (proj2 (Z.ltb_ge _ _) Hge). apply andb_false_r. }
  cbn. by rewrite <- app_assoc.
Qed.

(** The loop of [_generate_chunk], one pass unfolded. *)
Lemma attempts_S (remaining : nat) (req : request) (chunk_index attempt : Z)
    (w : world) :
  attempts self upstream (S remaining) req chunk_index attempt w
  = match attempt_body self upstream req chunk_index attempt w with
    | (Ok (Return audio), w') => (Ok (Some audio), w')
    | (Ok Continue, w') =>
        attempts self upstream remaining req chunk_index (attempt + 1) w'
    | (Raise e, w') => (Raise e, w')
    end.
Proof.
  cbn [attempts]. unfold mbind, M_bind.
  by destruct (attempt_body self upstream req chunk_index attempt w)
    as [[[|audio]|e] w'].
Qed.

(** C4: with [max_retries = 3] and a provider that answers the next three
    calls with status 500, [_generate_chunk] raises an exception of kind
    [UPSTREAM_ERROR]; what it did before is three calls, each followed by
    its metric, and a backoff after the first and after the second call
    only. *)
Theorem generate_chunk_retry_exhaustion
    (chunk voice model_id : string) (voice_settings : gmap string setting)
    (fmt : string) (chunk_index : Z) (w : world) (r1 r2 r3 : Response) :
  let req := mkRequest voice chunk model_id voice_settings
               ("audio/" +:+ fmt) in
  max_retries self = 3 ->
  upstream (calls w) req = Responds r1 -> status_code r1 = 500 ->
  upstream (S (calls w)) req = Responds r2 -> status_code r2 = 500 ->
  upstream (S (S (calls w))) req = Responds r3 -> status_code r3 = 500 ->
  exists e w',
    _generate_chunk self upstream chunk voice model_id voice_settings fmt
      chunk_index w = (Raise e, w')
    /\ exn_code e = Some UPSTREAM_ERROR
    /\ trace w' = trace w ++
         [Post req; RecordRequest voice 500;
          SleepBackoff (backoff_delay 1 (retry_after r1));
          Post req; RecordRequest voice 500;
          SleepBackoff (backoff_delay 2 (retry_after r2));
          Post req; RecordRequest voice 500]
    /\ posts (trace w') = (posts (trace w) + 3)%nat
    /\ backoffs (trace w') = (backoffs (trace w) + 2)%nat.
Proof.
  intros req Hmax H1 S1 H2 S2 H3 S3.
  eexists _, _. split.
  - unfold _generate_chunk. rewrite Hmax. change (Z.to_nat 3) with 3%nat.
    fold req.
    rewrite attempts_S.
    erewrite attempt_body_retry;
      [| exact H1 | lia | by rewrite S1 | lia].
    rewrite attempts_S.
    erewrite attempt_body_retry;
      [| exact H2 | lia | by rewrite S2 | lia].
    rewrite attempts_S.
    erewrite attempt_body_give_up;
      [| exact H3 | lia | right; lia].
    reflexivity.
  - rewrite S1, S2, S3. cbn [trace].
    repeat split.
    + by rewrite <- !app_assoc.
    + rewrite !posts_app. cbn. lia.
    + rewrite !backoffs_app. cbn. lia.
Qed.

(** Retry exhaustion for any number of attempts: when the provider answers
    every one of the [n + 1] attempts that are left with a status of the
    retry set, every attempt is made, a backoff is slept after each attempt
    but the last, and the last response is raised as an
    [ElevenLabsException]. *)
Lemma attempts_exhausted (req : request) (chunk_index : Z) (n : nat) :
  forall (attempt : Z) (w : world),
  attempt + Z.of_nat n = max_retries self ->
  (forall k, (k <= n)%nat ->
     exists r, upstream (calls w + k)%nat req = Responds r
               /\ retry_status (status_code r) = true) ->
  exists r w',
    upstream (calls w + n)%nat req = Responds r
    /\ attempts self upstream (S n) req chunk_index attempt w
       = (Raise (ElevenLabsException (_extract_error r)
                   (Some (status_code r)) false), w')
    /\ calls w' = (calls w + S n)%nat
    /\ posts (trace w') = (posts (trace w) + S n)%nat
    /\ backoffs (trace w') = (backoffs (trace w) + n)%nat.
Proof.
  induction n as [|n IH]; intros attempt w Hlast Hup.
  - destruct (Hup 0%nat) as (r & Hr & Hretry); [lia |].
    rewrite Nat.add_0_r in Hr |- *.
    exists r; eexists. split; [exact Hr |]. split.
    + rewrite attempts_S.
      erewrite attempt_body_give_up;
        [reflexivity | exact Hr | by apply retry_status_not_200 | right; lia].
    + cbn [calls trace]. rewrite posts_app, backoffs_app. cbn. lia.
  - destruct (Hup 0%nat) as (r0 & Hr0 & Hretry0); [lia |].
    rewrite Nat.add_0_r in Hr0.
    set (w1 := mkWorld (S (calls w))
                 (trace w ++ [Post req;
                    RecordRequest (req_voice_id req) (status_code r0);
                    SleepBackoff (backoff_delay attempt (retry_after r0))])).
    destruct (IH (attempt + 1) w1) as (r & w' & Hr & Hrun & Hc & Hp & Hb).
    { lia. }
    { intros k Hk. destruct (Hup (S k)) as (rk & Hrk & Hretry); [lia |].
      exists rk. split; [| done].
      cbn [w1 calls].
      replace (S (calls w) + k)%nat with (calls w + S k)%nat by lia. exact Hrk. }
    exists r, w'. split.
    { cbn [w1 calls] in Hr.
      replace (calls w + S n)%nat with (S (calls w) + n)%nat by lia. exact Hr. }
    split.
    + rewrite attempts_S.
      erewrite attempt_body_retry;
        [| exact Hr0 | by apply retry_status_not_200 | done | lia].
      exact Hrun.
    + cbn [w1 calls trace] in Hc, Hp, Hb.
      rewrite posts_app in Hp. rewrite backoffs_app in Hb. cbn in Hp, Hb.
      lia.
Qed.

(** C7, amended: when the body of [text_to_speech] raises an exception that
    is neither a [ValidationException] nor an [ElevenLabsException],
    [text_to_speech] raises an upstream error ([UPSTREAM_ERROR]) whose
    message is "Unexpected error: " followed by the message of the original
    exception and whose retryable flag is false. *)
Theorem text_to_speech_wraps_unexpected
    (text voice_name news_id request_id : string) (chunk_size : option Z)
    (override : option (gmap string setting)) (output_format : option string)
    (w w' : world) (e : exn) :
  text_to_speech_try settings self voices codec upstream text voice_name
    (chunk_size_or_default settings chunk_size) override
    (or_else output_format (default_format self)) w = (Raise e, w') ->
  recognized e = false ->
  exists wrapped,
    text_to_speech settings self voices codec upstream text voice_name news_id
      request_id chunk_size override output_format w = (Raise wrapped, w')
    /\ exn_str wrapped = "Unexpected error: " +:+ exn_str e
    /\ exn_code wrapped = Some UPSTREAM_ERROR
    /\ exn_retryable wrapped = Some false.
Proof.
  intros Hbody Hunexpected.
  exists (ElevenLabsException ("Unexpected error: " +:+ exn_str e) None false).
  split; [| done].
  unfold text_to_speech, try_except. rewrite Hbody.
  unfold on_exception. by rewrite Hunexpected.
Qed.

(** A call of the provider that raises an exception the method does not
    catch: the exception leaves the loop after the one call. *)
Lemma attempt_body_crash (req : request) (chunk_index attempt : Z)
    (w : world) (e : exn) :
  upstream (calls w) req = Fails e ->
  (forall msg, e <> TimeoutException msg) ->
  (forall msg, e <> RequestError msg) ->
  attempt_body self upstream req chunk_index attempt w
  = (Raise e, mkWorld (S (calls w)) (trace w ++ [Post req])).
Proof.
  intros Hup Htimeout Hrequest.
  unfold attempt_body, try_except, post, mbind, M_bind.
  rewrite Hup.
  destruct e as [msg|msg|msg|msg|msg|t]; try reflexivity.
  - by destruct (Htimeout msg).
  - by destruct (Hrequest msg).
Qed.

(** The loop of [text_to_speech], one pass unfolded. *)
Lemma process_chunks_cons (voice model_id : string)
    (voice_settings : gmap string setting) (fmt : string) (total i : Z)
    (chunk : string) (chunks : list string)
    (audio_chunks : list (option bytes)) (w : world) :
  process_chunks self upstream voice model_id voice_settings fmt total i
    (chunk :: chunks) audio_chunks w
  = match _generate_chunk self upstream chunk voice model_id voice_settings
            fmt i w with
    | (Ok chunk_audio, w1) =>
        process_chunks self upstream voice model_id voice_settings fmt total
          (i + 1) chunks (audio_chunks ++ [chunk_audio])
          (if i <? total
           then mkWorld (calls w1) (trace w1 ++ [SleepChunkDelay]) else w1)
    | (Raise e, w1) => (Raise e, w1)
    end.
Proof.
  cbn [process_chunks]. unfold mbind, M_bind.
  destruct (_generate_chunk _ _ _ _ _ _ _ _ w) as [[chunk_audio|e] w1];
    [| done].
  by destruct (i <? total).
Qed.

(** The body of [text_to_speech] once the voice is found, the text is
    within the limit and the chunker has returned: the loop, then the test
    on the list of results, then the combiner and the metric. *)
Lemma text_to_speech_try_chunks (text voice_name : string) (chunk_size : Z)
    (override : option (gmap string setting)) (fmt : string) (w : world)
    (config : voice_config) (chunks : list string) :
  voices !! voice_name = Some config ->
  Py.len text <= max_text_length settings ->
  chunk_text text chunk_size = Ok chunks ->
  text_to_speech_try settings self voices codec upstream text voice_name
    chunk_size override fmt w
  = match process_chunks self upstream (voice_id config) (model config)
            (default ∅ override
             ∪ (VoiceManager.settings config ∪ default_settings))
            fmt (Z.of_nat (length chunks)) 1 chunks [] w with
    | (Ok [], w') =>
        (Raise (ElevenLabsException "No audio chunks were generated" None
                  false), w')
    | (Ok audio_chunks, w') =>
        match combine_results codec audio_chunks fmt with
        | Ok combined_audio =>
            (Ok combined_audio,
             mkWorld (calls w')
               (trace w' ++ [RecordGeneration voice_name (model config)
                               (Py.len text)
                               (Z.of_nat (length combined_audio)) fmt]))
        | Raise e => (Raise e, w')
        end
    | (Raise e, w') => (Raise e, w')
    end.
Proof.
  intros Hvoice Hlen Hchunks. unfold text_to_speech_try.
  rewrite (is_voice_available_Some _ _ Hvoice).
  unfold get_voice_id, get_voice_model, get_voice_settings, get_voice_config.
  rewrite Hvoice. cbn.
  assert ((Py.len text >? max_text_length settings) = false) as ->.
  { rewrite Z.gtb_ltb. apply Z.ltb_ge. lia. }
  rewrite Hchunks. unfold lift, mret, result_ret, mbind, M_bind.
  destruct (process_chunks _ _ _ _ _ _ _ _ _ _ w)
    as [[[|chunk_audio audio_chunks]|e] w']; [done | | done].
  by destruct (combine_results _ _ _).
Qed.

(** A text of one chunk whose call is answered with status 200: the body of
    the response is the audio, whatever it holds, an empty body included. *)
Lemma text_to_speech_single_chunk
    (text voice_name news_id request_id : string) (chunk_size : option Z)
    (override : option (gmap string setting)) (output_format : option string)
    (w : world) (config : voice_config) (chunk : string) (r : Response) :
  let fmt := or_else output_format (default_format self) in
  let req :=
    mkRequest (voice_id config) chunk (model config)
      (default ∅ override ∪ (VoiceManager.settings config ∪ default_settings))
      ("audio/" +:+ fmt) in
  voices !! voice_name = Some config ->
  Py.len text <= max_text_length settings ->
  chunk_text text (chunk_size_or_default settings chunk_size) = Ok [chunk] ->
  0 < max_retries self ->
  upstream (calls w) req = Responds r ->
  status_code r = 200 ->
  text_to_speech settings self voices codec upstream text voice_name news_id
    request_id chunk_size override output_format w
  = (Ok (content r),
     mkWorld (S (calls w))
       (trace w ++ [Post req; RecordRequest (voice_id config) 200;
                    RecordGeneration voice_name (model config) (Py.len text)
                      (Z.of_nat (length (content r))) fmt])).
Proof.
  intros fmt req Hvoice Hlen Hchunks Hretries Hup Hstatus.
  unfold text_to_speech, try_except. fold fmt.
  rewrite (text_to_speech_try_chunks _ _ _ _ _ _ config [chunk]) by done.
  rewrite process_chunks_cons. unfold _generate_chunk.
  destruct (Z.to_nat (max_retries self)) as [|n] eqn:Hn; [lia |].
  rewrite attempts_S. fold req.
  rewrite (attempt_body_success req 1 1 w r Hup Hstatus).
  cbn. change (1 <? Z.of_nat 1) with false. cbn. by rewrite <- app_assoc.
Qed.

(** A source of unexpected exceptions: when the call of the provider for
    the first chunk raises an exception that is not an httpx one, no retry
    is made and [text_to_speech] raises the wrapped error after that one
    call. *)
Lemma text_to_speech_provider_crash
    (text voice_name news_id request_id : string) (chunk_size : option Z)
    (override : option (gmap string setting)) (output_format : option string)
    (w : world) (config : voice_config) (chunk : string)
    (chunks : list string) (e : exn) :
  let req :=
    mkRequest (voice_id config) chunk (model config)
      (default ∅ override ∪ (VoiceManager.settings config ∪ default_settings))
      ("audio/" +:+ or_else output_format (default_format self)) in
  voices !! voice_name = Some config ->
  Py.len text <= max_text_length settings ->
  chunk_text text (chunk_size_or_default settings chunk_size)
  = Ok (chunk :: chunks) ->
  0 < max_retries self ->
  upstream (calls w) req = Fails e ->
  (forall msg, e <> TimeoutException msg) ->
  (forall msg, e <> RequestError msg) ->
  recognized e = false ->
  text_to_speech settings self voices codec upstream text voice_name news_id
    request_id chunk_size override output_format w
  = (Raise (ElevenLabsException ("Unexpected error: " +:+ exn_str e) None
              false),
     mkWorld (S (calls w)) (trace w ++ [Post req])).
Proof.
  intros req Hvoice Hlen Hchunks Hretries Hup Htimeout Hrequest Hunexpected.
  unfold text_to_speech, try_except.
  rewrite (text_to_speech_try_chunks _ _ _ _ _ _ config (chunk :: chunks))
    by done.
  rewrite process_chunks_cons. unfold _generate_chunk.
  destruct (Z.to_nat (max_retries self)) as [|n] eqn:Hn; [lia |].
  rewrite attempts_S. fold req.
  rewrite (attempt_body_crash req 1 1 w e Hup Htimeout Hrequest).
  unfold on_exception. by rewrite Hunexpected.
Qed.

(** The other [except] clause: a recognized exception leaves
    [text_to_speech] as it was raised. *)
Lemma text_to_speech_reraises
    (text voice_name news_id request_id : string) (chunk_size : option Z)
    (override : option (gmap string setting)) (output_format : option string)
    (w w' : world) (e : exn) :
  text_to_speech_try settings self voices codec upstream text voice_name
    (chunk_size_or_default settings chunk_size) override
    (or_else output_format (default_format self)) w = (Raise e, w') ->
  recognized e = true ->
  text_to_speech settings self voices codec upstream text voice_name news_id
    request_id chunk_size override output_format w = (Raise e, w').
Proof.
  intros Hbody Hrec.
  unfold text_to_speech, try_except. rewrite Hbody.
  unfold on_exception. by rewrite Hrec.
Qed.

(** Whatever [text_to_speech] raises is a [ValidationException] or an
    [ElevenLabsException]. *)
Lemma text_to_speech_raises_recognized
    (text voice_name news_id request_id : string) (chunk_size : option Z)
    (override : option (gmap string setting)) (output_format : option string)
    (w w' : world) (e : exn) :
  text_to_speech settings self voices codec upstream text voice_name news_id
    request_id chunk_size override output_format w = (Raise e, w') ->
  recognized e = true.
Proof.
  unfold text_to_speech, try_except.
  destruct (text_to_speech_try _ _ _ _ _ _ _ _ _ _ _) as [[a|e0] w0];
    [discriminate |].
  unfold on_exception.
  destruct (recognized e0) eqn:Hrec; unfold raise; intros [= <- <-]; done.
Qed.

(** C8, amended: for an available voice and a text within the length
    limit, when the chunker returns no chunk [text_to_speech] raises the
    upstream error "No audio chunks were generated" and calls nothing. *)
Theorem text_to_speech_no_chunks
    (text voice_name news_id request_id : string) (chunk_size : option Z)
    (override : option (gmap string setting)) (output_format : option string)
    (w : world) (config : voice_config) :
  voices !! voice_name = Some config ->
  Py.len text <= max_text_length settings ->
  chunk_text text (chunk_size_or_default settings chunk_size) = Ok [] ->
  text_to_speech settings self voices codec upstream text voice_name news_id
    request_id chunk_size override output_format w
  = (Raise (ElevenLabsException "No audio chunks were generated" None false),
     w)
  /\ exn_code (ElevenLabsException "No audio chunks were generated" None false)
     = Some UPSTREAM_ERROR.
Proof.
  intros Hvoice Hlen Hchunks. split; [| reflexivity].
  unfold text_to_speech, try_except, text_to_speech_try.
  rewrite (is_voice_available_Some _ _ Hvoice).
  unfold get_voice_id, get_voice_model, get_voice_settings, get_voice_config.
  rewrite Hvoice. cbn.
  assert ((Py.len text >? max_text_length settings) = false) as ->.
  { rewrite Z.gtb_ltb. apply Z.ltb_ge. lia. }
  by rewrite Hchunks.
Qed.

End ServiceProperties.

Section ServiceExamples.
Import Chunking AudioUtils VoiceManager Service Props.

(** C3, as the claim states it, fails: for a voice that is not in the
    registry the error kind is not [VOICE_NOT_FOUND]. *)
Lemma unknown_voice_is_invalid_input :
  Examples.voices !! "unknown_voice" = None
  /\ exists e w',
       text_to_speech Examples.settings Examples.service Examples.voices
         Examples.codec Examples.always_empty "hello" "unknown_voice" "n1" "r1"
         None None None Examples.start = (Raise e, w')
       /\ exn_code e = Some INVALID_INPUT
       /\ exn_code e <> Some VOICE_NOT_FOUND.
Proof.
  split; [by vm_compute |].
  eexists _, _. split; [by vm_compute |]. split; [done | discriminate].
Qed.

Lemma text_to_speech_unknown_voice_witness :
  text_to_speech Examples.settings Examples.service Examples.voices
    Examples.codec Examples.always_empty "hello" "unknown_voice" "n1" "r1"
    None None None Examples.start
  = (Raise (ValidationException "Voice 'unknown_voice' is not available"),
     Examples.start).
Proof.
  apply (text_to_speech_unknown_voice Examples.settings Examples.service
           Examples.voices Examples.codec Examples.always_empty
           "hello" "unknown_voice" "n1" "r1" None None None Examples.start).
  by vm_compute.
Defined.

Lemma generate_chunk_retry_exhaustion_witness :
  exists e w',
    _generate_chunk Examples.service Examples.always_500 "hello" "v1" "m1"
      ∅ "mp3" 1 Examples.start = (Raise e, w')
    /\ exn_code e = Some UPSTREAM_ERROR
    /\ posts (trace w') = 3%nat
    /\ backoffs (trace w') = 2%nat.
Proof.
  destruct (generate_chunk_retry_exhaustion Examples.service
              Examples.always_500 "hello" "v1" "m1" ∅ "mp3" 1 Examples.start
              (Examples.response 500 []) (Examples.response 500 [])
              (Examples.response 500 []))
    as (e & w' & Hrun & Hcode & _ & Hposts & Hsleeps);
    try reflexivity.
  exists e, w'. repeat split; assumption.
Defined.

(** C7, as the claim states it, fails: a provider call that raises an
    exception of an unknown class ends in a wrapped error whose retryable
    flag is not true. *)
Lemma unexpected_error_is_not_retryable :
  exists e w',
    text_to_speech Examples.settings Examples.service Examples.voices
      Examples.codec Examples.always_crashing "hello" "adam" "n1" "r1"
      None None None Examples.start = (Raise e, w')
    /\ exn_str e = "Unexpected error: boom"
    /\ exn_retryable e <> Some true.
Proof. eexists _, _. split; [by vm_compute |]. split; [done | discriminate]. Qed.

Lemma text_to_speech_wraps_unexpected_witness :
  exists wrapped w',
    text_to_speech Examples.settings Examples.service Examples.voices
      Examples.codec Examples.always_crashing "hello" "adam" "n1" "r1"
      None None None Examples.start = (Raise wrapped, w')
    /\ exn_str wrapped = "Unexpected error: boom"
    /\ exn_retryable wrapped = Some false.
Proof.
  destruct (text_to_speech_wraps_unexpected Examples.settings Examples.service
              Examples.voices Examples.codec Examples.always_crashing
              "hello" "adam" "n1" "r1" None None None Examples.start
              (mkWorld 1 [Post (mkRequest "pNInz6obpgDQGcFmaJgB" "hello"
                                  "eleven_flash_v2_5" default_settings
                                  "audio/mp3")])
              (OtherError "boom"))
    as (wrapped & Hrun & Hstr & _ & Hretry);
    [by vm_compute | reflexivity |].
  exists wrapped; eexists. repeat split; [exact Hrun | exact Hstr | exact Hretry].
Defined.

(** C8, as the claim states it, fails: when the provider answers the one
    call with status 200 and an empty body, [text_to_speech] returns the
    empty audio instead of raising. *)
Lemma empty_audio_is_returned :
  exists w',
    text_to_speech Examples.settings Examples.service Examples.voices
      Examples.codec Examples.always_empty "hello" "adam" "n1" "r1"
      None None None Examples.start = (Ok [], w')
    /\ posts (trace w') = 1%nat.
Proof. eexists. split; by vm_compute. Qed.

Lemma text_to_speech_no_chunks_witness :
  text_to_speech Examples.settings Examples.service Examples.voices
    Examples.codec Examples.always_empty "" "adam" "n1" "r1"
    None None None Examples.start
  = (Raise (ElevenLabsException "No audio chunks were generated" None false),
     Examples.start).
Proof.
  apply (text_to_speech_no_chunks Examples.settings Examples.service
           Examples.voices Examples.codec Examples.always_empty
           "" "adam" "n1" "r1" None None None Examples.start
           (mkVoice "pNInz6obpgDQGcFmaJgB" "eleven_flash_v2_5" ∅));
    by vm_compute.
Defined.

End ServiceExamples.

(** * Further properties *)

(** ** The chunker *)

Section MoreChunking.
Import Chunking Props.

Lemma length_substring_exact (s : string) (n m : nat) :
  (n + m <= String.length s)%nat -> String.length (substring n m s) = m.
Proof.
  revert n m. induction s as [|c s IH]; intros n m Hlen; simpl in *.
  - destruct n, m; simpl; lia.
  - destruct n as [|n]; [| apply IH; lia].
    destruct m as [|m]; simpl; [done |]. f_equal. apply (IH 0%nat). lia.
Qed.

(** [force_split_text] cuts a text into [ceil(len(text) / max_length)]
    slices: none is empty, all but the last have exactly [max_length]
    characters, the last has at most as many, and the slices put together
    are the text itself. *)
Theorem force_split_text_slicing (text : string) (max_length : Z) :
  0 < max_length ->
  exists parts,
    force_split_text text max_length = Ok parts
    /\ glue parts = text
    /\ Z.of_nat (length parts) = (Py.len text + max_length - 1) / max_length
    /\ Forall (fun p => p <> "" /\ Py.len p <= max_length) parts
    /\ forall k p, parts !! k = Some p -> (S k < length parts)%nat ->
         Py.len p = max_length.
Proof.
  intros Hpos.
  destruct (force_split_text_spec text max_length Hpos)
    as (parts & Hrun & Hparts & Hglue).
  exists parts. split; [done |]. split; [done |].
  rewrite force_split_text_slices in Hrun by done.
  injection Hrun as <-.
  set (m := Z.to_nat max_length) in *.
  set (c := Z.to_nat ((Py.len text + max_length - 1) / max_length)) in *.
  assert (Hdiv : 0 <= (Py.len text + max_length - 1) / max_length).
  { apply Z.div_pos; [| done]. pose proof (len_nonneg text). lia. }
  split; [| split; [done |]].
  - rewrite length_map, length_seq. unfold c. lia.
  - intros k p Hk Hlast.
    rewrite length_map, length_seq in Hlast.
    rewrite list_lookup_fmap in Hk.
    rewrite lookup_seq_lt in Hk by lia. simpl in Hk. injection Hk as <-.
    unfold Py.len. rewrite length_substring_exact; [unfold m; lia |].
    assert (Hk1 : (S k * m < String.length text)%nat).
    { unfold c, m, Py.len in *.
      pose proof (Z.mul_div_le
                    (Z.of_nat (String.length text) + max_length - 1)
                    max_length Hpos).
      nia. }
    lia.
Qed.

Lemma force_split_text_slicing_witness :
  exists parts,
    force_split_text "abcdefgh" 3 = Ok parts
    /\ glue parts = "abcdefgh"
    /\ Z.of_nat (length parts) = (Py.len "abcdefgh" + 3 - 1) / 3
    /\ Forall (fun p => p <> "" /\ Py.len p <= 3) parts
    /\ forall k p, parts !! k = Some p -> (S k < length parts)%nat ->
         Py.len p = 3.
Proof. apply (force_split_text_slicing "abcdefgh" 3). lia. Defined.

(** The error of a zero step. *)
Lemma force_split_text_zero (text : string) :
  force_split_text text 0
  = Raise (ValueError "range() arg 3 must not be zero").
Proof. reflexivity. Qed.

Lemma force_split_text_negative (text : string) (max_length : Z) :
  max_length < 0 -> force_split_text text max_length = Ok [].
Proof.
  intros Hneg. unfold force_split_text, Py.range.
  rewrite (proj2 (Z.eqb_neq max_length 0)) by lia.
  rewrite (proj2 (Z.ltb_ge 0 max_length)) by lia.
  assert ((0 - Py.len text - max_length - 1) / - max_length <= 0) as Hcount.
  { pose proof (len_nonneg text).
    destruct (Z.eq_dec (Py.len text) 0) as [Hz | Hnz].
    - rewrite Z.div_small; lia.
    - apply Z.lt_succ_r. apply Z.div_lt_upper_bound; lia. }
  by replace (Z.to_nat ((0 - Py.len text - max_length - 1) / - max_length))
    with 0%nat by lia.
Qed.

Lemma split_nonempty (s : string) : ink s <> "" -> Py.split s <> [].
Proof. intros Hink Hsplit. apply Hink. by rewrite <- glue_split, Hsplit. Qed.

Lemma chunk_by_words_zero (sentence : string) :
  ink sentence <> "" ->
  chunk_by_words sentence 0
  = Raise (ValueError "range() arg 3 must not be zero").
Proof.
  intros Hink. unfold chunk_by_words.
  pose proof (split_nonempty sentence Hink) as Hsplit.
  pose proof (split_words sentence) as Hwords.
  destruct (Py.split sentence) as [|word words]; [done |].
  inversion Hwords as [|? ? [Hne _] _]; subst.
  simpl. unfold word_step.
  assert (Hlen : 0 < Py.len word).
  { destruct word; [done |]. unfold Py.len. simpl. lia. }
  change (Py.len "") with 0.
  rewrite (proj2 (Z.gtb_lt (0 + Py.len word + 1) 0)) by lia.
  simpl. by rewrite (proj2 (Z.gtb_lt (Py.len word) 0)) by lia.
Qed.

Lemma text_loop_zero (sentences : list string) :
  ink (glue sentences) <> "" ->
  for_each (text_step 0) ([], "") sentences
  = Raise (ValueError "range() arg 3 must not be zero").
Proof.
  induction sentences as [|sentence sentences IH]; intros Hink; [done |].
  change (glue (sentence :: sentences))
    with (sentence +:+ glue sentences) in Hink.
  rewrite ink_app in Hink.
  simpl. unfold text_step.
  destruct (Py.truthy (Py.strip sentence)) eqn:Hsentence; simpl.
  - apply truthy_true in Hsentence. rewrite strip_empty in Hsentence.
    assert (Hlen : 0 < Py.len sentence).
    { destruct sentence; [done |]. unfold Py.len. simpl. lia. }
    change (Py.len "") with 0.
    rewrite (proj2 (Z.gtb_lt (0 + Py.len sentence + 1) 0)) by lia.
    simpl. by rewrite chunk_by_words_zero.
  - apply truthy_false, strip_empty in Hsentence.
    rewrite Hsentence, append_nil in Hink. by apply IH.
Qed.

(** With [max_length = 0] every text that holds a character other than
    whitespace makes [chunk_text] raise the [ValueError] of [range]: the
    first word reaches [force_split_text], whose step is zero. *)
Theorem chunk_text_zero_raises (text : string) :
  Py.strip text <> "" ->
  chunk_text text 0 = Raise (ValueError "range() arg 3 must not be zero").
Proof.
  intros Hink. unfold chunk_text.
  assert (Htext : Py.truthy text = true).
  { destruct text; [by destruct Hink | done]. }
  rewrite Htext. simpl.
  assert (Hlen : 0 < Py.len (Py.strip text)).
  { destruct (Py.strip text); [done |]. unfold Py.len. simpl. lia. }
  rewrite (proj2 (Z.leb_gt (Py.len (Py.strip text)) 0)) by lia.
  rewrite text_loop_zero; [done |].
  rewrite split_sentences_ink, ink_strip. by rewrite <- strip_empty.
Qed.

Lemma chunk_text_zero_raises_witness :
  chunk_text "Breaking news" 0
  = Raise (ValueError "range() arg 3 must not be zero").
Proof. apply (chunk_text_zero_raises "Breaking news"). discriminate. Defined.

Lemma word_loop_negative (max_length : Z) (words : list string) :
  max_length < 0 ->
  for_each (word_step max_length) ([], "") words = Ok ([], "").
Proof.
  intros Hneg. induction words as [|word words IH]; [done |].
  simpl. unfold word_step.
  pose proof (len_nonneg word). change (Py.len "") with 0.
  rewrite (proj2 (Z.gtb_lt (0 + Py.len word + 1) max_length)) by lia.
  simpl. rewrite (proj2 (Z.gtb_lt (Py.len word) max_length)) by lia.
  rewrite force_split_text_negative by done. simpl. exact IH.
Qed.

Lemma text_loop_negative (max_length : Z) (sentences : list string) :
  max_length < 0 ->
  for_each (text_step max_length) ([], "") sentences = Ok ([], "").
Proof.
  intros Hneg. induction sentences as [|sentence sentences IH]; [done |].
  simpl. unfold text_step.
  destruct (Py.truthy (Py.strip sentence)); simpl; [| exact IH].
  pose proof (len_nonneg sentence). change (Py.len "") with 0.
  rewrite (proj2 (Z.gtb_lt (0 + Py.len sentence + 1) max_length)) by lia.
  simpl. unfold chunk_by_words. rewrite word_loop_negative by done.
  simpl. exact IH.
Qed.

(** With a negative [max_length], [chunk_text] returns no chunk at all,
    whatever the text is: every word goes to [force_split_text], whose
    range is empty. *)
Theorem chunk_text_negative_empty (text : string) (max_length : Z) :
  max_length < 0 -> chunk_text text max_length = Ok [].
Proof.
  intros Hneg. unfold chunk_text.
  destruct (Py.truthy text); simpl; [| done].
  pose proof (len_nonneg (Py.strip text)).
  rewrite (proj2 (Z.leb_gt (Py.len (Py.strip text)) max_length)) by lia.
  by rewrite text_loop_negative.
Qed.

Lemma chunk_text_negative_empty_witness :
  chunk_text "Breaking news. More at ten." (-5) = Ok [].
Proof. apply (chunk_text_negative_empty _ (-5)). lia. Defined.

Lemma split_from_length (s word w : string) :
  w ∈ Py.split_from word s ->
  (String.length w <= String.length word + String.length s)%nat.
Proof.
  revert word. induction s as [|c s IH]; intros word; simpl.
  - destruct (Py.truthy word); [| by intros ?%elem_of_nil].
    intros ->%list_elem_of_singleton. lia.
  - destruct (Py.isspace c).
    + intros [Hw | Hw]%elem_of_app.
      * destruct (Py.truthy word); [| by apply elem_of_nil in Hw].
        apply list_elem_of_singleton in Hw as ->. lia.
      * apply IH in Hw. simpl in Hw. lia.
    + intros Hw%IH. rewrite length_append in Hw. simpl in Hw. lia.
Qed.

Lemma split_word_len (s w : string) : w ∈ Py.split s -> Py.len w <= Py.len s.
Proof.
  intros Hw%split_from_length. unfold Py.len. simpl in Hw. lia.
Qed.

(** The word-level splitter, for a positive [max_length]: it returns; no
    chunk is empty; a chunk longer than [max_length] is one word of the
    text, without whitespace in it. *)
Theorem chunk_by_words_bound (text : string) (max_length : Z) :
  0 < max_length ->
  exists chunks,
    chunk_by_words text max_length = Ok chunks
    /\ Forall (fun c => c <> "") chunks
    /\ Forall (fun c => max_length < Py.len c ->
                        c ∈ Py.split text /\ spaceless c = true) chunks.
Proof.
  intros Hpos.
  destruct (chunk_by_words_chunks text max_length Hpos)
    as (chunks & Hrun & Hchunks).
  exists chunks. split; [done |]. split.
  - eapply Forall_impl; [exact Hchunks |]. by intros c [Hc _].
  - eapply Forall_impl; [exact Hchunks |].
    intros c [_ [Hfit | Hword]] Hlong; [lia |]. split; [done |].
    pose proof (split_words text) as Hwords.
    rewrite Forall_forall in Hwords. by apply Hwords.
Qed.

Lemma chunk_by_words_bound_witness :
  exists chunks,
    chunk_by_words "ab abcdefgh cd" 5 = Ok chunks
    /\ Forall (fun c => c <> "") chunks
    /\ Forall (fun c => 5 < Py.len c ->
                        c ∈ Py.split "ab abcdefgh cd" /\ spaceless c = true)
         chunks.
Proof. apply (chunk_by_words_bound "ab abcdefgh cd" 5). lia. Defined.

(** The word-level splitter is right on texts whose words are all shorter
    than [max_length]: every chunk has at most [max_length] characters, and
    the chunks put together in their order are the text up to
    whitespace. *)
Theorem chunk_by_words_short_words (text : string) (max_length : Z) :
  0 < max_length ->
  Forall (fun w => Py.len w < max_length) (Py.split text) ->
  exists chunks,
    chunk_by_words text max_length = Ok chunks
    /\ Forall (fun c => c <> "" /\ Py.len c <= max_length) chunks
    /\ ink (glue chunks) = ink text.
Proof.
  intros Hpos Hshort.
  destruct (chunk_by_words_chunks text max_length Hpos)
    as (chunks & Hrun & Hchunks).
  destruct (chunk_by_words_ink text max_length Hpos)
    as (chunks' & Hrun' & Hink).
  { eapply Forall_impl; [exact Hshort |]. intros w Hw. simpl in Hw. lia. }
  rewrite Hrun in Hrun'. injection Hrun' as <-.
  exists chunks. split; [done |]. split; [| done].
  eapply Forall_impl; [exact Hchunks |].
  intros c [Hne [Hfit | Hword]]; [done |]. split; [done |].
  rewrite Forall_forall in Hshort. specialize (Hshort c Hword). simpl in Hshort.
  lia.
Qed.

Lemma chunk_by_words_short_words_witness :
  exists chunks,
    chunk_by_words "one two three four five" 9 = Ok chunks
    /\ Forall (fun c => c <> "" /\ Py.len c <= 9) chunks
    /\ ink (glue chunks) = ink "one two three four five".
Proof.
  apply (chunk_by_words_short_words "one two three four five" 9); [lia |].
  refine (bool_decide_unpack _ _). vm_compute. exact I.
Defined.

(** The bound of the chunker on texts whose sentences fit: when every
    sentence of the text has at most [max_length] characters, so has every
    chunk. *)
Theorem chunk_text_sentences_fit (text : string) (max_length : Z) :
  0 < max_length ->
  Forall (fun sentence => Py.len sentence <= max_length)
    (split_sentences (Py.strip text)) ->
  exists chunks,
    chunk_text text max_length = Ok chunks
    /\ Forall (fun c => Py.len c <= max_length) chunks.
Proof.
  intros Hpos Hfit.
  destruct (chunk_text_chunks_bound text max_length Hpos)
    as (chunks & Hrun & Hchunks).
  exists chunks. split; [done |].
  eapply Forall_impl; [exact Hchunks |].
  intros c [Hc | (sentence & Hin & Hc)]; [done |].
  rewrite Forall_forall in Hfit. specialize (Hfit sentence Hin).
  simpl in Hfit. destruct Hc as [Hword | ->].
  - apply split_word_len in Hword. lia.
  - pose proof (len_strip sentence). lia.
Qed.

Lemma chunk_text_sentences_fit_witness :
  exists chunks,
    chunk_text "This is a long sentence. This is a long sentence. Done." 30
    = Ok chunks
    /\ Forall (fun c => Py.len c <= 30) chunks.
Proof.
  apply (chunk_text_sentences_fit
           "This is a long sentence. This is a long sentence. Done." 30);
    [lia |].
  refine (bool_decide_unpack _ _). vm_compute. exact I.
Defined.

(** Trimming twice is trimming once. *)
Lemma rstrip_rstrip (s : string) : Py.rstrip (Py.rstrip s) = Py.rstrip s.
Proof.
  induction s as [|c s IH]; simpl; [done |].
  destruct (Py.isspace c && negb (Py.truthy (Py.rstrip s))) eqn:Hc; [done |].
  simpl. by rewrite IH, Hc.
Qed.

Lemma lstrip_rstrip_lstrip (s : string) :
  Py.lstrip (Py.rstrip (Py.lstrip s)) = Py.rstrip (Py.lstrip s).
Proof.
  induction s as [|c s IH]; simpl; [done |].
  destruct (Py.isspace c) eqn:Hc; [done |].
  simpl. rewrite Hc. simpl. by rewrite Hc.
Qed.

Lemma strip_strip (s : string) : Py.strip (Py.strip s) = Py.strip s.
Proof.
  unfold Py.strip. by rewrite lstrip_rstrip_lstrip, rstrip_rstrip.
Qed.

Lemma get_after_prefix (pre t : string) (c : ascii) :
  String.get (String.length pre) (pre +:+ String c t) = Some c.
Proof. induction pre as [|x pre IH]; [done |]. by rewrite append_cons. Qed.

Lemma finditer_marks_hold_marks (pre t : string) :
  Forall (fun m => exists c, String.get m.1 (pre +:+ t) = Some c
                             /\ is_mark c = true)
    (finditer_marks (String.length pre) t).
Proof.
  revert pre. induction t as [|c t IH]; intros pre; simpl; [constructor |].
  specialize (IH (pre +:+ String c "")).
  rewrite append_assoc, append_cons, append_nil, length_append in IH.
  simpl in IH.
  replace (String.length pre + 1)%nat with (S (String.length pre)) in IH
    by lia.
  apply Forall_app. split; [| exact IH].
  destruct (is_mark c && (0 <? leading_spaces t)%nat) eqn:Hmatch;
    [| constructor].
  apply andb_prop in Hmatch as [Hmark _].
  constructor; [| constructor]. exists c. split; [| done].
  apply get_after_prefix.
Qed.

Lemma substring_get (s : string) (p : nat) (c : ascii) :
  String.get p s = Some c -> substring p 1 s = String c "".
Proof.
  revert p. induction s as [|x s IH]; intros p; simpl; [done |].
  destruct p as [|p]; [| apply IH].
  intros [= ->]. by destruct s.
Qed.

Lemma ink_through_mark (text : string) (start p : nat) (c : ascii) :
  (start <= p)%nat ->
  String.get p text = Some c -> is_mark c = true ->
  ink (substring start (S p - start) text) <> "".
Proof.
  intros Hle Hget Hmark.
  replace (S p - start)%nat with ((p - start) + 1)%nat by lia.
  rewrite <- substring_adjacent, ink_app.
  replace (start + (p - start))%nat with p by lia.
  rewrite (substring_get text p c Hget). simpl.
  rewrite (is_mark_not_space c Hmark). by apply append_nonempty_r.
Qed.

Lemma sentence_loop_trimmed (text : string) (ms : list (nat * nat)) :
  forall (sentences : list string) (start : nat),
  marks_from text start ms ->
  Forall (fun m => exists c, String.get m.1 text = Some c
                             /\ is_mark c = true) ms ->
  Forall (fun s => s <> "" /\ Py.strip s = s) sentences ->
  Forall (fun s => s <> "" /\ Py.strip s = s)
    (fold_left (sentence_step text) ms (sentences, Z.of_nat start)).1.
Proof.
  induction ms as [|[p e] ms IH]; intros sentences start Hms Hmarks Hsent;
    [done |].
  inversion Hmarks as [|? ? (c & Hget & Hmark) Hmarks']; subst.
  destruct Hms as (Hlo & Hpe & He & Hspaces & Hms). simpl in Hget.
  cbn [fold_left]. unfold sentence_step at 2. cbn [fst snd].
  match goal with
  | |- context [if ?b then _ else _] => destruct b
  end.
  - apply IH; [| done | done].
    eapply marks_from_weaken; [| exact Hms]. lia.
  - apply IH; [done | done |].
    apply Forall_app. split; [done |]. constructor; [| constructor]. split.
    + rewrite strip_empty.
      replace (Z.of_nat p + 1) with (Z.of_nat start + Z.of_nat (S p - start))
        by lia.
      rewrite slice_substring by lia. rewrite !Nat2Z.id.
      by eapply ink_through_mark.
    + apply strip_strip.
Qed.

(** The sentences of [split_sentences]: none is empty, none starts or ends
    with whitespace, and put together in their order they are the text up
    to whitespace, so nothing but whitespace is dropped, doubled or
    moved. *)
Theorem split_sentences_spec (text : string) :
  Forall (fun s => s <> "" /\ Py.strip s = s) (split_sentences text)
  /\ ink (glue (split_sentences text)) = ink text.
Proof.
  split; [| apply split_sentences_ink].
  unfold split_sentences.
  pose proof (sentence_loop_trimmed text (finditer_marks 0 text) [] 0)
    as Hloop.
  change (Z.of_nat 0) with 0 in Hloop.
  destruct (fold_left (sentence_step text) (finditer_marks 0 text) ([], 0))
    as [sentences start].
  simpl in Hloop.
  assert (Hsentences : Forall (fun s => s <> "" /\ Py.strip s = s) sentences).
  { apply Hloop; [| | constructor].
    - generalize (finditer_marks_from "" text). rewrite append_nil. simpl.
      apply marks_from_weaken. lia.
    - apply (finditer_marks_hold_marks "" text). }
  destruct (Py.truthy (Py.strip (Py.slice_from text start))) eqn:Htail;
    [| done].
  apply Forall_app. split; [done |]. constructor; [| constructor].
  split; [by apply truthy_true | apply strip_strip].
Qed.

Lemma chunk_text_ink_witness :
  exists chunks,
    chunk_text "One two. Three four five. Six." 12 = Ok chunks
    /\ ink (glue chunks) = ink "One two. Three four five. Six.".
Proof.
  apply (chunk_text_ink "One two. Three four five. Six." 12); [lia |].
  refine (bool_decide_unpack _ _). vm_compute. exact I.
Defined.

End MoreChunking.

(** ** The validators of the text *)

Section TextValidation.
Import Chunking Request Props.

Lemma lstrip_app (x y : string) :
  Py.lstrip x <> "" -> Py.lstrip (x +:+ y) = Py.lstrip x +:+ y.
Proof.
  induction x as [|c x IH]; [done |]. rewrite append_cons. simpl.
  destruct (Py.isspace c); [exact IH | by rewrite append_cons].
Qed.

Lemma rstrip_app (x y : string) :
  Py.rstrip y <> "" -> Py.rstrip (x +:+ y) = x +:+ Py.rstrip y.
Proof.
  intros Hy. induction x as [|c x IH]; [done |].
  rewrite append_cons. simpl. rewrite IH.
  assert (Htail : Py.truthy (x +:+ Py.rstrip y) = true)
    by by apply truthy_true, append_nonempty_r.
  rewrite Htail, andb_false_r. by rewrite append_cons.
Qed.

(** A text that starts with a trimmed part and ends with a trimmed part is
    left as it is by [strip]. *)
Lemma strip_between (a m b : string) :
  a <> "" -> Py.lstrip a = a -> b <> "" -> Py.rstrip b = b ->
  Py.strip (a +:+ m +:+ b) = a +:+ m +:+ b.
Proof.
  intros Ha Hla Hb Hrb. unfold Py.strip.
  rewrite lstrip_app by by rewrite Hla. rewrite Hla.
  rewrite <- append_assoc, rstrip_app by by rewrite Hrb.
  by rewrite Hrb.
Qed.

Lemma lstrip_strip (v : string) : Py.lstrip (Py.strip v) = Py.strip v.
Proof. apply lstrip_rstrip_lstrip. Qed.

Lemma rstrip_strip (v : string) : Py.rstrip (Py.strip v) = Py.strip v.
Proof. apply rstrip_rstrip. Qed.

(** The text the route builds from a validated title and a validated body
    has no whitespace at its ends, so the chunker works on it as it is:
    for a positive limit no chunk is empty, and when the text fits the
    limit it is the only chunk. *)
Theorem request_text_chunks (title body title' body' : string)
    (max_length : Z) :
  validate_text_content title = Ok title' ->
  validate_text_content body = Ok body' ->
  0 < max_length ->
  Py.strip (full_text title' body') = full_text title' body'
  /\ exists chunks,
       chunk_text (full_text title' body') max_length = Ok chunks
       /\ Forall (fun c => c <> "") chunks
       /\ (Py.len (full_text title' body') <= max_length ->
           chunks = [full_text title' body']).
Proof.
  unfold validate_text_content. intros Htitle Hbody Hpos.
  destruct (Py.truthy (Py.strip title)) eqn:Ht; [| done].
  destruct (Py.truthy (Py.strip body)) eqn:Hb; [| done].
  simpl in Htitle, Hbody.
  injection Htitle as <-. injection Hbody as <-.
  apply truthy_true in Ht, Hb.
  assert (Hstrip : Py.strip (full_text (Py.strip title) (Py.strip body))
                   = full_text (Py.strip title) (Py.strip body)).
  { unfold full_text.
    apply strip_between;
      [done | apply lstrip_strip | done | apply rstrip_strip]. }
  split; [done |].
  destruct (chunk_text_chunks_nonempty
              (full_text (Py.strip title) (Py.strip body)) max_length Hpos)
    as (chunks & Hrun & Hchunks).
  exists chunks. split; [done |]. split.
  - apply Hchunks. rewrite Hstrip. unfold full_text.
    by apply append_nonempty_r, append_nonempty_r.
  - intros Hfit. unfold chunk_text in Hrun. rewrite Hstrip in Hrun.
    assert (Htext : Py.truthy (full_text (Py.strip title) (Py.strip body))
                    = true).
    { apply truthy_true. unfold full_text.
      by apply append_nonempty_r, append_nonempty_r. }
    rewrite Htext in Hrun. simpl in Hrun.
    rewrite (proj2 (Z.leb_le _ _) Hfit) in Hrun. by injection Hrun as <-.
Qed.

Lemma request_text_chunks_witness :
  Py.strip (full_text "Title" "The body of it.") = full_text "Title" "The body of it."
  /\ exists chunks,
       chunk_text (full_text "Title" "The body of it.") 10 = Ok chunks
       /\ Forall (fun c => c <> "") chunks
       /\ (Py.len (full_text "Title" "The body of it.") <= 10 ->
           chunks = [full_text "Title" "The body of it."]).
Proof.
  apply (request_text_chunks " Title" "The body of it.  "
           "Title" "The body of it." 10); [reflexivity | reflexivity | lia].
Defined.

(** A text [validate_text_for_tts] accepts has a character that is not
    whitespace and passed the ratio test; with the same limit the chunker
    returns it, trimmed, as the only chunk, and with any positive limit it
    returns no empty chunk. *)
Theorem validate_text_for_tts_chunks (special_ratio_ok : string -> bool)
    (text : string) (max_length : Z) :
  validate_text_for_tts special_ratio_ok text max_length = true ->
  special_ratio_ok text = true
  /\ Py.strip text <> ""
  /\ chunk_text text max_length = Ok [Py.strip text]
  /\ forall limit, 0 < limit ->
       exists chunks,
         chunk_text text limit = Ok chunks
         /\ Forall (fun c => c <> "") chunks.
Proof.
  unfold validate_text_for_tts. intros Hvalid.
  destruct (Py.truthy text) eqn:Htext; [| done].
  destruct (Py.truthy (Py.strip text)) eqn:Hstrip; [| done].
  simpl in Hvalid.
  destruct (Py.len text >? max_length) eqn:Hlen; [done |].
  apply truthy_true in Hstrip.
  split; [done |]. split; [done |]. split.
  - unfold chunk_text. rewrite Htext. simpl.
    pose proof (len_strip text).
    rewrite (proj2 (Z.leb_le _ _)); [done | lia].
  - intros limit Hlimit.
    destruct (chunk_text_chunks_nonempty text limit Hlimit)
      as (chunks & Hrun & Hchunks).
    exists chunks. split; [done |]. by apply Hchunks.
Qed.

Lemma validate_text_for_tts_chunks_witness :
  (fun _ : string => true) " Hello world. " = true
  /\ Py.strip " Hello world. " <> ""
  /\ chunk_text " Hello world. " 20 = Ok [Py.strip " Hello world. "]
  /\ forall limit, 0 < limit ->
       exists chunks,
         chunk_text " Hello world. " limit = Ok chunks
         /\ Forall (fun c => c <> "") chunks.
Proof.
  apply (validate_text_for_tts_chunks (fun _ => true) " Hello world. " 20).
  reflexivity.
Defined.

Lemma is_id_char_not_space (c : ascii) :
  is_id_char c = true -> Py.isspace c = false.
Proof. destruct c as [[] [] [] [] [] [] [] []]; by vm_compute. Qed.

Lemma all_id_chars_spaceless (s : string) :
  all_id_chars s = true -> spaceless s = true.
Proof.
  induction s as [|c s IH]; simpl; [done |].
  intros [Hc Hs]%andb_prop. by rewrite (is_id_char_not_space c Hc), IH.
Qed.

(** The string before a final newline is the string itself or the string
    without its last character, a newline. *)
Lemma before_final_newline_cases (s : string) :
  Chunking.before_final_newline s = s
  \/ s = Chunking.before_final_newline s +:+ String "010"%char "".
Proof.
  induction s as [|c s IH]; [by left |].
  destruct s as [|c' s'].
  - simpl. destruct (Py.code c =? 10)%N eqn:Hc; [| by left].
    right. apply N.eqb_eq in Hc. unfold Py.code in Hc.
    rewrite <- (ascii_N_embedding c), Hc. done.
  - change (Chunking.before_final_newline (String c (String c' s')))
      with (String c (Chunking.before_final_newline (String c' s'))).
    destruct IH as [-> | IH]; [by left |].
    right. rewrite append_cons. by rewrite <- IH.
Qed.

Lemma rstrip_newline (s : string) :
  spaceless s = true ->
  Py.rstrip (s +:+ String "010"%char "") = s.
Proof.
  induction s as [|c s IH]; [done |]. intros Hs. simpl in Hs.
  apply andb_prop in Hs as [Hc Hs]. rewrite append_cons. simpl.
  rewrite (IH Hs). apply negb_true_iff in Hc. by rewrite Hc.
Qed.

(** An identifier [validate_news_id] accepts: what is returned is not
    empty and made of letters, digits, underscores and hyphens only, and
    it is the input, or the input without the newline that ended it. *)
Theorem validate_news_id_accepted (v v' : string) :
  validate_news_id v = Ok v' ->
  is_id v' = true
  /\ (v = v' \/ v = v' +:+ String "010"%char "").
Proof.
  unfold validate_news_id.
  destruct (is_id (Chunking.before_final_newline v)) eqn:Hid; [| done].
  simpl. intros [= <-].
  pose proof Hid as Hid'. unfold is_id in Hid'.
  apply andb_prop in Hid' as [_ Hchars].
  apply all_id_chars_spaceless in Hchars as Hspaceless.
  destruct (before_final_newline_cases v) as [Hsame | Hnewline].
  - rewrite Hsame in Hid, Hspaceless.
    rewrite (spaceless_strip v Hspaceless). split; [done | by left].
  - assert (Hstrip : Py.strip v = Chunking.before_final_newline v).
    { rewrite Hnewline at 1. unfold Py.strip.
      rewrite lstrip_app.
      - rewrite (spaceless_lstrip _ Hspaceless).
        by apply rstrip_newline.
      - rewrite (spaceless_lstrip _ Hspaceless).
        unfold is_id in Hid. apply andb_prop in Hid as [Hid _].
        by apply truthy_true. }
    rewrite Hstrip. split; [done | by right].
Qed.

Lemma validate_news_id_accepted_witness :
  is_id "news_12345" = true
  /\ ("news_12345" +:+ String "010"%char "" = "news_12345"
      \/ "news_12345" +:+ String "010"%char ""
         = "news_12345" +:+ String "010"%char "").
Proof.
  apply (validate_news_id_accepted
           ("news_12345" +:+ String "010"%char "") "news_12345").
  reflexivity.
Defined.

End TextValidation.

(** ** The audio utilities *)

Section MoreAudio.
Import AudioUtils.

(** [combine_audio_chunks] raises in two cases only, each with a
    [ValueError]: on the empty list, and on two or more buffers with a
    format outside the supported set.  A failure of the codec never
    reaches the caller. *)
Theorem combine_audio_chunks_raises (be : backend)
    (audio_chunks : list bytes) (format : string) (e : exn) :
  combine_audio_chunks be audio_chunks format = Raise e <->
  (audio_chunks = [] /\ e = ValueError "No audio chunks provided")
  \/ ((2 <= length audio_chunks)%nat
      /\ Py.mem (Py.lower format) SUPPORTED_FORMATS = false
      /\ e = unsupported_format be format).
Proof.
  unfold combine_audio_chunks.
  destruct audio_chunks as [|b1 [|b2 rest]].
  - split; [intros [= <-]; by left |].
    intros [[_ ->] | [Hlen _]]; [done | simpl in Hlen; lia].
  - split; [done |]. intros [[? _] | [Hlen _]]; [done | simpl in Hlen; lia].
  - destruct (Py.mem (Py.lower format) SUPPORTED_FORMATS) eqn:Hformat;
      cbn [negb].
    + split.
      * destruct (HAS_PYDUB be); cbn [negb]; [| done].
        by destruct (pydub_merge be (b1 :: b2 :: rest) (Py.lower format)).
      * intros [[? _] | (_ & ? & _)]; done.
    + split.
      * intros [= <-]. right. split; [simpl; lia | done].
      * intros [[? _] | (_ & _ & ->)]; done.
Qed.

Lemma combine_audio_chunks_fallback_witness :
  combine_audio_chunks Examples.codec
    ([Byte.x01] :: [Byte.x02; Byte.x03] :: [[Byte.x04]]) "MP3"
  = Ok ([Byte.x01] ++ [Byte.x02; Byte.x03] ++ concat [[Byte.x04]]).
Proof.
  apply (combine_audio_chunks_fallback Examples.codec);
    [reflexivity | left; reflexivity].
Defined.

Lemma take_length_le {A : Type} (l k : list A) (n : nat) :
  take n l = k -> length k = n -> (n <= length l)%nat.
Proof. intros <- Hlen. rewrite length_take in Hlen. lia. Qed.

Lemma validate_audio_data_join (first : bytes) (rest : list bytes)
    (min_size max_size : Z) :
  validate_audio_data first min_size max_size = true ->
  size (join (first :: rest)) <= max_size ->
  validate_audio_data (join (first :: rest)) min_size max_size = true.
Proof.
  unfold join. change (concat (first :: rest)) with (first ++ concat rest).
  generalize (concat rest). intros tail.
  unfold validate_audio_data, size. intros Hfirst Hmax.
  destruct first as [|b first]; [done |].
  change ((b :: first) ++ tail) with (b :: (first ++ tail)) in Hmax |- *.
  cbv beta iota in Hfirst |- *.
  destruct ((min_size <=? Z.of_nat (length (b :: first)))
            && (Z.of_nat (length (b :: first)) <=? max_size)) eqn:Hsize;
    [| done].
  cbn [negb] in Hfirst.
  apply andb_prop in Hsize as [Hmin _]. apply Z.leb_le in Hmin.
  assert (Hlonger : Z.of_nat (length (b :: first))
                    <= Z.of_nat (length (b :: first ++ tail))).
  { cbn [length]. rewrite length_app. lia. }
  rewrite (proj2 (Z.leb_le min_size _)) by lia.
  rewrite (proj2 (Z.leb_le _ max_size)) by done.
  cbn [andb negb].
  destruct (bool_decide (take 3 (b :: first) = ID3)
            || bool_decide (take 2 (b :: first) ∈ frame_headers)) eqn:Hhead;
    [| done].
  change (b :: first ++ tail) with ((b :: first) ++ tail).
  apply orb_prop in Hhead as [Hid3 | Hframe].
  - apply bool_decide_eq_true in Hid3.
    rewrite (take_app_le _ _ 3) by by eapply take_length_le.
    by rewrite Hid3.
  - apply bool_decide_eq_true in Hframe.
    rewrite (take_app_le _ tail 2).
    + rewrite (bool_decide_eq_true_2 _ Hframe). by rewrite orb_true_r.
    + eapply take_length_le; [done |].
      unfold frame_headers in Hframe.
      repeat (apply elem_of_cons in Hframe as [-> | Hframe]; [done |]).
      by apply elem_of_nil in Hframe.
Qed.

(** Combining keeps a valid header: without pydub, when the first buffer
    passes [validate_audio_data], so does the combined audio in a
    supported format as long as it stays within the maximal size. *)
Theorem combine_audio_chunks_valid (be : backend) (first : bytes)
    (rest : list bytes) (format : string) (min_size max_size : Z) :
  HAS_PYDUB be = false ->
  Py.mem (Py.lower format) SUPPORTED_FORMATS = true ->
  validate_audio_data first min_size max_size = true ->
  exists combined,
    combine_audio_chunks be (first :: rest) format = Ok combined
    /\ (size combined <= max_size ->
        validate_audio_data combined min_size max_size = true).
Proof.
  intros Hpydub Hformat Hfirst.
  destruct rest as [|second rest]; [by exists first |].
  exists (join (first :: second :: rest)). split.
  - unfold combine_audio_chunks. by rewrite Hformat, Hpydub.
  - by apply validate_audio_data_join.
Qed.

Lemma combine_audio_chunks_valid_witness :
  exists combined,
    combine_audio_chunks Examples.codec
      ([Byte.xff; Byte.xfb; Byte.x00] :: [[Byte.x01]; [Byte.x02]]) "mp3"
    = Ok combined
    /\ (size combined <= 10 -> validate_audio_data combined 2 10 = true).
Proof.
  apply (combine_audio_chunks_valid Examples.codec
           [Byte.xff; Byte.xfb; Byte.x00] [[Byte.x01]; [Byte.x02]] "mp3" 2 10);
    reflexivity.
Defined.

(** Without pydub [convert_audio_format] never changes the data: it
    returns them as they are exactly when the target format is supported
    and equals the source format up to the case of the letters, and
    raises otherwise. *)
Theorem convert_audio_format_without_pydub (be : backend)
    (pydub_convert : bytes -> string -> string -> result bytes)
    (audio_data : bytes) (target_format source_format : string) :
  HAS_PYDUB be = false ->
  (convert_audio_format be pydub_convert audio_data target_format
     source_format = Ok audio_data
   <-> Py.mem (Py.lower target_format) SUPPORTED_FORMATS = true
       /\ Py.lower target_format = Py.lower source_format)
  /\ (forall converted,
        convert_audio_format be pydub_convert audio_data target_format
          source_format = Ok converted ->
        converted = audio_data).
Proof.
  intros Hpydub. unfold convert_audio_format. rewrite Hpydub.
  destruct (Py.mem (Py.lower target_format) SUPPORTED_FORMATS); cbn [negb].
  - destruct (String.eqb_spec (Py.lower target_format)
                (Py.lower source_format)) as [Heq | Hne].
    + split; [by split | by intros ? [= <-]].
    + split; [split; [done | by intros [_ ?]] | done].
  - split; [split; [done | by intros [? _]] | done].
Qed.

Lemma convert_audio_format_without_pydub_witness :
  (convert_audio_format Examples.codec (fun _ _ _ => Ok []) [Byte.x01]
     "MP3" "mp3" = Ok [Byte.x01]
   <-> Py.mem (Py.lower "MP3") SUPPORTED_FORMATS = true
       /\ Py.lower "MP3" = Py.lower "mp3")
  /\ (forall converted,
        convert_audio_format Examples.codec (fun _ _ _ => Ok []) [Byte.x01]
          "MP3" "mp3" = Ok converted ->
        converted = [Byte.x01]).
Proof.
  apply (convert_audio_format_without_pydub Examples.codec
           (fun _ _ _ => Ok []) [Byte.x01] "MP3" "mp3").
  reflexivity.
Defined.

(** Whatever the codec raises, [convert_audio_format] and
    [adjust_audio_quality] return bytes or raise a [ValueError]. *)
Theorem audio_conversions_raise_value_errors (be : backend)
    (pydub_convert : bytes -> string -> string -> result bytes)
    (pydub_adjust : bytes -> string -> Z -> result bytes)
    (audio_data : bytes) (target_format source_format bitrate : string)
    (sample_rate : Z) :
  ((exists converted,
      convert_audio_format be pydub_convert audio_data target_format
        source_format = Ok converted)
   \/ (exists msg,
         convert_audio_format be pydub_convert audio_data target_format
           source_format = Raise (ValueError msg)))
  /\ ((exists adjusted,
         adjust_audio_quality be pydub_adjust audio_data bitrate sample_rate
         = Ok adjusted)
      \/ (exists msg,
            adjust_audio_quality be pydub_adjust audio_data bitrate
              sample_rate = Raise (ValueError msg))).
Proof.
  unfold convert_audio_format, adjust_audio_quality. split.
  - destruct (Py.mem (Py.lower target_format) SUPPORTED_FORMATS);
      cbn [negb]; [| by right; eexists].
    destruct (HAS_PYDUB be); cbn [negb].
    + destruct (pydub_convert audio_data (Py.lower source_format)
                  (Py.lower target_format));
        [by left; eexists | by right; eexists].
    + destruct (String.eqb (Py.lower target_format)
                  (Py.lower source_format));
        [by left; eexists | by right; eexists].
  - destruct (HAS_PYDUB be); cbn [negb]; [| by left; eexists].
    destruct (pydub_adjust audio_data bitrate sample_rate);
      [by left; eexists | by right; eexists].
Qed.

End MoreAudio.

(** ** The error responses *)

Section MoreHandler.
Import ErrorHandler.

(** From the status of the provider to the status of the response: an
    [ElevenLabsException] built from an upstream status is answered with
    401, 403 or 429 when that is the upstream status, and with 503 for
    every other one; message and retry flag go through unchanged. *)
Theorem exception_handler_upstream_status (now request_id msg : string)
    (status : Z) (retry : bool) :
  let response :=
    exception_handler now request_id
      (Exn (ElevenLabsException msg (Some status) retry)) in
  http_status response
  = (if bool_decide (status ∈ [401; 403; 429]) then status else 503)
  /\ body_message response = msg
  /\ body_retryable response = retry
  /\ body_request_id response = request_id.
Proof.
  simpl. split; [| done].
  destruct (decide (status = 401)) as [-> | H401]; [done |].
  destruct (decide (status = 403)) as [-> | H403]; [done |].
  destruct (decide (status = 429)) as [-> | H429]; [done |].
  rewrite bool_decide_eq_false_2 by (set_unfold; lia).
  unfold ElevenLabsException, build_error_response. simpl.
  repeat match goal with
         | |- context [match ?z with _ => _ end] =>
             match type of z with
             | Z => destruct z
             | positive => destruct z
             end
         end; try done; lia.
Qed.

(** The status of an error response to an exception of the application:
    it is 400, 401, 403, 404, 429, 500 or 503, and it is 500 exactly when
    the exception is no [TTSException] or carries [INTERNAL_ERROR] or
    [TEXT_TOO_LONG], the code that has no entry in the map. *)
Theorem exception_handler_status (now request_id : string) (e : exn) :
  let response := exception_handler now request_id (Exn e) in
  http_status response ∈ [400; 401; 403; 404; 429; 500; 503]
  /\ (http_status response = 500
      <-> exn_code e = None \/ exn_code e = Some INTERNAL_ERROR
          \/ exn_code e = Some TEXT_TOO_LONG).
Proof.
  destruct e as [m | m | m | m | m | [c m code r]];
    [| | | | | destruct code]; simpl;
    (split;
     [set_solver
     | split;
       [intros H;
        first [discriminate H | by left | by right; left | by right; right]
       | intros [H | [H | H]]; first [discriminate H | reflexivity]]]).
Qed.

End MoreHandler.

(** ** The registry of voices *)

Section MoreVoices.
Import VoiceManager.

(** The settings of a voice: an entry of the voice wins over the default
    of the same key, and the four standard keys are always there. *)
Theorem get_voice_settings_precedence (voices : gmap string voice_config)
    (voice_name : string) (config : voice_config) :
  voices !! voice_name = Some config ->
  exists voice_settings,
    get_voice_settings voices voice_name = Ok voice_settings
    /\ (forall key,
          voice_settings !! key
          = match settings config !! key with
            | Some value => Some value
            | None => default_settings !! key
            end)
    /\ Forall (fun key => is_Some (voice_settings !! key))
         ["stability"; "similarity_boost"; "style"; "use_speaker_boost"].
Proof.
  intros Hconfig. unfold get_voice_settings, get_voice_config.
  rewrite Hconfig. simpl. eexists. split; [done |].
  assert (Hkey : forall key,
            (settings config ∪ default_settings) !! key
            = match settings config !! key with
              | Some value => Some value
              | None => default_settings !! key
              end).
  { intros key. rewrite lookup_union.
    destruct (settings config !! key), (default_settings !! key); done. }
  split; [done |].
  repeat constructor; rewrite Hkey; by destruct (settings config !! _).
Qed.

Lemma get_voice_settings_precedence_witness :
  exists voice_settings,
    get_voice_settings Examples.voices "adam" = Ok voice_settings
    /\ (forall key,
          voice_settings !! key
          = match settings (mkVoice "pNInz6obpgDQGcFmaJgB"
                              "eleven_flash_v2_5" ∅) !! key with
            | Some value => Some value
            | None => default_settings !! key
            end)
    /\ Forall (fun key => is_Some (voice_settings !! key))
         ["stability"; "similarity_boost"; "style"; "use_speaker_boost"].
Proof.
  apply (get_voice_settings_precedence Examples.voices "adam"). reflexivity.
Defined.

(** A voice that has been added is available with the given id, model and
    settings (the standard ones when none are given), and the other
    voices are as before. *)
Theorem add_voice_registers (voices voices' : gmap string voice_config)
    (validation_error name : string) (kw : voice_kwargs) :
  add_voice voices validation_error name kw = Ok voices' ->
  is_voice_available voices' name = true
  /\ (Ok <$> kw_voice_id kw) = Some (get_voice_id voices' name)
  /\ (Ok <$> kw_model kw) = Some (get_voice_model voices' name)
  /\ get_voice_settings voices' name
     = Ok (default default_settings (kw_settings kw) ∪ default_settings)
  /\ forall other, other <> name ->
       get_voice_config voices' other = get_voice_config voices other.
Proof.
  unfold add_voice. intros Hadd.
  destruct (kw_voice_id kw) as [voice|]; [| done].
  destruct (kw_model kw) as [model_name|]; [| done].
  destruct (kw_description kw); [| done]. injection Hadd as <-.
  unfold is_voice_available, get_voice_id, get_voice_model,
    get_voice_settings, get_voice_config.
  rewrite lookup_insert_eq. simpl.
  do 4 (split; [done |]).
  intros other Hother. by rewrite lookup_insert_ne.
Qed.

Lemma add_voice_registers_witness :
  let kw := mkKwargs (Some "id1") (Some "eleven_v3") (Some "A voice") None
              None in
  let voices' :=
    <["eve" := mkVoice "id1" "eleven_v3" default_settings]> Examples.voices in
  is_voice_available voices' "eve" = true
  /\ (Ok <$> kw_voice_id kw) = Some (get_voice_id voices' "eve")
  /\ (Ok <$> kw_model kw) = Some (get_voice_model voices' "eve")
  /\ get_voice_settings voices' "eve"
     = Ok (default default_settings (kw_settings kw) ∪ default_settings)
  /\ forall other, other <> "eve" ->
       get_voice_config voices' other
       = get_voice_config Examples.voices other.
Proof.
  apply (add_voice_registers Examples.voices _ "invalid" "eve"
           (mkKwargs (Some "id1") (Some "eleven_v3") (Some "A voice") None
              None)).
  reflexivity.
Defined.

(** Removing a voice: it succeeds only for a voice that is there; the
    voice is not available afterwards, asking for it raises
    [VoiceNotFoundException] with code [VOICE_NOT_FOUND], and the other
    voices are as before. *)
Theorem remove_voice_unregisters (voices voices' : gmap string voice_config)
    (name : string) :
  remove_voice voices name = Ok voices' ->
  is_voice_available voices name = true
  /\ is_voice_available voices' name = false
  /\ get_voice_config voices' name = Raise (VoiceNotFoundException name)
  /\ exn_code (VoiceNotFoundException name) = Some VOICE_NOT_FOUND
  /\ forall other, other <> name ->
       get_voice_config voices' other = get_voice_config voices other.
Proof.
  unfold remove_voice, is_voice_available, get_voice_config.
  destruct (voices !! name) as [config|] eqn:Hconfig; [| done].
  intros [= <-]. rewrite lookup_delete_eq.
  split; [by apply bool_decide_eq_true |].
  split; [apply bool_decide_eq_false; by intros [? ?] |].
  do 2 (split; [done |]).
  intros other Hother. by rewrite lookup_delete_ne.
Qed.

Lemma remove_voice_unregisters_witness :
  is_voice_available Examples.voices "sarah" = true
  /\ is_voice_available (delete "sarah" Examples.voices) "sarah" = false
  /\ get_voice_config (delete "sarah" Examples.voices) "sarah"
     = Raise (VoiceNotFoundException "sarah")
  /\ exn_code (VoiceNotFoundException "sarah") = Some VOICE_NOT_FOUND
  /\ forall other, other <> "sarah" ->
       get_voice_config (delete "sarah" Examples.voices) other
       = get_voice_config Examples.voices other.
Proof.
  apply (remove_voice_unregisters Examples.voices
           (delete "sarah" Examples.voices) "sarah").
  reflexivity.
Defined.

(** Adding a voice to a registry that does not have it and removing it
    again gives the registry back; removing a voice that is not there
    raises [VoiceNotFoundException]. *)
Theorem remove_voice_undoes_add_voice
    (voices voices' : gmap string voice_config)
    (validation_error name : string) (kw : voice_kwargs) :
  voices !! name = None ->
  add_voice voices validation_error name kw = Ok voices' ->
  remove_voice voices name = Raise (VoiceNotFoundException name)
  /\ remove_voice voices' name = Ok voices.
Proof.
  unfold remove_voice, add_voice. intros Hnone Hadd. rewrite Hnone.
  split; [done |].
  destruct (kw_voice_id kw); [| done].
  destruct (kw_model kw); [| done].
  destruct (kw_description kw); [| done]. injection Hadd as <-.
  rewrite lookup_insert_eq. by rewrite delete_insert_id.
Qed.

Lemma remove_voice_undoes_add_voice_witness :
  remove_voice Examples.voices "eve" = Raise (VoiceNotFoundException "eve")
  /\ remove_voice
       (<["eve" := mkVoice "id1" "eleven_v3" default_settings]>
          Examples.voices) "eve"
     = Ok Examples.voices.
Proof.
  apply (remove_voice_undoes_add_voice Examples.voices _ "invalid" "eve"
           (mkKwargs (Some "id1") (Some "eleven_v3") (Some "A voice") None
              None));
    reflexivity.
Defined.

End MoreVoices.

(** ** The service: attempts, chunks and errors *)

Section MoreService.
Import Chunking AudioUtils VoiceManager Service Props.

Variable settings : Settings.
Variable self : ElevenLabsTTSService.
Variable voices : gmap string voice_config.
Variable codec : backend.
Variable upstream : nat -> request -> outcome.

Lemma requests_app (t1 t2 : list event) :
  requests (t1 ++ t2) = requests t1 ++ requests t2.
Proof.
  induction t1 as [|ev t1 IH]; [done |].
  destruct ev; simpl; by rewrite IH.
Qed.

Lemma chunk_delays_app (t1 t2 : list event) :
  chunk_delays (t1 ++ t2) = (chunk_delays t1 + chunk_delays t2)%nat.
Proof.
  induction t1 as [|ev t1 IH]; [done |].
  destruct ev; simpl; by rewrite IH.
Qed.

Lemma posts_requests (t : list event) : posts t = length (requests t).
Proof.
  induction t as [|ev t IH]; [done |]. destruct ev; simpl; by rewrite IH.
Qed.

(** The error code the constructor of [ElevenLabsException] gives to a
    status. *)
Lemma ElevenLabsException_code (msg : string) (status : Z) (retry : bool) :
  exn_code (ElevenLabsException msg (Some status) retry)
  = Some (if status =? 401 then AUTH_ERROR
          else if status =? 403 then FORBIDDEN
          else if status =? 429 then UPSTREAM_RATE_LIMIT
          else UPSTREAM_ERROR).
Proof.
  destruct (Z.eqb_spec status 401) as [-> | H401]; [done |].
  destruct (Z.eqb_spec status 403) as [-> | H403]; [done |].
  destruct (Z.eqb_spec status 429) as [-> | H429]; [done |].
  unfold ElevenLabsException, exn_code. simpl. f_equal.
  repeat match goal with
         | |- context [match ?z with _ => _ end] =>
             match type of z with
             | Z => destruct z
             | positive => destruct z
             end
         end; try done; lia.
Qed.

(** One attempt on an outcome of the retry set: a new attempt after a
    backoff when attempts are left, the error of the outcome otherwise. *)
Lemma attempt_body_retried (req : request) (chunk_index attempt : Z)
    (w : world) :
  retried (upstream (calls w) req) ->
  exists events,
    requests events = [] /\ chunk_delays events = 0%nat
    /\ backoffs events = 0%nat
    /\ attempt_body self upstream req chunk_index attempt w
       = if attempt <? max_retries self
         then (Ok Continue,
               mkWorld (S (calls w))
                 (trace w ++ Post req :: events
                  ++ [SleepBackoff
                        (backoff_delay attempt
                           match upstream (calls w) req with
                           | Responds r => retry_after r
                           | Fails _ => None
                           end)]))
         else (Raise (exhausted_error chunk_index (upstream (calls w) req)),
               mkWorld (S (calls w)) (trace w ++ Post req :: events)).
Proof.
  intros Hretried.
  destruct (upstream (calls w) req) as [r | e] eqn:Hup; simpl in Hretried.
  - exists [RecordRequest (req_voice_id req) (status_code r)].
    do 3 (split; [done |]).
    pose proof (retry_status_not_200 _ Hretried) as H200.
    destruct (Z.ltb_spec attempt (max_retries self)) as [Hlt | Hge].
    + by rewrite (attempt_body_retry self upstream req chunk_index attempt w r).
    + rewrite (attempt_body_give_up self upstream req chunk_index attempt w r);
        [done | done | done | by right].
  - exists []. do 3 (split; [done |]).
    unfold attempt_body, try_except, post, mbind, M_bind.
    rewrite Hup.
    destruct e as [msg|msg|msg|msg|msg|t]; try done;
      destruct (attempt <? max_retries self); cbn;
      by rewrite <- ?app_assoc.
Qed.

(** One attempt, whatever the provider does: one call, no sleep between
    chunks, and a backoff exactly when a new attempt follows. *)
Lemma attempt_body_cases (req : request) (chunk_index attempt : Z)
    (w : world) :
  exists result events,
    attempt_body self upstream req chunk_index attempt w
    = (result, mkWorld (S (calls w)) (trace w ++ Post req :: events))
    /\ requests events = [] /\ chunk_delays events = 0%nat
    /\ match result with
       | Ok Continue =>
           backoffs events = 1%nat /\ attempt < max_retries self
       | Ok (Return audio) =>
           backoffs events = 0%nat
           /\ exists r, upstream (calls w) req = Responds r
                        /\ status_code r = 200 /\ audio = content r
       | Raise e =>
           backoffs events = 0%nat
           /\ (constructed e \/ upstream (calls w) req = Fails e)
       end.
Proof.
  destruct (upstream (calls w) req) as [r | e] eqn:Hup.
  - destruct (decide (status_code r = 200)) as [H200 | H200].
    { rewrite (attempt_body_success self upstream req chunk_index attempt w r)
        by done.
      eexists _, _. split; [done |]. do 3 (split; [done |]). by exists r. }
    destruct (retry_status (status_code r)) eqn:Hretry.
    + destruct (attempt_body_retried req chunk_index attempt w)
        as (events & Hreq & Hdelay & Hback & Hbody);
        [by rewrite Hup |].
      rewrite Hbody.
      destruct (Z.ltb_spec attempt (max_retries self)) as [Hlt | Hge].
      * eexists _, _. split; [done |].
        rewrite requests_app, chunk_delays_app, backoffs_app, Hreq, Hdelay,
          Hback.
        by repeat split.
      * eexists _, _. split; [done |]. do 3 (split; [done |]).
        left. right. rewrite Hup. simpl. by eexists _, _, _.
    + rewrite (attempt_body_give_up self upstream req chunk_index attempt w r);
        [| done | done | by left].
      eexists _, _. split; [done |]. do 3 (split; [done |]).
      left. right. by eexists _, _, _.
  - assert (Hdec : retried (Fails e) \/ ~ retried (Fails e))
      by (destruct e; simpl; tauto).
    destruct Hdec as [Hretried | Hcrash].
    + destruct (attempt_body_retried req chunk_index attempt w)
        as (events & Hreq & Hdelay & Hback & Hbody);
        [by rewrite Hup |].
      rewrite Hbody.
      destruct (Z.ltb_spec attempt (max_retries self)) as [Hlt | Hge].
      * eexists _, _. split; [done |].
        rewrite requests_app, chunk_delays_app, backoffs_app, Hreq, Hdelay,
          Hback.
        by repeat split.
      * eexists _, _. split; [done |]. do 3 (split; [done |]).
        left. right. rewrite Hup.
        destruct e; simpl in Hretried; try done; simpl; by eexists _, _, _.
    + rewrite (attempt_body_crash self upstream req chunk_index attempt w e);
        [| done | intros msg ->; by apply Hcrash
         | intros msg ->; by apply Hcrash].
      eexists _, _. split; [done |]. do 3 (split; [done |]). by right.
Qed.

(** The loop of [_generate_chunk], whatever the provider does. *)
Lemma attempts_effects (req : request) (chunk_index : Z) (remaining : nat) :
  forall (attempt : Z) (w : world),
  attempt + Z.of_nat remaining = max_retries self + 1 ->
  (0 < remaining)%nat ->
  exists result w' n events,
    attempts self upstream remaining req chunk_index attempt w = (result, w')
    /\ result <> Ok None
    /\ (1 <= n <= remaining)%nat
    /\ calls w' = (calls w + n)%nat
    /\ trace w' = trace w ++ events
    /\ requests events = replicate n req
    /\ backoffs events = (n - 1)%nat
    /\ chunk_delays events = 0%nat
    /\ forall e, result = Raise e ->
         constructed e
         \/ exists k, (k < n)%nat /\ upstream (calls w + k)%nat req = Fails e.
Proof.
  induction remaining as [|remaining IH]; intros attempt w Hrange Hpos;
    [lia |].
  rewrite attempts_S.
  destruct (attempt_body_cases req chunk_index attempt w)
    as (result & events & -> & Hreq & Hdelay & Hresult).
  destruct result as [[|audio] | e].
  - destruct Hresult as [Hback Hlt].
    destruct (IH (attempt + 1)
                (mkWorld (S (calls w)) (trace w ++ Post req :: events)))
      as (result & w' & n & events' & Hrun & Hsome & Hn & Hcalls & Htrace
          & Hreq' & Hback' & Hdelay' & Hraise); [lia | lia |].
    exists result, w', (S n), (Post req :: events ++ events').
    split; [done |]. split; [done |]. split; [lia |].
    simpl in Hcalls, Htrace. split; [lia |].
    split; [by rewrite Htrace, <- app_assoc |].
    split; [simpl; by rewrite requests_app, Hreq, Hreq' |].
    split; [simpl; rewrite backoffs_app, Hback, Hback'; lia |].
    split; [simpl; by rewrite chunk_delays_app, Hdelay, Hdelay' |].
    intros e He. destruct (Hraise e He) as [? | (k & Hk & Hup)]; [by left |].
    right. exists (S k). split; [lia |].
    by replace (calls w + S k)%nat with (S (calls w) + k)%nat by lia.
  - destruct Hresult as [Hback _].
    eexists (Ok (Some audio)), _, 1%nat, (Post req :: events).
    split; [done |]. split; [done |]. split; [lia |].
    simpl. split; [lia |]. rewrite Hreq, Hback, Hdelay. by repeat split.
  - destruct Hresult as [Hback Hsource].
    eexists (Raise e), _, 1%nat, (Post req :: events).
    split; [done |]. split; [done |]. split; [lia |].
    simpl. split; [lia |]. rewrite Hreq, Hback, Hdelay.
    do 4 (split; [done |]). intros e' [= <-].
    destruct Hsource as [? | Hup]; [by left |].
    right. exists 0%nat. split; [lia |]. by rewrite Nat.add_0_r.
Qed.

(** What one chunk costs, whatever the provider does: with a positive
    number of attempts [_generate_chunk] returns audio or raises (it never
    ends without a result), after between one and [max_retries] calls,
    all with the request of the chunk, one backoff between two calls and
    none after the last. *)
Theorem generate_chunk_effects (chunk voice model_id : string)
    (voice_settings : gmap string setting) (fmt : string)
    (chunk_index : Z) (w : world) :
  0 < max_retries self ->
  exists result w' n events,
    _generate_chunk self upstream chunk voice model_id voice_settings fmt
      chunk_index w = (result, w')
    /\ result <> Ok None
    /\ (1 <= n)%nat /\ Z.of_nat n <= max_retries self
    /\ calls w' = (calls w + n)%nat
    /\ trace w' = trace w ++ events
    /\ requests events
       = replicate n (mkRequest voice chunk model_id voice_settings
                        ("audio/" +:+ fmt))
    /\ posts events = n
    /\ backoffs events = (n - 1)%nat
    /\ chunk_delays events = 0%nat.
Proof.
  intros Hpos. unfold _generate_chunk.
  destruct (attempts_effects
              (mkRequest voice chunk model_id voice_settings
                 ("audio/" +:+ fmt))
              chunk_index (Z.to_nat (max_retries self)) 1 w)
    as (result & w' & n & events & Hrun & Hsome & Hn & Hcalls & Htrace
        & Hreq & Hback & Hdelay & _); [lia | lia |].
  exists result, w', n, events.
  split; [done |]. split; [done |]. split; [lia |]. split; [lia |].
  do 3 (split; [done |]).
  split; [by rewrite posts_requests, Hreq, length_replicate |]. done.
Qed.

(** Attempts that are retried and then answered with 200. *)
Lemma attempts_retry_then_success (req : request) (chunk_index : Z)
    (r : Response) (n : nat) :
  forall (remaining : nat) (attempt : Z) (w : world),
  attempt + Z.of_nat remaining = max_retries self + 1 ->
  (n < remaining)%nat ->
  (forall k, (k < n)%nat -> retried (upstream (calls w + k)%nat req)) ->
  upstream (calls w + n)%nat req = Responds r ->
  status_code r = 200 ->
  exists w' events,
    attempts self upstream remaining req chunk_index attempt w
    = (Ok (Some (content r)), w')
    /\ calls w' = (calls w + S n)%nat
    /\ trace w' = trace w ++ events
    /\ requests events = replicate (S n) req
    /\ backoffs events = n
    /\ chunk_delays events = 0%nat.
Proof.
  induction n as [|n IH]; intros remaining attempt w Hrange Hn Hretried Hup
    H200; (destruct remaining as [|remaining]; [lia |]); rewrite attempts_S.
  - rewrite Nat.add_0_r in Hup.
    rewrite (attempt_body_success self upstream req chunk_index attempt w r)
      by done.
    eexists _, _. split; [done |]. simpl. split; [lia |]. by repeat split.
  - destruct (attempt_body_retried req chunk_index attempt w)
      as (events & Hreq & Hdelay & Hback & ->).
    { specialize (Hretried 0%nat). rewrite Nat.add_0_r in Hretried.
      apply Hretried. lia. }
    rewrite (proj2 (Z.ltb_lt attempt (max_retries self))) by lia.
    lazymatch goal with
    | |- context [attempts _ _ _ _ _ _ ?w1] =>
        destruct (IH remaining (attempt + 1) w1)
          as (w' & events' & -> & Hcalls & Htrace & Hreq' & Hback' & Hdelay');
          [lia | lia | | | exact H200 |]
    end.
    + intros k Hk. cbn [calls].
      replace (S (calls w) + k)%nat with (calls w + S k)%nat by lia.
      apply Hretried. lia.
    + cbn [calls].
      by replace (S (calls w) + n)%nat with (calls w + S n)%nat by lia.
    + eexists _, _. split; [done |]. simpl in Hcalls, Htrace.
      split; [lia |]. split; [by rewrite Htrace, <- app_assoc |].
      cbn [app requests backoffs chunk_delays].
      rewrite !requests_app, !backoffs_app, !chunk_delays_app, Hreq, Hreq',
        Hback, Hback', Hdelay, Hdelay'.
      simpl. split; [done |]. split; [lia | done].
Qed.

(** A chunk whose first [n] calls hit outcomes of the retry set (429 and
    the listed 5xx statuses, timeouts, network errors) and whose next call
    is answered with 200 gets the body of that answer, after [n + 1]
    calls and [n] backoffs, provided the attempts allow [n + 1] calls. *)
Theorem generate_chunk_retry_then_success (chunk voice model_id : string)
    (voice_settings : gmap string setting) (fmt : string)
    (chunk_index : Z) (w : world) (r : Response) (n : nat) :
  let req := mkRequest voice chunk model_id voice_settings
               ("audio/" +:+ fmt) in
  Z.of_nat n < max_retries self ->
  (forall k, (k < n)%nat -> retried (upstream (calls w + k)%nat req)) ->
  upstream (calls w + n)%nat req = Responds r ->
  status_code r = 200 ->
  exists w' events,
    _generate_chunk self upstream chunk voice model_id voice_settings fmt
      chunk_index w = (Ok (Some (content r)), w')
    /\ calls w' = (calls w + S n)%nat
    /\ trace w' = trace w ++ events
    /\ requests events = replicate (S n) req
    /\ backoffs events = n
    /\ chunk_delays events = 0%nat.
Proof.
  intros req Hn Hretried Hup H200. unfold _generate_chunk.
  apply attempts_retry_then_success; [lia | lia | done | done | done].
Qed.

(** Attempts that are all retried, up to the last one. *)
Lemma attempts_all_retried (req : request) (chunk_index : Z) (n : nat) :
  forall (attempt : Z) (w : world),
  attempt + Z.of_nat n = max_retries self ->
  (forall k, (k <= n)%nat -> retried (upstream (calls w + k)%nat req)) ->
  exists w' events,
    attempts self upstream (S n) req chunk_index attempt w
    = (Raise (exhausted_error chunk_index (upstream (calls w + n)%nat req)),
       w')
    /\ calls w' = (calls w + S n)%nat
    /\ trace w' = trace w ++ events
    /\ requests events = replicate (S n) req
    /\ backoffs events = n
    /\ chunk_delays events = 0%nat.
Proof.
  induction n as [|n IH]; intros attempt w Hrange Hretried;
    rewrite attempts_S;
    (destruct (attempt_body_retried req chunk_index attempt w)
       as (events & Hreq & Hdelay & Hback & ->);
     [specialize (Hretried 0%nat); rewrite Nat.add_0_r in Hretried;
      apply Hretried; lia |]).
  - rewrite (proj2 (Z.ltb_ge attempt (max_retries self))) by lia.
    rewrite Nat.add_0_r.
    eexists _, (Post req :: events). split; [done |]. simpl. split; [lia |].
    rewrite Hreq, Hback, Hdelay. by repeat split.
  - rewrite (proj2 (Z.ltb_lt attempt (max_retries self))) by lia.
    lazymatch goal with
    | |- context [attempts _ _ _ _ _ _ ?w1] =>
        destruct (IH (attempt + 1) w1)
          as (w' & events' & -> & Hcalls & Htrace & Hreq' & Hback' & Hdelay');
          [lia | |]
    end.
    + intros k Hk. cbn [calls].
      replace (S (calls w) + k)%nat with (calls w + S k)%nat by lia.
      apply Hretried. lia.
    + cbn [calls].
      replace (S (calls w) + n)%nat with (calls w + S n)%nat by lia.
      eexists _, _. split; [done |]. simpl in Hcalls, Htrace.
      split; [lia |]. split; [by rewrite Htrace, <- app_assoc |].
      cbn [app requests backoffs chunk_delays].
      rewrite !requests_app, !backoffs_app, !chunk_delays_app, Hreq, Hreq',
        Hback, Hback', Hdelay, Hdelay'.
      simpl. split; [done |]. split; [lia | done].
Qed.

(** A chunk whose calls all hit outcomes of the retry set uses up the
    attempts: [max_retries] calls, a backoff after each but the last, and
    the error of the last outcome.  The error is retryable exactly when
    the last outcome was a timeout or a network error; its code is
    [UPSTREAM_RATE_LIMIT] after a last status of 429 and [UPSTREAM_ERROR]
    otherwise, never [TIMEOUT]. *)
Theorem generate_chunk_exhausted (chunk voice model_id : string)
    (voice_settings : gmap string setting) (fmt : string)
    (chunk_index : Z) (w : world) :
  let req := mkRequest voice chunk model_id voice_settings
               ("audio/" +:+ fmt) in
  let n := Z.to_nat (max_retries self) in
  let last := upstream (calls w + (n - 1))%nat req in
  0 < max_retries self ->
  (forall k, (k < n)%nat -> retried (upstream (calls w + k)%nat req)) ->
  exists w' events,
    _generate_chunk self upstream chunk voice model_id voice_settings fmt
      chunk_index w = (Raise (exhausted_error chunk_index last), w')
    /\ exn_retryable (exhausted_error chunk_index last)
       = Some (match last with Responds _ => false | Fails _ => true end)
    /\ exn_code (exhausted_error chunk_index last)
       = Some (match last with
               | Responds r =>
                   if status_code r =? 429 then UPSTREAM_RATE_LIMIT
                   else UPSTREAM_ERROR
               | Fails _ => UPSTREAM_ERROR
               end)
    /\ calls w' = (calls w + n)%nat
    /\ trace w' = trace w ++ events
    /\ requests events = replicate n req
    /\ backoffs events = (n - 1)%nat
    /\ chunk_delays events = 0%nat.
Proof.
  intros req n last Hpos Hretried. unfold _generate_chunk. fold req. fold n.
  assert (Hn : n = S (n - 1)) by (unfold n; lia).
  destruct (attempts_all_retried req chunk_index (n - 1) 1 w)
    as (w' & events & Hrun & Hcalls & Htrace & Hreq & Hback & Hdelay).
  { unfold n. lia. }
  { intros k Hk. apply Hretried. lia. }
  rewrite <- Hn in Hrun, Hcalls, Hreq.
  exists w', events. split; [done |].
  assert (Hlast : retried last) by (apply Hretried; lia).
  split; [| split; [| done]].
  - destruct last as [r | e]; [done |]. by destruct e.
  - destruct last as [r | e]; [| by destruct e].
    simpl in Hlast. unfold exhausted_error.
    rewrite ElevenLabsException_code.
    unfold retry_status in Hlast.
    destruct (Z.eqb_spec (status_code r) 429) as [-> | H429]; [done |].
    destruct (Z.eqb_spec (status_code r) 401) as [H401 | _];
      [by rewrite H401 in Hlast |].
    destruct (Z.eqb_spec (status_code r) 403) as [H403 | _];
      [by rewrite H403 in Hlast | done].
Qed.

(** A status that is neither 200 nor in the retry set is not retried: one
    call, no backoff, and an error that is not retryable, with the code
    [AUTH_ERROR] for 401, [FORBIDDEN] for 403 and [UPSTREAM_ERROR] for
    every other status. *)
Theorem generate_chunk_not_retried (chunk voice model_id : string)
    (voice_settings : gmap string setting) (fmt : string)
    (chunk_index : Z) (w : world) (r : Response) :
  let req := mkRequest voice chunk model_id voice_settings
               ("audio/" +:+ fmt) in
  let e := ElevenLabsException (_extract_error r) (Some (status_code r))
             false in
  0 < max_retries self ->
  upstream (calls w) req = Responds r ->
  status_code r <> 200 ->
  retry_status (status_code r) = false ->
  _generate_chunk self upstream chunk voice model_id voice_settings fmt
    chunk_index w
  = (Raise e,
     mkWorld (S (calls w))
       (trace w ++ [Post req; RecordRequest voice (status_code r)]))
  /\ exn_retryable e = Some false
  /\ exn_code e
     = Some (if status_code r =? 401 then AUTH_ERROR
             else if status_code r =? 403 then FORBIDDEN
             else UPSTREAM_ERROR).
Proof.
  intros req e Hpos Hup H200 Hretry. unfold _generate_chunk. fold req.
  destruct (Z.to_nat (max_retries self)) as [|n] eqn:Hn; [lia |].
  rewrite attempts_S.
  rewrite (attempt_body_give_up self upstream req chunk_index 1 w r);
    [| done | done | by left].
  split; [done |]. split; [done |].
  unfold e. rewrite ElevenLabsException_code.
  destruct (Z.eqb_spec (status_code r) 429) as [H429 | _]; [| done].
  unfold retry_status in Hretry. by rewrite H429 in Hretry.
Qed.





(** What combining raises is no exception of the application. *)
Lemma combine_results_raises (audio_chunks : list (option bytes))
    (output_format : string) (e : exn) :
  combine_results codec audio_chunks output_format = Raise e ->
  recognized e = false.
Proof.
  unfold combine_results.
  destruct (first_none 0 audio_chunks) as [i|].
  - destruct audio_chunks as [|a [|b rest]];
      destruct (Py.mem (Py.lower output_format) SUPPORTED_FORMATS);
      simpl; by intros [= <-].
  - unfold combine_audio_chunks.
    destruct (omap id audio_chunks) as [|b1 [|b2 rest]];
      [by intros [= <-] | done |].
    destruct (Py.mem (Py.lower output_format) SUPPORTED_FORMATS); simpl;
      [| by intros [= <-]].
    destruct (HAS_PYDUB codec); simpl; [| done].
    by destruct (pydub_merge codec (b1 :: b2 :: rest)
                   (Py.lower output_format)).
Qed.





(** A text beyond [max_text_length] is refused before the chunker and the
    provider are reached: the world is unchanged, and the code of the
    error is [INVALID_INPUT]. *)
Theorem text_to_speech_text_too_long
    (text voice_name news_id request_id : string) (chunk_size : option Z)
    (override : option (gmap string setting)) (output_format : option string)
    (w : world) (config : voice_config) :
  let e := ValidationException
             ("Text too long: " +:+ pretty (Py.len text)
              +:+ " characters (max: "
              +:+ pretty (max_text_length settings) +:+ ")") in
  voices !! voice_name = Some config ->
  max_text_length settings < Py.len text ->
  text_to_speech settings self voices codec upstream text voice_name news_id
    request_id chunk_size override output_format w = (Raise e, w)
  /\ exn_code e = Some INVALID_INPUT.
Proof.
  intros e Hvoice Hlong. split; [| done].
  unfold text_to_speech, try_except, text_to_speech_try.
  rewrite (is_voice_available_Some _ _ _ Hvoice).
  unfold get_voice_id, get_voice_model, get_voice_settings, get_voice_config.
  rewrite Hvoice. cbn.
  by rewrite (proj2 (Z.gtb_lt _ _)) by lia.
Qed.

Lemma generate_chunk_success (chunk voice model_id : string)
    (voice_settings : gmap string setting) (fmt : string)
    (chunk_index : Z) (w : world) (r : Response) :
  let req := mkRequest voice chunk model_id voice_settings
               ("audio/" +:+ fmt) in
  0 < max_retries self ->
  upstream (calls w) req = Responds r ->
  status_code r = 200 ->
  _generate_chunk self upstream chunk voice model_id voice_settings fmt
    chunk_index w
  = (Ok (Some (content r)),
     mkWorld (S (calls w))
       (trace w ++ [Post req; RecordRequest voice 200])).
Proof.
  intros req Hpos Hup H200. unfold _generate_chunk. fold req.
  destruct (Z.to_nat (max_retries self)) as [|n] eqn:Hn; [lia |].
  rewrite attempts_S.
  by rewrite (attempt_body_success self upstream req chunk_index 1 w r).
Qed.

(** The loop over the chunks when every call is answered with 200. *)
Lemma process_chunks_all_success (voice model_id : string)
    (voice_settings : gmap string setting) (fmt : string) (total : Z)
    (chunks : list string) :
  let request_of chunk :=
    mkRequest voice chunk model_id voice_settings ("audio/" +:+ fmt) in
  0 < max_retries self ->
  forall (i : Z) (audio_chunks : list (option bytes)) (w : world),
  i + Z.of_nat (length chunks) = total + 1 ->
  (forall k chunk, chunks !! k = Some chunk ->
     exists r, upstream (calls w + k)%nat (request_of chunk) = Responds r
               /\ status_code r = 200) ->
  exists w' events,
    process_chunks self upstream voice model_id voice_settings fmt total i
      chunks audio_chunks w
    = (Ok (audio_chunks
           ++ map Some (contents upstream (calls w) (map request_of chunks))),
       w')
    /\ calls w' = (calls w + length chunks)%nat
    /\ trace w' = trace w ++ events
    /\ requests events = map request_of chunks
    /\ backoffs events = 0%nat
    /\ chunk_delays events = (length chunks - 1)%nat.
Proof.
  intros request_of Hpos.
  induction chunks as [|chunk chunks IH]; intros i audio_chunks w Hi Hup.
  { exists w, []. simpl. rewrite !app_nil_r. split; [done |].
    split; [lia | done]. }
  rewrite process_chunks_cons.
  destruct (Hup 0%nat chunk eq_refl) as (r & Hr & H200).
  rewrite Nat.add_0_r in Hr.
  rewrite (generate_chunk_success chunk voice model_id voice_settings fmt i
             w r) by done.
  cbn [map contents length calls trace]. fold request_of. rewrite Hr.
  assert (Hrest : forall w1, calls w1 = S (calls w) ->
            forall k c, chunks !! k = Some c ->
            exists r', upstream (calls w1 + k)%nat (request_of c) = Responds r'
                       /\ status_code r' = 200).
  { intros w1 Hw1 k c Hk. rewrite Hw1.
    replace (S (calls w) + k)%nat with (calls w + S k)%nat by lia.
    by apply Hup. }
  cbn [length] in Hi.
  destruct (Z.ltb_spec i total) as [Hlt | Hge];
    (lazymatch goal with
     | |- context [process_chunks _ _ _ _ _ _ _ _ _ _ ?w1] =>
         destruct (IH (i + 1) (audio_chunks ++ [Some (content r)]) w1)
           as (w' & events & -> & Hcalls & Htrace & Hreq & Hback & Hdelay);
           [lia | by apply Hrest |]
     end);
    cbn [calls trace] in Hcalls, Htrace; rewrite <- app_assoc; cbn [app].
  - eexists w',
      ([Post (request_of chunk); RecordRequest voice 200; SleepChunkDelay]
       ++ events).
    split; [done |]. split; [lia |].
    split; [rewrite Htrace; by rewrite <- !app_assoc |].
    cbn [app requests backoffs chunk_delays]. rewrite Hreq, Hback, Hdelay.
    split; [done |]. split; [done |]. lia.
  - eexists w', ([Post (request_of chunk); RecordRequest voice 200] ++ events).
    split; [done |]. split; [lia |].
    split; [rewrite Htrace; by rewrite <- !app_assoc |].
    cbn [app requests backoffs chunk_delays]. rewrite Hreq, Hback, Hdelay.
    split; [done |]. split; [done |]. lia.
Qed.

Lemma first_none_Some (audio : list bytes) (i : Z) :
  first_none i (map Some audio) = None.
Proof.
  revert i. induction audio as [|a audio IH]; intros i; [done |]. apply IH.
Qed.

Lemma omap_id_Some (audio : list bytes) : omap id (map Some audio) = audio.
Proof. induction audio as [|a audio IH]; [done |]. simpl. by f_equal. Qed.

(** The generation when every call is answered with 200: one call per
    chunk, in the order of the chunks and each with the text of its chunk,
    the voice id and model of the voice, the merged settings and the
    format; no backoff; a sleep between two chunks and none after the
    last; and the result is what [combine_audio_chunks] makes of the
    bodies of the answers, in that order.  A [ValueError] of the combiner
    is wrapped into the generic upstream error. *)
Theorem text_to_speech_all_success
    (text voice_name news_id request_id : string) (chunk_size : option Z)
    (override : option (gmap string setting)) (output_format : option string)
    (w : world) (config : voice_config) (chunks : list string) :
  let fmt := or_else output_format (default_format self) in
  let request_of chunk :=
    mkRequest (voice_id config) chunk (model config)
      (default ∅ override ∪ (VoiceManager.settings config ∪ default_settings))
      ("audio/" +:+ fmt) in
  let audio := contents upstream (calls w) (map request_of chunks) in
  voices !! voice_name = Some config ->
  Py.len text <= max_text_length settings ->
  chunk_text text (chunk_size_or_default settings chunk_size) = Ok chunks ->
  chunks <> [] ->
  0 < max_retries self ->
  (forall k chunk, chunks !! k = Some chunk ->
     exists r, upstream (calls w + k)%nat (request_of chunk) = Responds r
               /\ status_code r = 200) ->
  exists w' events,
    text_to_speech settings self voices codec upstream text voice_name news_id
      request_id chunk_size override output_format w
    = (match combine_audio_chunks codec audio fmt with
       | Ok combined => Ok combined
       | Raise e =>
           Raise (ElevenLabsException ("Unexpected error: " +:+ exn_str e)
                    None false)
       end, w')
    /\ calls w' = (calls w + length chunks)%nat
    /\ trace w' = trace w ++ events
    /\ requests events = map request_of chunks
    /\ backoffs events = 0%nat
    /\ chunk_delays events = (length chunks - 1)%nat.
Proof.
  intros fmt request_of audio Hvoice Hlen Hchunks Hsome Hpos Hup.
  unfold text_to_speech, try_except. fold fmt.
  rewrite (text_to_speech_try_chunks settings self voices codec upstream
             text voice_name _ override fmt w config chunks) by done.
  destruct (process_chunks_all_success (voice_id config) (model config)
              (default ∅ override
               ∪ (VoiceManager.settings config ∪ default_settings))
              fmt (Z.of_nat (length chunks)) chunks Hpos 1 [] w)
    as (w1 & events & -> & Hcalls & Htrace & Hreq & Hback & Hdelay);
    [lia | done |].
  fold request_of. fold audio. rewrite app_nil_l.
  assert (Hcombine : combine_results codec (map Some audio) fmt
                     = combine_audio_chunks codec audio fmt).
  { unfold combine_results. by rewrite first_none_Some, omap_id_Some. }
  destruct audio as [|a audio'] eqn:Haudio.
  { unfold audio in Haudio. by destruct chunks. }
  cbn [map]. change (Some a :: map Some audio') with (map Some (a :: audio')).
  rewrite Hcombine.
  destruct (combine_audio_chunks codec (a :: audio') fmt)
    as [combined | e] eqn:Hresult.
  - eexists _, (events ++ [RecordGeneration voice_name (model config)
                             (Py.len text) (Z.of_nat (length combined)) fmt]).
    split; [done |]. cbn [calls trace].
    split; [done |]. split; [by rewrite Htrace, <- app_assoc |].
    rewrite requests_app, backoffs_app, chunk_delays_app, Hreq, Hback, Hdelay.
    simpl. rewrite app_nil_r. split; [done |]. split; lia.
  - apply combine_results_raises in Hcombine.
    unfold on_exception. rewrite Hcombine. by exists w1, events.
Qed.

(** A service configured with no attempt at all: [_generate_chunk] falls
    out of its loop without a result, so no call is made, and the missing
    audio surfaces as a Python error that [text_to_speech] wraps into the
    generic upstream error.  For one chunk the wrapped error is the
    [TypeError] of [len]. *)
Theorem text_to_speech_no_attempts
    (text voice_name news_id request_id : string) (chunk_size : option Z)
    (override : option (gmap string setting)) (output_format : option string)
    (w : world) (config : voice_config) (chunk : string) :
  max_retries self <= 0 ->
  voices !! voice_name = Some config ->
  Py.len text <= max_text_length settings ->
  chunk_text text (chunk_size_or_default settings chunk_size) = Ok [chunk] ->
  text_to_speech settings self voices codec upstream text voice_name news_id
    request_id chunk_size override output_format w
  = (Raise (ElevenLabsException
              "Unexpected error: object of type 'NoneType' has no len()"
              None false), w).
Proof.
  intros Hnone Hvoice Hlen Hchunks.
  unfold text_to_speech, try_except.
  rewrite (text_to_speech_try_chunks settings self voices codec upstream
             text voice_name _ override _ w config [chunk]) by done.
  rewrite process_chunks_cons. unfold _generate_chunk.
  replace (Z.to_nat (max_retries self)) with 0%nat by lia.
  by destruct w.
Qed.

(** The loop over the chunks when the calls are answered with 200 up to a
    chunk whose call is answered with a status that is not retried. *)
Lemma process_chunks_stops (voice model_id : string)
    (voice_settings : gmap string setting) (fmt : string) (total : Z)
    (chunk : string) (rest : list string) (r : Response)
    (done_chunks : list string) :
  let request_of chunk :=
    mkRequest voice chunk model_id voice_settings ("audio/" +:+ fmt) in
  0 < max_retries self ->
  status_code r <> 200 ->
  retry_status (status_code r) = false ->
  forall (i : Z) (audio_chunks : list (option bytes)) (w : world),
  i + Z.of_nat (length done_chunks) <= total ->
  (forall k c, done_chunks !! k = Some c ->
     exists r', upstream (calls w + k)%nat (request_of c) = Responds r'
                /\ status_code r' = 200) ->
  upstream (calls w + length done_chunks)%nat (request_of chunk)
  = Responds r ->
  exists w' events,
    process_chunks self upstream voice model_id voice_settings fmt total i
      (done_chunks ++ chunk :: rest) audio_chunks w
    = (Raise (ElevenLabsException (_extract_error r) (Some (status_code r))
                false), w')
    /\ calls w' = (calls w + S (length done_chunks))%nat
    /\ trace w' = trace w ++ events
    /\ requests events = map request_of (done_chunks ++ [chunk])
    /\ backoffs events = 0%nat
    /\ chunk_delays events = length done_chunks.
Proof.
  intros request_of Hpos H200 Hretry.
  induction done_chunks as [|c done_chunks IH];
    intros i audio_chunks w Hi Hdone Hup.
  - cbn [app length] in Hup |- *. rewrite Nat.add_0_r in Hup.
    rewrite process_chunks_cons. unfold _generate_chunk.
    destruct (Z.to_nat (max_retries self)) as [|n] eqn:Hn; [lia |].
    rewrite attempts_S. fold (request_of chunk).
    rewrite (attempt_body_give_up self upstream (request_of chunk) i 1 w r);
      [| done | done | by left].
    eexists _, _. split; [done |]. cbn [calls trace].
    split; [lia |]. by repeat split.
  - cbn [app length] in Hi, Hup |- *.
    rewrite process_chunks_cons.
    destruct (Hdone 0%nat c eq_refl) as (r' & Hr' & Hok).
    rewrite Nat.add_0_r in Hr'.
    rewrite (generate_chunk_success c voice model_id voice_settings fmt i
               w r') by done.
    rewrite (proj2 (Z.ltb_lt i total)) by lia.
    lazymatch goal with
    | |- context [process_chunks _ _ _ _ _ _ _ _ _ _ ?w1] =>
        destruct (IH (i + 1) (audio_chunks ++ [Some (content r')]) w1)
          as (w' & events & -> & Hcalls & Htrace & Hreq & Hback & Hdelay)
    end.
    + lia.
    + intros k c' Hk. cbn [calls].
      replace (S (calls w) + k)%nat with (calls w + S k)%nat by lia.
      by apply Hdone.
    + cbn [calls].
      by replace (S (calls w) + length done_chunks)%nat
        with (calls w + S (length done_chunks))%nat by lia.
    + cbn [calls trace] in Hcalls, Htrace.
      eexists w',
        ([Post (request_of c); RecordRequest voice 200; SleepChunkDelay]
         ++ events).
      split; [done |]. split; [lia |].
      split; [rewrite Htrace; by rewrite <- !app_assoc |].
      cbn [app requests backoffs chunk_delays map].
      rewrite Hreq, Hback, Hdelay. done.
Qed.

(** A generation is all or nothing: when the calls of the first chunks are
    answered with 200 and the call of the next chunk with a status that
    is not retried, [text_to_speech] raises the error of that status as
    it is, the audio of the chunks before is dropped, and the chunks
    after it are never sent. *)
Theorem text_to_speech_stops_at_first_error
    (text voice_name news_id request_id : string) (chunk_size : option Z)
    (override : option (gmap string setting)) (output_format : option string)
    (w : world) (config : voice_config) (done_chunks : list string)
    (chunk : string) (rest : list string) (r : Response) :
  let fmt := or_else output_format (default_format self) in
  let request_of chunk :=
    mkRequest (voice_id config) chunk (model config)
      (default ∅ override ∪ (VoiceManager.settings config ∪ default_settings))
      ("audio/" +:+ fmt) in
  voices !! voice_name = Some config ->
  Py.len text <= max_text_length settings ->
  chunk_text text (chunk_size_or_default settings chunk_size)
  = Ok (done_chunks ++ chunk :: rest) ->
  0 < max_retries self ->
  (forall k c, done_chunks !! k = Some c ->
     exists r', upstream (calls w + k)%nat (request_of c) = Responds r'
                /\ status_code r' = 200) ->
  upstream (calls w + length done_chunks)%nat (request_of chunk)
  = Responds r ->
  status_code r <> 200 ->
  retry_status (status_code r) = false ->
  exists w' events,
    text_to_speech settings self voices codec upstream text voice_name news_id
      request_id chunk_size override output_format w
    = (Raise (ElevenLabsException (_extract_error r) (Some (status_code r))
                false), w')
    /\ calls w' = (calls w + S (length done_chunks))%nat
    /\ trace w' = trace w ++ events
    /\ requests events = map request_of (done_chunks ++ [chunk])
    /\ backoffs events = 0%nat
    /\ chunk_delays events = length done_chunks.
Proof.
  intros fmt request_of Hvoice Hlen Hchunks Hpos Hdone Hup H200 Hretry.
  unfold text_to_speech, try_except. fold fmt.
  rewrite (text_to_speech_try_chunks settings self voices codec upstream
             text voice_name _ override fmt w config
             (done_chunks ++ chunk :: rest)) by done.
  destruct (process_chunks_stops (voice_id config) (model config)
              (default ∅ override
               ∪ (VoiceManager.settings config ∪ default_settings))
              fmt (Z.of_nat (length (done_chunks ++ chunk :: rest)))
              chunk rest r done_chunks Hpos H200 Hretry 1 [] w)
    as (w' & events & -> & Hcounters); [| done | done |].
  { rewrite length_app. cbn [length]. lia. }
  by exists w', events.
Qed.

End MoreService.

(** ** The properties of the service on concrete deployments *)

Section MoreServiceExamples.
Import Chunking AudioUtils VoiceManager Service Props.

Lemma generate_chunk_effects_witness :
  exists result w' n events,
    _generate_chunk Examples.service Examples.flaky "Hi." "v1" "m1" ∅ "mp3" 1
      Examples.start = (result, w')
    /\ result <> Ok None
    /\ (1 <= n)%nat /\ Z.of_nat n <= max_retries Examples.service
    /\ calls w' = (calls Examples.start + n)%nat
    /\ trace w' = trace Examples.start ++ events
    /\ requests events
       = replicate n (mkRequest "v1" "Hi." "m1" ∅ ("audio/" +:+ "mp3"))
    /\ posts events = n
    /\ backoffs events = (n - 1)%nat
    /\ chunk_delays events = 0%nat.
Proof.
  apply (generate_chunk_effects Examples.service Examples.flaky "Hi." "v1"
           "m1" ∅ "mp3" 1 Examples.start).
  reflexivity.
Defined.

Lemma generate_chunk_retry_then_success_witness :
  exists w' events,
    _generate_chunk Examples.service Examples.flaky "Hi." "v1" "m1" ∅ "mp3" 1
      Examples.start = (Ok (Some [Byte.x01]), w')
    /\ calls w' = 3%nat
    /\ trace w' = events
    /\ requests events
       = replicate 3 (mkRequest "v1" "Hi." "m1" ∅ "audio/mp3")
    /\ backoffs events = 2%nat
    /\ chunk_delays events = 0%nat.
Proof.
  apply (generate_chunk_retry_then_success Examples.service Examples.flaky
           "Hi." "v1" "m1" ∅ "mp3" 1 Examples.start
           (Examples.response 200 [Byte.x01]) 2);
    [reflexivity | | reflexivity | reflexivity].
  intros [|[|k]] Hk; [reflexivity | exact I | lia].
Defined.

Lemma generate_chunk_exhausted_witness :
  exists w' events,
    _generate_chunk Examples.service Examples.always_timeout "Hi." "v1" "m1"
      ∅ "mp3" 7 Examples.start
    = (Raise (ElevenLabsException "Request timeout in chunk 7" None true), w')
    /\ exn_retryable
         (ElevenLabsException "Request timeout in chunk 7" None true)
       = Some true
    /\ exn_code (ElevenLabsException "Request timeout in chunk 7" None true)
       = Some UPSTREAM_ERROR
    /\ calls w' = 3%nat
    /\ trace w' = events
    /\ requests events
       = replicate 3 (mkRequest "v1" "Hi." "m1" ∅ "audio/mp3")
    /\ backoffs events = 2%nat
    /\ chunk_delays events = 0%nat.
Proof.
  apply (generate_chunk_exhausted Examples.service Examples.always_timeout
           "Hi." "v1" "m1" ∅ "mp3" 7 Examples.start); [reflexivity |].
  intros k Hk. exact I.
Defined.

Lemma generate_chunk_not_retried_witness :
  let r := mkResponse 401 [] None (Some (JsonDict (Some "bad key") None)) "" in
  let req := mkRequest "v1" "Hi." "m1" ∅ "audio/mp3" in
  _generate_chunk Examples.service Examples.always_401 "Hi." "v1" "m1" ∅
    "mp3" 1 Examples.start
  = (Raise (ElevenLabsException "bad key" (Some 401) false),
     mkWorld 1 [Post req; RecordRequest "v1" 401])
  /\ exn_retryable (ElevenLabsException "bad key" (Some 401) false)
     = Some false
  /\ exn_code (ElevenLabsException "bad key" (Some 401) false)
     = Some AUTH_ERROR.
Proof.
  apply (generate_chunk_not_retried Examples.service Examples.always_401
           "Hi." "v1" "m1" ∅ "mp3" 1 Examples.start
           (mkResponse 401 [] None (Some (JsonDict (Some "bad key") None))
              ""));
    [reflexivity | reflexivity | discriminate | reflexivity].
Defined.


Lemma text_to_speech_text_too_long_witness :
  let e := ValidationException "Text too long: 11 characters (max: 5)" in
  text_to_speech (mkSettings 5 2500) Examples.service Examples.voices
    Examples.codec Examples.always_empty "Hello world" "adam" "n1" "r1" None
    None None Examples.start = (Raise e, Examples.start)
  /\ exn_code e = Some INVALID_INPUT.
Proof.
  apply (text_to_speech_text_too_long (mkSettings 5 2500) Examples.service
           Examples.voices Examples.codec Examples.always_empty "Hello world"
           "adam" "n1" "r1" None None None Examples.start
           (mkVoice "pNInz6obpgDQGcFmaJgB" "eleven_flash_v2_5" ∅));
    reflexivity.
Defined.

Lemma text_to_speech_all_success_witness :
  exists w' events,
    text_to_speech Examples.settings Examples.service Examples.voices
      Examples.codec Examples.numbered
      "Hello there. How are you today? Fine." "adam" "n1" "r1" (Some 15) None
      None Examples.start
    = (Ok (replicate 6 Byte.x00), w')
    /\ calls w' = 3%nat
    /\ trace w' = events
    /\ requests events
       = map (fun chunk =>
                mkRequest "pNInz6obpgDQGcFmaJgB" chunk "eleven_flash_v2_5"
                  default_settings "audio/mp3")
           ["Hello there."; "How are you today?"; "Fine."]
    /\ backoffs events = 0%nat
    /\ chunk_delays events = 2%nat.
Proof.
  destruct (text_to_speech_all_success Examples.settings Examples.service
              Examples.voices Examples.codec Examples.numbered
              "Hello there. How are you today? Fine." "adam" "n1" "r1"
              (Some 15) None None Examples.start
              (mkVoice "pNInz6obpgDQGcFmaJgB" "eleven_flash_v2_5" ∅)
              ["Hello there."; "How are you today?"; "Fine."])
    as (w' & events & Hrun & Hcalls & Htrace & Hreq & Hback & Hdelay);
    [reflexivity | by vm_compute | by vm_compute | discriminate
    | reflexivity | intros k chunk _; by eexists |].
  exists w', events.
  split; [exact Hrun |]. split; [exact Hcalls |]. split; [exact Htrace |].
  split; [| split; [exact Hback | exact Hdelay]].
  rewrite Hreq. by vm_compute.
Defined.

Lemma text_to_speech_no_attempts_witness :
  text_to_speech Examples.settings Examples.idle_service Examples.voices
    Examples.codec Examples.always_empty "Hello." "adam" "n1" "r1" None None
    None Examples.start
  = (Raise (ElevenLabsException
              "Unexpected error: object of type 'NoneType' has no len()"
              None false), Examples.start).
Proof.
  apply (text_to_speech_no_attempts Examples.settings Examples.idle_service
           Examples.voices Examples.codec Examples.always_empty "Hello."
           "adam" "n1" "r1" None None None Examples.start
           (mkVoice "pNInz6obpgDQGcFmaJgB" "eleven_flash_v2_5" ∅) "Hello.");
    [by vm_compute | reflexivity | by vm_compute | by vm_compute].
Defined.

Lemma text_to_speech_stops_at_first_error_witness :
  exists w' events,
    text_to_speech Examples.settings Examples.service Examples.voices
      Examples.codec Examples.ok_then_401
      "Hello there. How are you today? Fine." "adam" "n1" "r1" (Some 15) None
      None Examples.start
    = (Raise (ElevenLabsException "bad key" (Some 401) false), w')
    /\ calls w' = 2%nat
    /\ trace w' = events
    /\ requests events
       = map (fun chunk =>
                mkRequest "pNInz6obpgDQGcFmaJgB" chunk "eleven_flash_v2_5"
                  default_settings "audio/mp3")
           ["Hello there."; "How are you today?"]
    /\ backoffs events = 0%nat
    /\ chunk_delays events = 1%nat.
Proof.
  destruct (text_to_speech_stops_at_first_error Examples.settings
              Examples.service Examples.voices Examples.codec
              Examples.ok_then_401 "Hello there. How are you today? Fine."
              "adam" "n1" "r1" (Some 15) None None Examples.start
              (mkVoice "pNInz6obpgDQGcFmaJgB" "eleven_flash_v2_5" ∅)
              ["Hello there."] "How are you today?" ["Fine."]
              (mkResponse 401 [] None
                 (Some (JsonDict (Some "bad key") None)) ""))
    as (w' & events & Hrun & Hcalls & Htrace & Hreq & Hback & Hdelay);
    [reflexivity | by vm_compute | by vm_compute | reflexivity
    | intros [|k] c [= <-]; by eexists | reflexivity | discriminate
    | reflexivity |].
  exists w', events.
  split; [exact Hrun |]. split; [exact Hcalls |]. split; [exact Htrace |].
  split; [| split; [exact Hback | exact Hdelay]].
  rewrite Hreq. by vm_compute.
Defined.

End MoreServiceExamples.
